(** * mom: per-channel run orchestration, chat-mediated OAuth and the
      streaming response adapter

    A shallow embedding of [packages/mom/src/main.ts], [commands.ts],
    [auth.ts] and [oauth.ts].  Asynchronous TypeScript is read as code in a
    state-and-exception monad over an explicit [World]: the module-level
    maps ([channelStates], [pendingAuths], [pendingLogins]), the file
    system, and a journal of every request sent to a collaborator (chat
    platform, token endpoint, agent runner, logger).  What a collaborator
    answers is read from an oracle that sees the whole journal, so a theorem
    quantified over worlds covers every behaviour of the outside.  The
    clock is such an oracle too, asked anew at every [Date.now()].  Text
    is kept in UTF-8, and the arithmetic on times is that of doubles.

    An [await] is a sequencing point.  What arrives while [runner.run] is
    awaited (the runner's calls on the context adapter, stop requests for
    the channel) is a script that the agent oracle supplies.  Of the
    start-up code [parseArgs] is embedded; the checks of the environment
    and the signal handlers after it are not.  The context window
    builder, which these sources only plan and call, is modelled from
    its specification. *)

From Stdlib Require Import ZArith String Ascii List Bool Lia.
From stdpp Require Import base gmap strings list pretty.

Open Scope string_scope.

(* ====================================================================== *)
(** ** JavaScript strings *)
(* ====================================================================== *)

Module Js.

(** A string is kept as the bytes of its UTF-8 encoding; a surrogate
    that stands alone is kept as the three bytes of its own value.  Text
    of the ASCII range is the same in both readings, and so are the
    searches for an ASCII text that these sources make ([includes],
    [startsWith], [split], [===]). *)
Definition byte (c : ascii) : N := N_of_ascii c.

(** The white space and the line terminators that
    [String.prototype.trim] removes.  In one byte: U+0009 to U+000D and
    U+0020. *)
Definition is_ws (c : ascii) : bool :=
  let n := nat_of_ascii c in
  (Nat.eqb n 9 || Nat.eqb n 10 || Nat.eqb n 11 || Nat.eqb n 12
   || Nat.eqb n 13 || Nat.eqb n 32)%bool.

(** In two bytes: U+00A0. *)
Definition is_ws2 (a b : ascii) : bool :=
  ((byte a =? 194) && (byte b =? 160))%N.

(** In three bytes: U+1680, U+2000 to U+200A, U+2028, U+2029, U+202F,
    U+205F, U+3000 and U+FEFF. *)
Definition is_ws3 (a b c : ascii) : bool :=
  ((byte a =? 225) && (byte b =? 154) && (byte c =? 128)
   || (byte a =? 226) && (byte b =? 128)
      && ((128 <=? byte c) && (byte c <=? 138)
          || (byte c =? 168) || (byte c =? 169) || (byte c =? 175))
   || (byte a =? 226) && (byte b =? 129) && (byte c =? 159)
   || (byte a =? 227) && (byte b =? 128) && (byte c =? 128)
   || (byte a =? 239) && (byte b =? 187) && (byte c =? 191))%N.

Fixpoint trimStart (s : string) : string :=
  match s with
  | EmptyString => EmptyString
  | String a t1 =>
      if is_ws a then trimStart t1
      else
        match t1 with
        | EmptyString => s
        | String b t2 =>
            if is_ws2 a b then trimStart t2
            else
              match t2 with
              | EmptyString => s
              | String c t3 => if is_ws3 a b c then trimStart t3 else s
              end
        end
  end.

Fixpoint rev_onto (s acc : string) : string :=
  match s with
  | String c t => rev_onto t (String c acc)
  | EmptyString => acc
  end.

Definition reverse (s : string) : string := rev_onto s EmptyString.

(** [trimStart] on a text read from its end: the bytes of a character
    come last byte first. *)
Fixpoint trimStart_backwards (s : string) : string :=
  match s with
  | EmptyString => EmptyString
  | String a t1 =>
      if is_ws a then trimStart_backwards t1
      else
        match t1 with
        | EmptyString => s
        | String b t2 =>
            if is_ws2 b a then trimStart_backwards t2
            else
              match t2 with
              | EmptyString => s
              | String c t3 => if is_ws3 c b a then trimStart_backwards t3 else s
              end
        end
  end.

Definition trimEnd (s : string) : string :=
  reverse (trimStart_backwards (reverse s)).

Definition trim (s : string) : string := trimEnd (trimStart s).

Definition startsWith (s p : string) : bool := String.prefix p s.

(** [s.includes(p)]: [p] occurs in [s] at some position. *)
Fixpoint includes (s p : string) : bool :=
  String.prefix p s ||
  match s with
  | String _ t => includes t p
  | EmptyString => false
  end.

(** [s.split(sep)] for a separator of the ASCII range: never empty. *)
Fixpoint split (sep : ascii) (s : string) : list string :=
  match s with
  | EmptyString => [EmptyString]
  | String c t =>
      if Ascii.eqb c sep then EmptyString :: split sep t
      else match split sep t with
           | h :: r => String c h :: r
           | [] => [String c EmptyString]
           end
  end.

(** Truthiness of a [string | null | undefined] value. *)
Definition truthy (o : option string) : option string :=
  match o with
  | Some s => if String.eqb s "" then None else Some s
  | None => None
  end.

Definition nl : string := String (ascii_of_nat 10) EmptyString.

(** A thrown value: an [Error] object (name and message) or anything
    else, kept by its [String(...)] rendering. *)
Inductive Err : Type :=
| ErrorObj (name message : string)
| Thrown (shown : string).

(** [Error.prototype.toString]. *)
Definition show (e : Err) : string :=
  match e with
  | ErrorObj n m =>
      if String.eqb n "" then m
      else if String.eqb m "" then n
      else n ++ ": " ++ m
  | Thrown s => s
  end.

(** [err instanceof Error ? err.message : String(err)]. *)
Definition message_of (e : Err) : string :=
  match e with
  | ErrorObj _ m => m
  | Thrown s => s
  end.

Definition newError (m : string) : Err := ErrorObj "Error" m.

Definition of_byte (n : N) : ascii := ascii_of_N n.

(** The first half of the surrogate pair of a character of four bytes,
    as the three bytes of its value. *)
Definition high_surrogate (a b c : ascii) : string :=
  let plane := ((byte a mod 8) * 4 + (byte b / 16) mod 4 - 1)%N in
  let hs := (55296 + plane * 64 + (byte b mod 16) * 4 + (byte c / 16) mod 4)%N in
  String (of_byte 237)
    (String (of_byte (128 + (hs / 64) mod 64))
       (String (of_byte (128 + hs mod 64)) EmptyString)).

(** [s.substring(0, n)]: the first [n] code units of UTF-16.  A
    character of one, two or three bytes is one unit; one of four bytes
    is two, and a cut between them leaves the first. *)
Fixpoint substring_to (n : nat) (s : string) {struct s} : string :=
  match n, s with
  | O, _ => EmptyString
  | _, EmptyString => EmptyString
  | S n', String a t1 =>
      if (byte a <? 192)%N then String a (substring_to n' t1)
      else
        match t1 with
        | EmptyString => s
        | String b t2 =>
            if (byte a <? 224)%N then String a (String b (substring_to n' t2))
            else
              match t2 with
              | EmptyString => s
              | String c t3 =>
                  if (byte a <? 240)%N
                  then String a (String b (String c (substring_to n' t3)))
                  else
                    match t3 with
                    | EmptyString => s
                    | String d t4 =>
                        match n' with
                        | O => high_surrogate a b c
                        | S n'' =>
                            String a (String b (String c (String d (substring_to n'' t4))))
                        end
                    end
              end
        end
  end.

(** Numbers.  The numbers of these sources are times in milliseconds
    and lifetimes in seconds: integers, kept as [Z].  The arithmetic is
    that of IEEE 754 doubles: a result is rounded to 53 significant
    bits, to the nearest and in a tie to the even one.  Integers up to
    2^53 in size are exact; what lies beyond the largest double is not
    modelled. *)
Definition round53 (x : Z) : Z :=
  let a := Z.abs x in
  if (a <=? 2 ^ 53)%Z then x
  else
    let e := (Z.log2 a - 52)%Z in
    let q := Z.shiftr a e in
    let r := Z.land a (Z.ones e) in
    let half := Z.shiftl 1 (e - 1) in
    let q' := if ((half <? r)%Z || ((r =? half)%Z && Z.odd q))%bool then (q + 1)%Z else q in
    (Z.sgn x * Z.shiftl q' e)%Z.

Definition plus (x y : Z) : Z := round53 (x + y).
Definition minus (x y : Z) : Z := round53 (x - y).
Definition times (x y : Z) : Z := round53 (x * y).

End Js.

(* ====================================================================== *)
(** ** Results and the state-and-exception monad *)
(* ====================================================================== *)

Inductive Res (A : Type) : Type :=
| Ret (a : A)
| Throw (e : Js.Err).
Arguments Ret {A} a.
Arguments Throw {A} e.

Definition ST (S A : Type) : Type := S -> Res A * S.

Definition ret {S A} (a : A) : ST S A := fun s => (Ret a, s).

Definition throw {S A} (e : Js.Err) : ST S A := fun s => (Throw e, s).

Definition bind {S A B} (m : ST S A) (k : A -> ST S B) : ST S B :=
  fun s =>
    match m s with
    | (Ret a, s') => k a s'
    | (Throw e, s') => (Throw e, s')
    end.

Notation "'do' x <- m ; k" := (bind m (fun x => k))
  (at level 10, x name, m at level 99, k at level 200).
Notation "m ;; k" := (bind m (fun _ => k))
  (at level 100, k at level 200, right associativity).

Definition get {S} : ST S S := fun s => (Ret s, s).
Definition gets {S A} (f : S -> A) : ST S A := fun s => (Ret (f s), s).
Definition modify {S} (f : S -> S) : ST S unit := fun s => (Ret tt, f s).

(** [try { m } catch (e) { h e }]. *)
Definition try_catch {S A} (m : ST S A) (h : Js.Err -> ST S A) : ST S A :=
  fun s =>
    match m s with
    | (Ret a, s') => (Ret a, s')
    | (Throw e, s') => h e s'
    end.

(** [try { m } finally { f }]: [f] runs on both exits; a throw of [f]
    replaces the completion of [m]. *)
Definition try_finally {S A} (m : ST S A) (f : ST S unit) : ST S A :=
  fun s =>
    match m s with
    | (r, s') =>
        match f s' with
        | (Ret _, s'') => (r, s'')
        | (Throw e, s'') => (Throw e, s'')
        end
    end.

Definition when {S} (b : bool) (m : ST S unit) : ST S unit :=
  if b then m else ret tt.

(** An awaited call whose outcome the caller does not look at (the script
    of a run: the runner has already reacted to it). *)
Definition attempt {S A} (m : ST S A) : ST S unit :=
  fun s => (Ret tt, snd (m s)).

(* ====================================================================== *)
(** ** Data model *)
(* ====================================================================== *)

(** [ChannelState] of main.ts.  The runner and the store are handles of
    collaborators; the runner is addressed by its channel id. *)
Record ChannelState : Type := {
  running : bool;
  stopRequested : bool;
  stopMessageTs : option string
}.

(** [PendingAuth] of oauth.ts. *)
Record PendingAuth : Type := {
  verifier : string;
  challenge : string;
  createdAt : Z
}.

(** [OAuthCredentials] of oauth.ts; the [type] field is the constant
    ["oauth"]. *)
Record OAuthCredentials : Type := {
  refresh : string;
  access : string;
  expires : Z
}.

(** [PendingLogin] of auth.ts: the promise behind [resolve]/[reject] and
    the timer of the ten-minute timeout, by their ids. *)
Record PendingLogin : Type := {
  waiter : nat;
  timeout : nat
}.

Inductive Promise : Type :=
| Waiting
| Resolved (code : string)
| Rejected (e : Js.Err).

(** A live [setTimeout] of auth.ts: its callback closes over the channel
    and the promise it rejects. *)
Record Timer : Type := {
  tm_channel : string;
  tm_promise : nat
}.

(** What the file system holds at a path. *)
Inductive Entry : Type :=
| FileEntry (content : string) (mode : N)
| DirEntry (mode : N).

Record SlackEvent : Type := {
  ev_channel : string;
  ev_user : string;
  ev_text : string;
  ev_ts : string;
  ev_thread_ts : option string
}.

(** Body of the token request of [completeLogin]; [tr_state] is absent
    from the JSON when the pasted text has no second part. *)
Record TokenRequest : Type := {
  tr_code : string;
  tr_state : option string;
  tr_code_verifier : string
}.

(** Every request that leaves the process, in the order it is made. *)
Inductive Effect : Type :=
| SlackPostMessage (channel text : string)
| SlackUpdateMessage (channel ts text : string)
| SlackDeleteMessage (channel ts : string)
| SlackPostInThread (channel thread_ts text : string)
| SlackUploadFile (channel path : string) (title thread_ts : option string)
| SlackLogBotResponse (channel text ts : string)
| FetchToken (req : TokenRequest)
| FetchDone (baseUrl channel : string)
| SyncLogToContext (channelDir ts : string)
| RunnerRun (channel : string)
| RunnerAbort (channel : string)
| AuthStorageLogin (provider : string)
| AuthStorageLogout (provider : string)
| AuthStorageHas (provider : string)
| LogInfo (msg : string)
| LogWarning (msg detail : string)
| ConsoleError (msg : string)
| RandomBytes (n : nat).

(** The token endpoint's answer: [ok], and what [text()] and [json()]
    give when awaited.  [expires_in] is a number of seconds, kept as an
    integer. *)
Record TokenData : Type := {
  access_token : string;
  refresh_token : string;
  expires_in : Z
}.

Record HttpResponse : Type := {
  ok : bool;
  body_text : Res string;
  body_json : Res TokenData
}.

Record RunResult : Type := {
  stopReason : string
}.

(** What happens while [runner.run] is awaited, in order: the runner's
    calls on the context adapter, and stop requests for the channel that
    the transport hands to [handleStop] in between. *)
Inductive RunAction : Type :=
| ActRespond (text : string) (shouldLog : bool)
| ActReplaceMessage (text : string)
| ActRespondInThread (text : string)
| ActSetTyping (isTyping : bool)
| ActSetWorking (working : bool)
| ActUploadFile (path : string) (title : option string)
| ActDeleteMessage
| ActStop.

Record RunScript : Type := {
  actions : list RunAction;
  outcome : Res RunResult
}.

(** The outside: each oracle is asked with the journal as it is once the
    request has been recorded. *)
Record Outside : Type := {
  slack_api : list Effect -> Res string;
  token_endpoint : list Effect -> Res HttpResponse;
  log_sync : list Effect -> Res nat;
  agent : list Effect -> RunScript;
  entropy : list Effect -> string;
  auth_url : list Effect -> string;
  auth_has : list Effect -> bool;
  (* the clock, asked for the [n]-th time *)
  date_now : list Effect -> nat -> Z;
  (* library functions of the platform *)
  sha256 : string -> string;
  JSON_stringify_credentials : OAuthCredentials -> string;
  JSON_parse_anthropic : string -> Res (option OAuthCredentials)
}.

(** [workingDir] and the environment variables main.ts reads. *)
Record Config : Type := {
  workingDir : string;
  MOM_SLACK_API_URL : option string;
  ANTHROPIC_API_KEY : option string;
  ANTHROPIC_OAUTH_TOKEN : option string
}.

Record World : Type := {
  outside : Outside;
  cfg : Config;
  journal : list Effect;
  channelStates : gmap string ChannelState;
  pendingAuths : gmap string PendingAuth;
  pendingLogins : gmap string PendingLogin;
  promises : gmap nat Promise;
  timers : gmap nat Timer;
  next_id : nat;
  fs : gmap string Entry;
  (* how many times the clock has been read *)
  clock_reads : nat
}.

Definition M (A : Type) : Type := ST World A.

Definition set_journal (j : list Effect) (w : World) : World :=
  {| outside := outside w; cfg := cfg w; journal := j;
     channelStates := channelStates w; pendingAuths := pendingAuths w;
     pendingLogins := pendingLogins w; promises := promises w;
     timers := timers w; next_id := next_id w; fs := fs w;
     clock_reads := clock_reads w |}.

Definition set_channelStates (m : gmap string ChannelState) (w : World) : World :=
  {| outside := outside w; cfg := cfg w; journal := journal w;
     channelStates := m; pendingAuths := pendingAuths w;
     pendingLogins := pendingLogins w; promises := promises w;
     timers := timers w; next_id := next_id w; fs := fs w;
     clock_reads := clock_reads w |}.

Definition set_pendingAuths (m : gmap string PendingAuth) (w : World) : World :=
  {| outside := outside w; cfg := cfg w; journal := journal w;
     channelStates := channelStates w; pendingAuths := m;
     pendingLogins := pendingLogins w; promises := promises w;
     timers := timers w; next_id := next_id w; fs := fs w;
     clock_reads := clock_reads w |}.

Definition set_pendingLogins (m : gmap string PendingLogin) (w : World) : World :=
  {| outside := outside w; cfg := cfg w; journal := journal w;
     channelStates := channelStates w; pendingAuths := pendingAuths w;
     pendingLogins := m; promises := promises w;
     timers := timers w; next_id := next_id w; fs := fs w;
     clock_reads := clock_reads w |}.

Definition set_promises (m : gmap nat Promise) (w : World) : World :=
  {| outside := outside w; cfg := cfg w; journal := journal w;
     channelStates := channelStates w; pendingAuths := pendingAuths w;
     pendingLogins := pendingLogins w; promises := m;
     timers := timers w; next_id := next_id w; fs := fs w;
     clock_reads := clock_reads w |}.

Definition set_timers (m : gmap nat Timer) (w : World) : World :=
  {| outside := outside w; cfg := cfg w; journal := journal w;
     channelStates := channelStates w; pendingAuths := pendingAuths w;
     pendingLogins := pendingLogins w; promises := promises w;
     timers := m; next_id := next_id w; fs := fs w;
     clock_reads := clock_reads w |}.

Definition set_next_id (n : nat) (w : World) : World :=
  {| outside := outside w; cfg := cfg w; journal := journal w;
     channelStates := channelStates w; pendingAuths := pendingAuths w;
     pendingLogins := pendingLogins w; promises := promises w;
     timers := timers w; next_id := n; fs := fs w;
     clock_reads := clock_reads w |}.

Definition set_fs (f : gmap string Entry) (w : World) : World :=
  {| outside := outside w; cfg := cfg w; journal := journal w;
     channelStates := channelStates w; pendingAuths := pendingAuths w;
     pendingLogins := pendingLogins w; promises := promises w;
     timers := timers w; next_id := next_id w; fs := f;
     clock_reads := clock_reads w |}.

Definition set_clock_reads (n : nat) (w : World) : World :=
  {| outside := outside w; cfg := cfg w; journal := journal w;
     channelStates := channelStates w; pendingAuths := pendingAuths w;
     pendingLogins := pendingLogins w; promises := promises w;
     timers := timers w; next_id := next_id w; fs := fs w;
     clock_reads := n |}.

(** Record a request, then hand the grown journal to an oracle. *)
Definition emit (e : Effect) : M unit :=
  modify (fun w => set_journal (journal w ++ [e]) w).

Definition ask {A} (oracle : Outside -> list Effect -> A) : M A :=
  gets (fun w => oracle (outside w) (journal w)).

Definition settle {S A} (r : Res A) : ST S A :=
  match r with
  | Ret a => ret a
  | Throw e => throw e
  end.

(** The world once the clock has been read. *)
Definition clock_read (w : World) : World := set_clock_reads (S (clock_reads w)) w.

(** [Date.now()]: every call reads the clock anew, and two calls need
    not agree even when nothing is requested between them. *)
Definition Date_now : M Z :=
  do now <- gets (fun w => date_now (outside w) (journal w) (clock_reads w));
  modify clock_read;;
  ret now.

(* ====================================================================== *)
(** ** Platform: paths, files, encodings *)
(* ====================================================================== *)

Module Node.

Definition endsWithSlash (s : string) : bool :=
  match Js.reverse s with
  | String c _ => Ascii.eqb c "/"
  | EmptyString => false
  end.

(** [path.join(a, b)] for a normalized [a] and a plain name [b]. *)
Definition join (a b : string) : string :=
  if String.eqb a "" then b
  else if endsWithSlash a then a ++ b
  else a ++ "/" ++ b.

(** The proper ancestors of a path, outermost first. *)
Fixpoint parents_from (seen rest : string) : list string :=
  match rest with
  | EmptyString => []
  | String c t =>
      (if (Ascii.eqb c "/" && negb (String.eqb seen ""))%bool
       then [Js.reverse seen] else [])
      ++ parents_from (String c seen) t
  end.

Definition existsSync (p : string) : M bool :=
  gets (fun w => bool_decide (is_Some (fs w !! p))).

Definition mkdir_missing (md : N) (tree : gmap string Entry) (p : string) : gmap string Entry :=
  match tree !! p with
  | Some _ => tree
  | None => <[p := DirEntry md]> tree
  end.

(** [mkdirSync(p, { recursive: true, mode })]. *)
Definition mkdirSync_recursive (p : string) (md : N) : M unit :=
  modify (fun w =>
    set_fs (fold_left (mkdir_missing md) (parents_from EmptyString p ++ [p]) (fs w)) w).

Definition readFileSync (p : string) : M string :=
  do w <- get;
  match fs w !! p with
  | Some (FileEntry content _) => ret content
  | Some (DirEntry _) => throw (Js.newError "EISDIR: illegal operation on a directory, read")
  | None => throw (Js.newError "ENOENT: no such file or directory")
  end.

(** [writeFileSync(p, data, "utf-8")]: a new file gets the default mode,
    an existing one keeps its mode. *)
Definition writeFileSync (p data : string) : M unit :=
  do w <- get;
  match fs w !! p with
  | Some (DirEntry _) => throw (Js.newError "EISDIR: illegal operation on a directory, open")
  | Some (FileEntry _ md) => modify (fun w => set_fs (<[p := FileEntry data md]> (fs w)) w)
  | None => modify (fun w => set_fs (<[p := FileEntry data 438]> (fs w)) w)
  end.

Definition chmodSync (p : string) (md : N) : M unit :=
  do w <- get;
  match fs w !! p with
  | Some (FileEntry content _) =>
      modify (fun w => set_fs (<[p := FileEntry content md]> (fs w)) w)
  | Some (DirEntry _) => modify (fun w => set_fs (<[p := DirEntry md]> (fs w)) w)
  | None => throw (Js.newError "ENOENT: no such file or directory, chmod")
  end.

(** [crypto.randomBytes(n)]. *)
Definition randomBytes (n : nat) : M string :=
  emit (RandomBytes n);;
  ask entropy.

Definition b64url_alphabet : string :=
  "ABCDEFGHIJKLMNOPQRSTUVWXYZabcdefghijklmnopqrstuvwxyz0123456789-_".

Definition b64url_digit (n : N) : ascii :=
  match String.get (N.to_nat (n mod 64)) b64url_alphabet with
  | Some c => c
  | None => "A"%char
  end.

(** [Buffer.toString("base64url")]: no padding. *)
Fixpoint base64url (bytes : string) : string :=
  match bytes with
  | String a (String b (String c t)) =>
      let n := (N_of_ascii a * 65536 + N_of_ascii b * 256 + N_of_ascii c)%N in
      String (b64url_digit (n / 262144))
        (String (b64url_digit (n / 4096))
          (String (b64url_digit (n / 64))
            (String (b64url_digit n) (base64url t))))
  | String a (String b EmptyString) =>
      let n := ((N_of_ascii a * 256 + N_of_ascii b) * 4)%N in
      String (b64url_digit (n / 4096))
        (String (b64url_digit (n / 64))
          (String (b64url_digit n) EmptyString))
  | String a EmptyString =>
      let n := (N_of_ascii a * 16)%N in
      String (b64url_digit (n / 64)) (String (b64url_digit n) EmptyString)
  | EmptyString => EmptyString
  end.

(** Bytes that the [application/x-www-form-urlencoded] serializer of
    [URLSearchParams] leaves as they are. *)
Definition form_safe (c : ascii) : bool :=
  let n := N_of_ascii c in
  ((48 <=? n) && (n <=? 57) || (65 <=? n) && (n <=? 90)
   || (97 <=? n) && (n <=? 122)
   || (n =? 42) || (n =? 45) || (n =? 46) || (n =? 95))%N.

Definition hex_digit (n : N) : ascii :=
  match String.get (N.to_nat (n mod 16)) "0123456789ABCDEF" with
  | Some c => c
  | None => "0"%char
  end.

Fixpoint form_encode (s : string) : string :=
  match s with
  | EmptyString => EmptyString
  | String c t =>
      if form_safe c then String c (form_encode t)
      else if Ascii.eqb c " " then String "+" (form_encode t)
      else String "%" (String (hex_digit (N_of_ascii c / 16))
                        (String (hex_digit (N_of_ascii c)) (form_encode t)))
  end.

(** [new URLSearchParams(obj).toString()]. *)
Fixpoint URLSearchParams_toString (ps : list (string * string)) : string :=
  match ps with
  | [] => EmptyString
  | [(k, v)] => form_encode k ++ "=" ++ form_encode v
  | (k, v) :: rest =>
      form_encode k ++ "=" ++ form_encode v ++ "&" ++ URLSearchParams_toString rest
  end.

End Node.

(* ====================================================================== *)
(** ** oauth.ts *)
(* ====================================================================== *)

Module OAuth.

Definition CLIENT_ID : string := "9d1c250a-e61b-44d9-88ed-5944d1962f5e".
Definition AUTHORIZE_URL : string := "https://claude.ai/oauth/authorize".
Definition TOKEN_URL : string := "https://console.anthropic.com/v1/oauth/token".
Definition REDIRECT_URI : string := "https://console.anthropic.com/oauth/code/callback".
Definition SCOPES : string := "org:create_api_key user:profile user:inference".

Definition AUTH_TIMEOUT_MS : Z := 10 * 60 * 1000.

(** [now - pending.createdAt > AUTH_TIMEOUT_MS] *)
Definition expired (now : Z) (p : PendingAuth) : bool :=
  (AUTH_TIMEOUT_MS <? now - createdAt p)%Z.

Definition getOAuthPath (workingDir : string) : M string :=
  let momDir := Node.join workingDir ".mom" in
  do there <- Node.existsSync momDir;
  when (negb there) (Node.mkdirSync_recursive momDir 448%N);;
  ret (Node.join momDir "oauth.json").

Definition loadCredentials (workingDir : string) : M (option OAuthCredentials) :=
  do filePath <- getOAuthPath workingDir;
  do there <- Node.existsSync filePath;
  if negb there then ret None
  else
    try_catch
      (do content <- Node.readFileSync filePath;
       do parse <- gets (fun w => JSON_parse_anthropic (outside w) content);
       settle parse)
      (fun error =>
         emit (ConsoleError ("Failed to load OAuth credentials: " ++ Js.show error));;
         ret None).

Definition saveCredentials (workingDir : string) (credentials : OAuthCredentials) : M unit :=
  do filePath <- getOAuthPath workingDir;
  do data <- gets (fun w => JSON_stringify_credentials (outside w) credentials);
  Node.writeFileSync filePath data;;
  Node.chmodSync filePath 384%N.

Definition removeCredentials (workingDir : string) : M unit :=
  do filePath <- getOAuthPath workingDir;
  do there <- Node.existsSync filePath;
  when there (Node.writeFileSync filePath "{}").

Definition generatePKCE : M (string * string) :=
  do bytes <- Node.randomBytes 32;
  let verifier := Node.base64url bytes in
  do digest <- gets (fun w => sha256 (outside w) verifier);
  ret (verifier, Node.base64url digest).

(** The object handed to [URLSearchParams], in key order. *)
Definition authParams (verifier challenge : string) : list (string * string) :=
  [ ("code", "true");
    ("client_id", CLIENT_ID);
    ("response_type", "code");
    ("redirect_uri", REDIRECT_URI);
    ("scope", SCOPES);
    ("code_challenge", challenge);
    ("code_challenge_method", "S256");
    ("state", verifier) ].

Definition startLogin (channelId : string) : M string :=
  do now <- Date_now;
  modify (fun w =>
    set_pendingAuths
      (filter (fun kv => expired now kv.2 = false) (pendingAuths w)) w);;
  do pk <- generatePKCE;
  modify (fun w =>
    set_pendingAuths
      (<[channelId := {| verifier := fst pk; challenge := snd pk; createdAt := now |}]>
         (pendingAuths w)) w);;
  ret (AUTHORIZE_URL ++ "?" ++ Node.URLSearchParams_toString (authParams (fst pk) (snd pk))).

Definition forget (channelId : string) : M unit :=
  modify (fun w => set_pendingAuths (delete channelId (pendingAuths w)) w).

Definition hasPendingAuth (channelId : string) : M bool :=
  do pending <- gets (fun w => pendingAuths w !! channelId);
  match pending with
  | None => ret false
  | Some pending =>
      do now <- Date_now;
      if expired now pending then forget channelId;; ret false
      else ret true
  end.

(** [Date.now() + tokenData.expires_in * 1000 - 5 * 60 * 1000] *)
Definition expiresAt (now expires_in : Z) : Z :=
  Js.minus (Js.plus now (Js.times expires_in 1000)) (Js.times (Js.times 5 60) 1000).

(** The [{ success, error? }] value of [completeLogin]. *)
Record LoginResult : Type := {
  success : bool;
  error : option string
}.

Definition failure (msg : string) : LoginResult :=
  {| success := false; error := Some msg |}.

(** [fetch(TOKEN_URL, { method: "POST", body: JSON.stringify({...}) })] *)
Definition fetchToken (req : TokenRequest) : M HttpResponse :=
  emit (FetchToken req);;
  do answer <- ask token_endpoint;
  settle answer.

(** Lines 376-394: the pasted text is [code#state]; the body of the
    token request. *)
Definition tokenRequest (authCode : string) (pending : PendingAuth) : TokenRequest :=
  let splits := Js.split "#" (Js.trim authCode) in
  {| tr_code := nth 0 splits EmptyString;
     tr_state := splits !! 1%nat;
     tr_code_verifier := verifier pending |}.

(** Lines 397-423: what [completeLogin] does with the endpoint's answer. *)
Definition useTokenResponse (channelId workingDir : string) (tokenResponse : HttpResponse)
  : M LoginResult :=
  if negb (ok tokenResponse) then
    do error <- settle (body_text tokenResponse);
    forget channelId;;
    ret (failure ("Token exchange failed: " ++ error))
  else
    do tokenData <- settle (body_json tokenResponse);
    do now' <- Date_now;
    let expiresAt := expiresAt now' (expires_in tokenData) in
    saveCredentials workingDir
      {| refresh := refresh_token tokenData;
         access := access_token tokenData;
         expires := expiresAt |};;
    forget channelId;;
    ret {| success := true; error := None |}.

(** Lines 424-427: the [catch] clause of [completeLogin]. *)
Definition loginFailed (channelId : string) (error : Js.Err) : M LoginResult :=
  forget channelId;;
  ret (failure ("Login failed: " ++ Js.show error)).

Definition completeLogin (channelId authCode workingDir : string) : M LoginResult :=
  do pending <- gets (fun w => pendingAuths w !! channelId);
  match pending with
  | None => ret (failure "No pending login. Use /login to start.")
  | Some pending =>
      do now <- Date_now;
      if expired now pending then
        forget channelId;;
        ret (failure "Login expired. Use /login to start again.")
      else
        try_catch
          (do tokenResponse <- fetchToken (tokenRequest authCode pending);
           useTokenResponse channelId workingDir tokenResponse)
          (loginFailed channelId)
  end.

Definition cancelLogin (channelId : string) : M unit := forget channelId.

Definition isLoggedIn (workingDir : string) : M bool :=
  do credentials <- loadCredentials workingDir;
  ret (bool_decide (is_Some credentials)).

(** Body of the token request of [refreshToken]: the grant type and the
    client id are constants. *)
Record RefreshRequest : Type := {
  rr_refresh_token : string
}.

Section Refresh.

(** [fetch(TOKEN_URL, { method: "POST", body })] as [refreshToken] calls
    it: it answers or throws, and whatever else it does to the world is
    its own. *)
Variable fetch : RefreshRequest -> M HttpResponse.

Definition refreshToken (workingDir : string) : M (option string) :=
  do credentials <- loadCredentials workingDir;
  match credentials with
  | None => ret None
  | Some credentials =>
      try_catch
        (do tokenResponse <- fetch {| rr_refresh_token := refresh credentials |};
         if negb (ok tokenResponse) then
           do error <- settle (body_text tokenResponse);
           emit (ConsoleError ("Token refresh failed: " ++ error));;
           ret None
         else
           do tokenData <- settle (body_json tokenResponse);
           do now <- Date_now;
           let expiresAt := expiresAt now (expires_in tokenData) in
           let newCredentials :=
             {| refresh := refresh_token tokenData;
                access := access_token tokenData;
                expires := expiresAt |} in
           saveCredentials workingDir newCredentials;;
           ret (Some (access newCredentials)))
        (fun error =>
           emit (ConsoleError ("Token refresh error: " ++ Js.show error));;
           ret None)
  end.

Definition getOAuthToken (workingDir : string) : M (option string) :=
  do credentials <- loadCredentials workingDir;
  match credentials with
  | None => ret None
  | Some credentials =>
      do now <- Date_now;
      if (expires credentials <=? now)%Z then refreshToken workingDir
      else ret (Some (access credentials))
  end.

End Refresh.

End OAuth.

(* ====================================================================== *)
(** ** The chat platform and the logger, as called *)
(* ====================================================================== *)

Module Slack.

Definition call (e : Effect) : M string :=
  emit e;;
  do answer <- ask slack_api;
  settle answer.

Definition postMessage (channel text : string) : M string :=
  call (SlackPostMessage channel text).

Definition postInThread (channel thread_ts text : string) : M string :=
  call (SlackPostInThread channel thread_ts text).

Definition updateMessage (channel ts text : string) : M unit :=
  call (SlackUpdateMessage channel ts text);; ret tt.

Definition deleteMessage (channel ts : string) : M unit :=
  call (SlackDeleteMessage channel ts);; ret tt.

Definition uploadFile (channel path : string) (title thread_ts : option string) : M unit :=
  call (SlackUploadFile channel path title thread_ts);; ret tt.

Definition logBotResponse (channel text ts : string) : M unit :=
  emit (SlackLogBotResponse channel text ts).

End Slack.

Module Log.

Definition logInfo (msg : string) : M unit := emit (LogInfo msg).

Definition logWarning (msg detail : string) : M unit := emit (LogWarning msg detail).

End Log.

Definition login_instructions (url : string) : string :=
  "*Login to Anthropic*" ++ Js.nl ++ Js.nl ++
  "1. Open this URL:" ++ Js.nl ++ url ++ Js.nl ++ Js.nl ++
  "2. Sign in and authorize" ++ Js.nl ++ Js.nl ++
  "3. Copy the code and paste it here" ++ Js.nl ++ Js.nl ++
  "_The code looks like: abc123...#xyz789..._".

Definition login_succeeded : string :=
  "✓ Successfully logged in to Anthropic!" ++ Js.nl ++ Js.nl ++
  "You can now use Claude without an API key.".

Definition auth_status (loggedIn hasEnvKey : bool) : string :=
  if loggedIn then "✓ Logged in via OAuth"
  else if hasEnvKey then "Using API key from environment"
  else "✗ Not authenticated. Use /login to authenticate.".

(** [!!(process.env.ANTHROPIC_OAUTH_TOKEN || process.env.ANTHROPIC_API_KEY)] *)
Definition hasEnvKey (c : Config) : bool :=
  bool_decide (is_Some (Js.truthy (ANTHROPIC_OAUTH_TOKEN c)))
  || bool_decide (is_Some (Js.truthy (ANTHROPIC_API_KEY c))).

(* ====================================================================== *)
(** ** auth.ts and commands.ts: the login that waits on a promise *)
(* ====================================================================== *)

Module Auth.

(** [reject(e)] / [resolve(v)] settle a promise once. *)
Definition settle_promise (p : nat) (v : Promise) : M unit :=
  modify (fun w =>
    match promises w !! p with
    | Some Waiting => set_promises (<[p := v]> (promises w)) w
    | _ => w
    end).

Definition clearTimeout (t : nat) : M unit :=
  modify (fun w => set_timers (delete t (timers w)) w).

Definition forget (channelId : string) : M unit :=
  modify (fun w => set_pendingLogins (delete channelId (pendingLogins w)) w).

(** Lines 106-111 of [handleLogin]. *)
Definition cancelExisting (channelId : string) : M unit :=
  do existing <- gets (fun w => pendingLogins w !! channelId);
  match existing with
  | Some existing =>
      clearTimeout (timeout existing);;
      settle_promise (waiter existing)
        (Rejected (Js.newError "Login cancelled - new login started"));;
      forget channelId
  | None => ret tt
  end.

(** The [onAuth] callback: the post is not awaited. *)
Definition onAuth (channelId url : string) : M unit :=
  attempt (Slack.postMessage channelId (login_instructions url)).

(** The [onPrompt] callback: a new promise, its timeout, and the entry. *)
Definition onPrompt (channelId : string) : M nat :=
  do w <- get;
  let p := next_id w in
  let t := S (next_id w) in
  modify (set_next_id (S (S (next_id w))));;
  modify (fun w => set_promises (<[p := Waiting]> (promises w)) w);;
  modify (fun w => set_timers (<[t := {| tm_channel := channelId; tm_promise := p |}]> (timers w)) w);;
  modify (fun w =>
    set_pendingLogins (<[channelId := {| waiter := p; timeout := t |}]> (pendingLogins w)) w);;
  ret p.

(** The callback of that timeout, when the timer [t] fires. *)
Definition onTimeout (t : nat) : M unit :=
  do timer <- gets (fun w => timers w !! t);
  match timer with
  | Some timer =>
      clearTimeout t;;
      forget (tm_channel timer);;
      settle_promise (tm_promise timer)
        (Rejected (Js.newError "Login timed out after 10 minutes"))
  | None => ret tt
  end.

(** Modelled from the spec: [AuthStorage.login] of the coding-agent
    package, which these sources only call.  It starts a flow, hands the
    authorization URL to [onAuth], and waits for the pasted code on the
    promise that [onPrompt] returns. *)
Definition authStorage_login (onAuth : string -> M unit) (onPrompt : M nat) : M nat :=
  emit (AuthStorageLogin "anthropic");;
  do url <- ask auth_url;
  onAuth url;;
  onPrompt.

(** [handleLogin] up to the point where it waits for the pasted code;
    the result is the promise it waits on. *)
Definition handleLogin (channelId : string) : M nat :=
  cancelExisting channelId;;
  Log.logInfo ("[" ++ channelId ++ "] Starting OAuth login");;
  authStorage_login (onAuth channelId) (onPrompt channelId).

(** [handleLogin] from the point where [authStorage.login] has settled
    with [r]. *)
Definition handleLogin_settled (channelId : string) (r : Res unit) : M unit :=
  match r with
  | Ret _ =>
      Log.logInfo ("[" ++ channelId ++ "] OAuth login successful");;
      Slack.postMessage channelId login_succeeded;;
      ret tt
  | Throw err =>
      let message := Js.message_of err in
      when (negb (Js.includes message "cancelled"))
        (Log.logWarning ("[" ++ channelId ++ "] OAuth login failed") message;;
         Slack.postMessage channelId ("✗ Login failed: " ++ message);;
         ret tt)
  end.

Definition handleLogout (channelId : string) : M unit :=
  emit (AuthStorageLogout "anthropic");;
  Log.logInfo ("[" ++ channelId ++ "] Logged out of Anthropic");;
  Slack.postMessage channelId "✓ Logged out of Anthropic";;
  ret tt.

Definition handleAuthStatus (channelId : string) : M unit :=
  emit (AuthStorageHas "anthropic");;
  do hasOAuth <- ask auth_has;
  do c <- gets cfg;
  Slack.postMessage channelId (auth_status hasOAuth (hasEnvKey c));;
  ret tt.

Definition tryCompleteLogin (channelId text : string) : M bool :=
  do pending <- gets (fun w => pendingLogins w !! channelId);
  match pending with
  | None => ret false
  | Some pending =>
      if Js.includes text "#" && negb (Js.startsWith text "/") then
        clearTimeout (timeout pending);;
        forget channelId;;
        settle_promise (waiter pending) (Resolved (Js.trim text));;
        ret true
      else ret false
  end.

Definition hasPendingLogin (channelId : string) : M bool :=
  gets (fun w => bool_decide (is_Some (pendingLogins w !! channelId))).

End Auth.

Module Commands.

(** [tryHandleCommand]; the result is the [handled] field. *)
Definition tryHandleCommand (channelId rawText : string) : M bool :=
  let text := Js.trim rawText in
  if String.eqb text "/login" || String.eqb text "/login anthropic" then
    attempt (Auth.handleLogin channelId);;
    ret true
  else if String.eqb text "/logout" || String.eqb text "/logout anthropic" then
    Auth.handleLogout channelId;;
    ret true
  else if String.eqb text "/auth-status" || String.eqb text "/auth" then
    Auth.handleAuthStatus channelId;;
    ret true
  else
    do completed <- Auth.tryCompleteLogin channelId text;
    if completed then ret true
    else ret false.

End Commands.

(* ====================================================================== *)
(** ** main.ts: the context adapter of a run ([createSlackContext]) *)
(* ====================================================================== *)

(** The variables the closures of [createSlackContext] share.
    [updatePromise] is the promise chain by its settled state: fulfilled,
    or rejected with the error of the task that failed. *)
Record SlackContext : Type := {
  messageTs : option string;
  threadMessageTs : list string;
  accumulatedText : string;
  isWorking : bool;
  updatePromise : Res unit
}.

Definition MA (A : Type) : Type := ST (SlackContext * World) A.

Module Ctx.

Definition workingIndicator : string := " ...".

Definition fresh : SlackContext :=
  {| messageTs := None; threadMessageTs := []; accumulatedText := "";
     isWorking := true; updatePromise := Ret tt |}.

Definition liftW {A} (m : M A) : MA A :=
  fun s => let (r, w') := m (snd s) in (r, (fst s, w')).

Definition getc : MA SlackContext := gets fst.

Definition modc (f : SlackContext -> SlackContext) : MA unit :=
  modify (fun s => (f (fst s), snd s)).

Definition set_messageTs (v : option string) (c : SlackContext) : SlackContext :=
  {| messageTs := v; threadMessageTs := threadMessageTs c;
     accumulatedText := accumulatedText c; isWorking := isWorking c;
     updatePromise := updatePromise c |}.

Definition set_threadMessageTs (v : list string) (c : SlackContext) : SlackContext :=
  {| messageTs := messageTs c; threadMessageTs := v;
     accumulatedText := accumulatedText c; isWorking := isWorking c;
     updatePromise := updatePromise c |}.

Definition set_accumulatedText (v : string) (c : SlackContext) : SlackContext :=
  {| messageTs := messageTs c; threadMessageTs := threadMessageTs c;
     accumulatedText := v; isWorking := isWorking c;
     updatePromise := updatePromise c |}.

Definition set_isWorking (v : bool) (c : SlackContext) : SlackContext :=
  {| messageTs := messageTs c; threadMessageTs := threadMessageTs c;
     accumulatedText := accumulatedText c; isWorking := v;
     updatePromise := updatePromise c |}.

Definition set_updatePromise (v : Res unit) (c : SlackContext) : SlackContext :=
  {| messageTs := messageTs c; threadMessageTs := threadMessageTs c;
     accumulatedText := accumulatedText c; isWorking := isWorking c;
     updatePromise := v |}.

(** [updatePromise = updatePromise.then(task); await updatePromise].
    [then] runs [task] only on a fulfilled chain; on a rejected chain the
    new promise is rejected with the same error and the [await] throws
    it.  A task that throws leaves the chain rejected. *)
Definition enqueue (task : MA unit) : MA unit :=
  fun s =>
    match updatePromise (fst s) with
    | Throw e => (Throw e, s)
    | Ret _ =>
        match task s with
        | (Ret _, s') => (Ret tt, s')
        | (Throw e, s') => (Throw e, (set_updatePromise (Throw e) (fst s'), snd s'))
        end
    end.

Definition displayText (c : SlackContext) : string :=
  if isWorking c then accumulatedText c ++ workingIndicator else accumulatedText c.

(** Edit the primary message, or post it (in the thread of the
    triggering message when there is one). *)
Definition show_primary (event : SlackEvent) (text : string) : MA unit :=
  do c <- getc;
  match Js.truthy (messageTs c) with
  | Some ts => liftW (Slack.updateMessage (ev_channel event) ts text)
  | None =>
      match Js.truthy (ev_thread_ts event) with
      | Some thread_ts =>
          do ts <- liftW (Slack.postInThread (ev_channel event) thread_ts text);
          modc (set_messageTs (Some ts))
      | None =>
          do ts <- liftW (Slack.postMessage (ev_channel event) text);
          modc (set_messageTs (Some ts))
      end
  end.

Definition respond (event : SlackEvent) (text : string) (shouldLog : bool) : MA unit :=
  enqueue
    (do c <- getc;
     modc (set_accumulatedText
             (if String.eqb (accumulatedText c) "" then text
              else accumulatedText c ++ Js.nl ++ text));;
     do c <- getc;
     show_primary event (displayText c);;
     do c <- getc;
     match shouldLog, Js.truthy (messageTs c) with
     | true, Some ts => liftW (Slack.logBotResponse (ev_channel event) text ts)
     | _, _ => ret tt
     end).

Definition replaceMessage (event : SlackEvent) (text : string) : MA unit :=
  enqueue
    (modc (set_accumulatedText text);;
     do c <- getc;
     show_primary event (displayText c)).

Definition respondInThread (event : SlackEvent) (text : string) : MA unit :=
  enqueue
    (do c <- getc;
     match Js.truthy (messageTs c) with
     | Some mts =>
         do ts <- liftW (Slack.postInThread (ev_channel event) mts text);
         modc (fun c => set_threadMessageTs (threadMessageTs c ++ [ts]) c)
     | None => ret tt
     end).

(** [event.text.match(/^\[EVENT:([^:]+):/)?.[1]] *)
Fixpoint upto_colon (s : string) : option string :=
  match s with
  | EmptyString => None
  | String c t =>
      if Ascii.eqb c ":" then Some EmptyString
      else match upto_colon t with
           | Some r => Some (String c r)
           | None => None
           end
  end.

Definition eventFilename (isEvent : bool) (event : SlackEvent) : option string :=
  if isEvent then
    if Js.startsWith (ev_text event) "[EVENT:" then
      match upto_colon (String.substring 7 (String.length (ev_text event)) (ev_text event)) with
      | Some name => if String.eqb name "" then None else Some name
      | None => None
      end
    else None
  else None.

Definition setTyping (event : SlackEvent) (isEvent : bool) (isTyping : bool) : MA unit :=
  do c <- getc;
  if isTyping && negb (bool_decide (is_Some (Js.truthy (messageTs c)))) then
    enqueue
      (do c <- getc;
       match Js.truthy (messageTs c) with
       | Some _ => ret tt
       | None =>
           let text := match Js.truthy (eventFilename isEvent event) with
                       | Some name => "_Starting event: " ++ name ++ "_"
                       | None => "_Thinking_"
                       end in
           modc (set_accumulatedText text);;
           match Js.truthy (ev_thread_ts event) with
           | Some thread_ts =>
               do ts <- liftW (Slack.postInThread (ev_channel event) thread_ts
                                 (text ++ workingIndicator));
               modc (set_messageTs (Some ts))
           | None =>
               do ts <- liftW (Slack.postMessage (ev_channel event)
                                 (text ++ workingIndicator));
               modc (set_messageTs (Some ts))
           end
       end)
  else ret tt.

Definition uploadFile (event : SlackEvent) (path : string) (title : option string) : MA unit :=
  liftW (Slack.uploadFile (ev_channel event) path title (ev_thread_ts event)).

Definition setWorking (event : SlackEvent) (working : bool) : MA unit :=
  enqueue
    (modc (set_isWorking working);;
     do c <- getc;
     match Js.truthy (messageTs c) with
     | Some ts => liftW (Slack.updateMessage (ev_channel event) ts (displayText c))
     | None => ret tt
     end).

(** The loop of [deleteMessage] runs [i] from the last index down; here
    over the tracked handles latest first. *)
Fixpoint delete_each (channel : string) (latest_first : list string) : MA unit :=
  match latest_first with
  | [] => ret tt
  | ts :: older =>
      try_catch (liftW (Slack.deleteMessage channel ts)) (fun _ => ret tt);;
      delete_each channel older
  end.

Definition deleteMessage (event : SlackEvent) : MA unit :=
  enqueue
    (do c <- getc;
     delete_each (ev_channel event) (rev (threadMessageTs c));;
     modc (set_threadMessageTs []);;
     do c <- getc;
     match Js.truthy (messageTs c) with
     | Some ts =>
         liftW (Slack.deleteMessage (ev_channel event) ts);;
         modc (set_messageTs None)
     | None => ret tt
     end).

End Ctx.

(* ====================================================================== *)
(** ** main.ts: channel state and the handler *)
(* ====================================================================== *)

Module Handler.

Definition idle : ChannelState :=
  {| running := false; stopRequested := false; stopMessageTs := None |}.

Definition getState (channelId : string) : M ChannelState :=
  do state <- gets (fun w => channelStates w !! channelId);
  match state with
  | Some state => ret state
  | None =>
      modify (fun w => set_channelStates (<[channelId := idle]> (channelStates w)) w);;
      ret idle
  end.

(** A field read or write through the [state] reference that
    [handleEvent] and [handleStop] hold: the record stays in the map. *)
Definition read (channelId : string) : M ChannelState :=
  gets (fun w => default idle (channelStates w !! channelId)).

Definition write (channelId : string) (f : ChannelState -> ChannelState) : M unit :=
  modify (fun w => set_channelStates (alter f channelId (channelStates w)) w).

Definition set_running (b : bool) (s : ChannelState) : ChannelState :=
  {| running := b; stopRequested := stopRequested s; stopMessageTs := stopMessageTs s |}.

Definition set_stopRequested (b : bool) (s : ChannelState) : ChannelState :=
  {| running := running s; stopRequested := b; stopMessageTs := stopMessageTs s |}.

Definition set_stopMessageTs (v : option string) (s : ChannelState) : ChannelState :=
  {| running := running s; stopRequested := stopRequested s; stopMessageTs := v |}.

Definition isRunning (channelId : string) : M bool :=
  do state <- gets (fun w => channelStates w !! channelId);
  ret (match state with Some state => running state | None => false end).

Definition handleStop (channelId : string) : M unit :=
  do state <- gets (fun w => channelStates w !! channelId);
  if match state with Some state => running state | None => false end then
    write channelId (set_stopRequested true);;
    emit (RunnerAbort channelId);;
    do ts <- Slack.postMessage channelId "_Stopping..._";
    write channelId (set_stopMessageTs (Some ts))
  else
    Slack.postMessage channelId "_Nothing running_";;
    ret tt.

(** [syncLogToContext] of context.ts, as called. *)
Definition syncLogToContext (channelDir ts : string) : M nat :=
  emit (SyncLogToContext channelDir ts);;
  do answer <- ask log_sync;
  settle answer.

(** One step of what goes on while [runner.run] is awaited.  What a call
    on the adapter returned or threw went to the runner; a stop request
    goes through [handleStop], whose own failure goes to the transport. *)
Definition play (event : SlackEvent) (isEvent : bool) (a : RunAction) : MA unit :=
  match a with
  | ActRespond text shouldLog => attempt (Ctx.respond event text shouldLog)
  | ActReplaceMessage text => attempt (Ctx.replaceMessage event text)
  | ActRespondInThread text => attempt (Ctx.respondInThread event text)
  | ActSetTyping isTyping => attempt (Ctx.setTyping event isEvent isTyping)
  | ActSetWorking working => attempt (Ctx.setWorking event working)
  | ActUploadFile path title => attempt (Ctx.uploadFile event path title)
  | ActDeleteMessage => attempt (Ctx.deleteMessage event)
  | ActStop => Ctx.liftW (attempt (handleStop (ev_channel event)))
  end.

Fixpoint play_all (event : SlackEvent) (isEvent : bool) (l : list RunAction) : MA unit :=
  match l with
  | [] => ret tt
  | a :: rest => play event isEvent a;; play_all event isEvent rest
  end.

(** [await state.runner.run(ctx, state.store)] *)
Definition runner_run (event : SlackEvent) (isEvent : bool) : MA RunResult :=
  Ctx.liftW (emit (RunnerRun (ev_channel event)));;
  do script <- Ctx.liftW (ask agent);
  play_all event isEvent (actions script);;
  settle (outcome script).

(** [adapterUrl.replace(/\/api\/?$/, "")] *)
Definition baseUrl (adapterUrl : string) : string :=
  let r := Js.reverse adapterUrl in
  if String.prefix "/ipa/" r then Js.reverse (String.substring 5 (String.length r) r)
  else if String.prefix "ipa/" r then Js.reverse (String.substring 4 (String.length r) r)
  else adapterUrl.

(** The completion signal to the protocol adapter; its failure is
    dropped by [.catch(() => {})]. *)
Definition signalDone (channel : string) : M unit :=
  do c <- gets cfg;
  match Js.truthy (MOM_SLACK_API_URL c) with
  | Some adapterUrl => emit (FetchDone (baseUrl adapterUrl) channel)
  | None => ret tt
  end.

(** Lines 379-386: the terminal message of a stopped run. *)
Definition reconcileStop (event : SlackEvent) (result : RunResult) : M unit :=
  do state <- read (ev_channel event);
  if String.eqb (stopReason result) "aborted" && stopRequested state then
    match Js.truthy (stopMessageTs state) with
    | Some ts =>
        Slack.updateMessage (ev_channel event) ts "_Stopped_";;
        write (ev_channel event) (set_stopMessageTs None)
    | None =>
        Slack.postMessage (ev_channel event) "_Stopped_";;
        ret tt
    end
  else ret tt.

Definition with_ctx {A} (c : SlackContext) (m : MA A) : M A :=
  fun w => let (r, s) := m (c, w) in (r, snd s).

(** The adapter part of the [try] block up to and including
    [await ctx.setWorking(false)]. *)
Definition run_agent (event : SlackEvent) (isEvent : bool) : MA RunResult :=
  Ctx.setTyping event isEvent true;;
  Ctx.setWorking event true;;
  do result <- runner_run event isEvent;
  Ctx.setWorking event false;;
  ret result.

(** Lines 354-365: with the log synchronised, the agent runs. *)
Definition after_sync (event : SlackEvent) (isEvent : bool) (syncedCount : nat)
  : M RunResult :=
  when (0 <? syncedCount)%nat
    (Log.logInfo ("[" ++ ev_channel event ++ "] Synced " ++ pretty syncedCount
                  ++ " messages from log to context"));;
  with_ctx Ctx.fresh (run_agent event isEvent).

(** The [try] block of [handleEvent] up to the point where the result of
    the run is in hand. *)
Definition run_until_result (event : SlackEvent) (isEvent : bool) (channelDir : string)
  : M RunResult :=
  do syncedCount <- syncLogToContext channelDir (ev_ts event);
  after_sync event isEvent syncedCount.

(** The [try] block of [handleEvent]. *)
Definition run_body (event : SlackEvent) (isEvent : bool) (channelDir : string) : M unit :=
  do result <- run_until_result event isEvent channelDir;
  signalDone (ev_channel event);;
  reconcileStop event result.

(** Lines 344-347: the run starts. *)
Definition begin_run (event : SlackEvent) : M unit :=
  write (ev_channel event) (set_running true);;
  write (ev_channel event) (set_stopRequested false);;
  Log.logInfo ("[" ++ ev_channel event ++ "] Starting run: "
               ++ Js.substring_to 50 (ev_text event)).

(** The [catch] clause of the run. *)
Definition run_failed (event : SlackEvent) (err : Js.Err) : M unit :=
  Log.logWarning ("[" ++ ev_channel event ++ "] Run error") (Js.message_of err).

(** Lines 344-391: start the run, run it, come back to idle. *)
Definition run (event : SlackEvent) (isEvent : bool) (channelDir : string) : M unit :=
  begin_run event;;
  try_finally
    (try_catch (run_body event isEvent channelDir) (run_failed event))
    (write (ev_channel event) (set_running false)).

(** Lines 327-336: finish the login with the pasted code. *)
Definition finishLogin (event : SlackEvent) (text workingDir : string) : M unit :=
  do result <- OAuth.completeLogin (ev_channel event) text workingDir;
  if OAuth.success result then
    Slack.postMessage (ev_channel event) login_succeeded;;
    ret tt
  else
    Slack.postMessage (ev_channel event)
      ("✗ Login failed: " ++ default "undefined" (OAuth.error result));;
    ret tt.

(** Lines 292-303: [/login]. *)
Definition onLogin (event : SlackEvent) : M unit :=
  do authUrl <- OAuth.startLogin (ev_channel event);
  Slack.postMessage (ev_channel event) (login_instructions authUrl);;
  ret tt.

(** Lines 306-310: [/logout]. *)
Definition onLogout (event : SlackEvent) (workingDir : string) : M unit :=
  OAuth.removeCredentials workingDir;;
  Slack.postMessage (ev_channel event) "✓ Logged out of Anthropic";;
  ret tt.

(** Lines 313-323: [/auth-status]. *)
Definition onAuthStatus (event : SlackEvent) (c : Config) : M unit :=
  do loggedIn <- OAuth.isLoggedIn (workingDir c);
  Slack.postMessage (ev_channel event) (auth_status loggedIn (hasEnvKey c));;
  ret tt.

Definition handleEvent (event : SlackEvent) (isEvent : bool) : M unit :=
  getState (ev_channel event);;
  do c <- gets cfg;
  let channelDir := Node.join (workingDir c) (ev_channel event) in
  let text := Js.trim (ev_text event) in
  if String.eqb text "/login" || String.eqb text "/login anthropic" then
    onLogin event
  else if String.eqb text "/logout" || String.eqb text "/logout anthropic" then
    onLogout event (workingDir c)
  else if String.eqb text "/auth-status" || String.eqb text "/auth" then
    onAuthStatus event c
  else
    do pending <- OAuth.hasPendingAuth (ev_channel event);
    if pending && Js.includes text "#" && negb (Js.startsWith text "/") then
      finishLogin event text (workingDir c)
    else
      run event isEvent channelDir.

(** What the transport hands to the handler. *)
Inductive Inbound : Type :=
| Message (event : SlackEvent) (isEvent : bool)
| Stop (channelId : string).

Definition deliver (i : Inbound) : M unit :=
  match i with
  | Message event isEvent => handleEvent event isEvent
  | Stop channelId => handleStop channelId
  end.

(** A finite sequence of inbound events, each handled to its end; an
    error that leaves a handler is the transport's to deal with. *)
Fixpoint deliver_all (l : list Inbound) : M unit :=
  match l with
  | [] => ret tt
  | i :: rest => attempt (deliver i);; deliver_all rest
  end.

End Handler.

(* ====================================================================== *)
(** ** The context window builder *)
(* ====================================================================== *)

Module ContextWindow.

(** Modelled from the spec: the log entry of section 3 (the persisted
    log and the builder are not among these sources; the design note
    under [src/unnamed] plans them). *)
Record LogEntry : Type := {
  le_ts : string;
  le_author : string;
  le_text : string;
  le_attachments : list string
}.

(** Modelled from the spec: the context budget of section 3. *)
Record ContextBudget : Type := {
  maxInputTokens : Z;
  reservedForOutput : Z;
  systemPromptTokens : Z;
  memoryTokens : Z;
  toolSchemaTokens : Z
}.

Definition fixedOverhead (b : ContextBudget) : Z :=
  systemPromptTokens b + memoryTokens b + toolSchemaTokens b.

Definition availableForHistory (b : ContextBudget) : Z :=
  maxInputTokens b - reservedForOutput b - fixedOverhead b.

(** Modelled from the spec: the window result of section 3; [marked]
    is the truncation marker of the one-oversized-entry case. *)
Record WindowResult : Type := {
  selected : list LogEntry;
  marked : bool;
  totalTokens : Z;
  messageCount : nat;
  dateRange : option (string * string);
  droppedCount : nat
}.

Section Builder.

(** The character-density estimate of a text; its divisors are the
    estimator's business. *)
Variable estimateTokens : string -> Z.

(** Modelled from the spec: the cost of an entry is the estimate of
    its text plus a fixed metadata overhead and an overhead per
    attachment (20 and 50 in the design note). *)
Definition estimateEntry (e : LogEntry) : Z :=
  estimateTokens (le_text e) + 20 + 50 * Z.of_nat (length (le_attachments e)).

Definition total (l : list LogEntry) : Z :=
  fold_right (fun e acc => estimateEntry e + acc)%Z 0%Z l.

(** Modelled from the spec: walk the log newest first; take entries
    while the running total stays within the budget; stop at the
    first entry that would exceed it. *)
Fixpoint accumulate (available sofar : Z) (newest_first : list LogEntry) : list LogEntry :=
  match newest_first with
  | [] => []
  | e :: older =>
      if (sofar + estimateEntry e <=? available)%Z
      then e :: accumulate available (sofar + estimateEntry e) older
      else []
  end.

Definition range_of (chronological : list LogEntry) : option (string * string) :=
  match chronological, rev chronological with
  | first :: _, last :: _ => Some (le_ts first, le_ts last)
  | _, _ => None
  end.

(** Modelled from the spec: [build] of section 4.3 on a log snapshot
    in chronological order.  An empty log gives an empty window; when
    not even the newest entry fits, it is included anyway, marked. *)
Definition build (log : list LogEntry) (b : ContextBudget) : WindowResult :=
  let accumulated := accumulate (availableForHistory b) 0 (rev log) in
  match accumulated, rev log with
  | [], newest :: _ =>
      {| selected := [newest];
         marked := true;
         totalTokens := estimateEntry newest;
         messageCount := 1;
         dateRange := range_of [newest];
         droppedCount := length log - 1 |}
  | _, _ =>
      {| selected := rev accumulated;
         marked := false;
         totalTokens := total accumulated;
         messageCount := length accumulated;
         dateRange := range_of (rev accumulated);
         droppedCount := length log - length accumulated |}
  end.

End Builder.

(** A prose estimator: four characters to a token, rounded up. *)
Definition prose (s : string) : Z := (Z.of_nat (String.length s) + 3) / 4.

End ContextWindow.

(* ====================================================================== *)
(** ** Sample worlds *)
(* ====================================================================== *)

Module Sample.

(** An outside in which every call succeeds: the platform answers each
    call with a timestamp made from the length of the journal, the
    token endpoint accepts, the runner completes without output. *)
Definition calm : Outside :=
  {| slack_api := fun j => Ret ("ts" ++ pretty (length j));
     token_endpoint := fun _ =>
       Ret {| ok := true; body_text := Ret "";
              body_json := Ret {| access_token := "acc"; refresh_token := "ref";
                                  expires_in := 3600 |} |};
     log_sync := fun _ => Ret 0%nat;
     agent := fun _ => {| actions := []; outcome := Ret {| stopReason := "completed" |} |};
     entropy := fun _ => "0123456789abcdef0123456789abcdef";
     auth_url := fun _ => "https://claude.ai/oauth/authorize?x=1";
     auth_has := fun _ => false;
     date_now := fun j n => (1000 * Z.of_nat (length j + n))%Z;
     sha256 := fun s => Js.reverse s;
     JSON_stringify_credentials := fun c => "{anthropic:" ++ access c ++ "}";
     JSON_parse_anthropic := fun s => Ret None |}.

Definition with_slack (f : list Effect -> Res string) (o : Outside) : Outside :=
  {| slack_api := f; token_endpoint := token_endpoint o; log_sync := log_sync o;
     agent := agent o; entropy := entropy o; auth_url := auth_url o;
     auth_has := auth_has o; date_now := date_now o; sha256 := sha256 o;
     JSON_stringify_credentials := JSON_stringify_credentials o;
     JSON_parse_anthropic := JSON_parse_anthropic o |}.

Definition with_token_endpoint (f : list Effect -> Res HttpResponse) (o : Outside) : Outside :=
  {| slack_api := slack_api o; token_endpoint := f; log_sync := log_sync o;
     agent := agent o; entropy := entropy o; auth_url := auth_url o;
     auth_has := auth_has o; date_now := date_now o; sha256 := sha256 o;
     JSON_stringify_credentials := JSON_stringify_credentials o;
     JSON_parse_anthropic := JSON_parse_anthropic o |}.

Definition with_agent (f : list Effect -> RunScript) (o : Outside) : Outside :=
  {| slack_api := slack_api o; token_endpoint := token_endpoint o; log_sync := log_sync o;
     agent := f; entropy := entropy o; auth_url := auth_url o;
     auth_has := auth_has o; date_now := date_now o; sha256 := sha256 o;
     JSON_stringify_credentials := JSON_stringify_credentials o;
     JSON_parse_anthropic := JSON_parse_anthropic o |}.

Definition config : Config :=
  {| workingDir := "/data"; MOM_SLACK_API_URL := None;
     ANTHROPIC_API_KEY := None; ANTHROPIC_OAUTH_TOKEN := None |}.

Definition boot (o : Outside) : World :=
  {| outside := o; cfg := config; journal := [];
     channelStates := ∅; pendingAuths := ∅; pendingLogins := ∅;
     promises := ∅; timers := ∅; next_id := 0;
     fs := ∅; clock_reads := 0 |}.

Definition say (channel text : string) : SlackEvent :=
  {| ev_channel := channel; ev_user := "U1"; ev_text := text;
     ev_ts := "100.1"; ev_thread_ts := None |}.

(** The UTF-8 bytes of a character below U+10000. *)
Definition utf8 (cp : N) : string :=
  if (cp <? 128)%N then String (ascii_of_N cp) EmptyString
  else if (cp <? 2048)%N then
    String (ascii_of_N (192 + cp / 64))
      (String (ascii_of_N (128 + cp mod 64)) EmptyString)
  else
    String (ascii_of_N (224 + cp / 4096))
      (String (ascii_of_N (128 + (cp / 64) mod 64))
         (String (ascii_of_N (128 + cp mod 64)) EmptyString)).

(** A no-break space, U+00A0. *)
Definition nbsp : string := utf8 160.

(** The white space and the line terminators of ECMAScript, and some
    characters that look like them and are neither. *)
Definition white_space : list N :=
  [9; 10; 11; 12; 13; 32; 160; 5760; 8192; 8193; 8194; 8195; 8196; 8197; 8198; 8199;
   8200; 8201; 8202; 8232; 8233; 8239; 8287; 12288; 65279]%N.

Definition no_white_space : list N := [133; 6158; 8203; 8204; 8288]%N.

Definition after {A} (m : M A) (w : World) : World := snd (m w).

Definition aborted : RunResult := {| stopReason := "aborted" |}.

(** A run during which a stop request arrives and which the agent then
    ends as aborted. *)
Definition stopper : Outside :=
  with_agent (fun _ => {| actions := [ActStop]; outcome := Ret aborted |}) calm.


(** A platform that accepts posts and refuses every edit. *)
Definition no_edits : Outside :=
  with_slack
    (fun j =>
       match last j with
       | Some (SlackUpdateMessage _ _ _) => Throw (Js.newError "ratelimited")
       | _ => Ret ("ts" ++ pretty (length j))
       end)
    calm.

(** A platform that cannot be reached. *)
Definition unreachable : Outside :=
  with_slack (fun _ => Throw (Js.newError "fetch failed")) calm.

(** An agent that raises. *)
Definition crashing : Outside :=
  with_agent (fun _ => {| actions := [ActRespond "one moment" true];
                          outcome := Throw (Js.newError "overloaded") |}) calm.

(** A token endpoint that answers 400. *)
Definition refusing : Outside :=
  with_token_endpoint
    (fun _ => Ret {| ok := false; body_text := Ret "invalid_grant";
                     body_json := Throw (Js.Thrown "SyntaxError") |}) calm.

Definition pending_of (channel : string) (w : World) : PendingAuth :=
  default {| verifier := ""; challenge := ""; createdAt := 0 |} (pendingAuths w !! channel).

(** The worlds after [/login] in a channel, and after a pasted code. *)
Definition logging_in (o : Outside) : World :=
  after (Handler.handleEvent (say "C1" "/login") false) (boot o).

Definition logged_in : World :=
  after (Handler.handleEvent (say "C1" "abc#def") false) (logging_in calm).

End Sample.

(* ====================================================================== *)
(** ** What the properties speak of *)
(* ====================================================================== *)

Module Obs.

(** The requests to the chat platform in a journal, in order. *)
Definition is_slack (e : Effect) : bool :=
  match e with
  | SlackPostMessage _ _ | SlackUpdateMessage _ _ _ | SlackDeleteMessage _ _
  | SlackPostInThread _ _ _ | SlackUploadFile _ _ _ _ => true
  | _ => false
  end.

Definition slack_calls (j : list Effect) : list Effect := List.filter is_slack j.





(** What the clock shows when it is read next. *)
Definition now (w : World) : Z := date_now (outside w) (journal w) (clock_reads w).

(** A pending authentication exists for the channel: one is stored and
    it is not older than the timeout. *)
Definition pending_exists (channelId : string) (w : World) : bool :=
  match pendingAuths w !! channelId with
  | Some p => negb (OAuth.expired (now w) p)
  | None => false
  end.

Definition is_command (text : string) : bool :=
  String.eqb text "/login" || String.eqb text "/login anthropic"
  || String.eqb text "/logout" || String.eqb text "/logout anthropic"
  || String.eqb text "/auth-status" || String.eqb text "/auth".

(** The text reads as a pasted authorization code. *)
Definition reads_as_code (text : string) : bool :=
  Js.includes text "#" && negb (Js.startsWith text "/").

(** The event is one that starts a run: no command, no pasted code of a
    pending authentication. *)
Definition starts_run (event : SlackEvent) (w : World) : bool :=
  let text := Js.trim (ev_text event) in
  negb (is_command text)
  && negb (pending_exists (ev_channel event) w && reads_as_code text).

Definition is_running (channelId : string) (w : World) : bool :=
  match channelStates w !! channelId with
  | Some state => running state
  | None => false
  end.

Definition state_of (channelId : string) (w : World) : ChannelState :=
  default Handler.idle (channelStates w !! channelId).

(** No channel is in the [Running] state. *)
Definition all_idle (w : World) : Prop :=
  forall channelId, is_running channelId w = false.

(** The world in which the run of [event] starts: the channel's state
    exists and an outdated pending authentication has been dropped. *)
Definition entered (event : SlackEvent) (w : World) : World :=
  snd (OAuth.hasPendingAuth (ev_channel event) (snd (Handler.getState (ev_channel event) w))).

Definition channelDir (event : SlackEvent) (w : World) : string :=
  Node.join (workingDir (cfg w)) (ev_channel event).

(** What the token endpoint answers to the exchange that [completeLogin]
    asks for in [w]. *)
Definition exchange_answer (w : World) (authCode : string) (p : PendingAuth)
  : Res HttpResponse :=
  token_endpoint (outside w) (journal w ++ [FetchToken (OAuth.tokenRequest authCode p)]).

(** The exchange fails: the fetch throws, or the response is not 2xx. *)
Definition exchange_fails (answer : Res HttpResponse) : Prop :=
  match answer with
  | Throw _ => True
  | Ret response => ok response = false
  end.

(** What a failed exchange is reported as. *)
Definition failure_text (w : World) (authCode : string) (p : PendingAuth) : string :=
  if OAuth.expired (now w) p
  then "Login expired. Use /login to start again."
  else match exchange_answer w authCode p with
       | Ret response =>
           match body_text response with
           | Ret body => "Token exchange failed: " ++ body
           | Throw e => "Login failed: " ++ Js.show e
           end
       | Throw e => "Login failed: " ++ Js.show e
       end.

(** Where the credential file of a working directory is. *)
Definition credentialPath (workingDir : string) : string :=
  Node.join (Node.join workingDir ".mom") "oauth.json".

Definition is_logout (text : string) : bool :=
  String.eqb text "/logout" || String.eqb text "/logout anthropic".


End Obs.

(* ====================================================================== *)
(** ** main.ts: the command line *)
(* ====================================================================== *)

Module Cli.

(** [SandboxConfig] of sandbox.ts, as main.ts reads it: the host, or a
    named container. *)
Inductive SandboxConfig : Type :=
| Host
| Docker (container : string).

Record ParsedArgs : Type := {
  pa_workingDir : option string;
  pa_sandbox : SandboxConfig;
  pa_downloadChannel : option string
}.

(** [arg.slice(n)] for an [arg] whose first [n] characters are of the
    ASCII range. *)
Definition slice (n : nat) (arg : string) : string :=
  String.substring n (String.length arg - n) arg.

Section ParseArgs.

(** [parseSandboxArg] of sandbox.ts and [resolve] of the path module, as
    called; a [parseSandboxArg] that does not return ends [parseArgs]. *)
Variable parseSandboxArg : string -> Res SandboxConfig.
Variable resolve : string -> string.

(** The loop of [parseArgs] from index [i] on, over [args.slice(i)]: an
    option given as two words takes the next word with it, whatever that
    word is. *)
Fixpoint scan (args : list string) (sandbox : SandboxConfig)
    (workingDir downloadChannelId : option string)
  : Res (SandboxConfig * option string * option string) :=
  match args with
  | [] => Ret (sandbox, workingDir, downloadChannelId)
  | arg :: rest =>
      if Js.startsWith arg "--sandbox=" then
        match parseSandboxArg (slice 10 arg) with
        | Ret sandbox => scan rest sandbox workingDir downloadChannelId
        | Throw e => Throw e
        end
      else if String.eqb arg "--sandbox" then
        match rest with
        | next :: rest =>
            match parseSandboxArg next with
            | Ret sandbox => scan rest sandbox workingDir downloadChannelId
            | Throw e => Throw e
            end
        | [] =>
            match parseSandboxArg "" with
            | Ret sandbox => Ret (sandbox, workingDir, downloadChannelId)
            | Throw e => Throw e
            end
        end
      else if Js.startsWith arg "--download=" then
        scan rest sandbox workingDir (Some (slice 11 arg))
      else if String.eqb arg "--download" then
        match rest with
        | next :: rest => scan rest sandbox workingDir (Some next)
        | [] => Ret (sandbox, workingDir, None)
        end
      else if negb (Js.startsWith arg "-") then
        scan rest sandbox (Some arg) downloadChannelId
      else scan rest sandbox workingDir downloadChannelId
  end.

(** [parseArgs] on [process.argv.slice(2)]. *)
Definition parseArgs (args : list string) : Res ParsedArgs :=
  match scan args Host None None with
  | Ret (sandbox, workingDir, downloadChannelId) =>
      Ret {| pa_workingDir :=
               match Js.truthy workingDir with
               | Some dir => Some (resolve dir)
               | None => None
               end;
             pa_sandbox := sandbox;
             pa_downloadChannel := downloadChannelId |}
  | Throw e => Throw e
  end.

End ParseArgs.

End Cli.

(* ====================================================================== *)
(** ** More of what the properties speak of *)
(* ====================================================================== *)

Module View.

(** The path holds a directory. *)
Definition is_dir (tree : gmap string Entry) (p : string) : bool :=
  match tree !! p with
  | Some (DirEntry _) => true
  | _ => false
  end.

(** Where [getOAuthPath] keeps the credential file. *)
Definition momDir (workingDir : string) : string := Node.join workingDir ".mom".

(** Nothing that parses into credentials is at the credential path. *)
Definition no_credentials_at (workingDir : string) (w : World) : Prop :=
  match fs w !! Obs.credentialPath workingDir with
  | Some (FileEntry content _) => JSON_parse_anthropic (outside w) content = Ret None
  | _ => True
  end.

(** The credential file is there and parses into credentials. *)
Definition holds_credentials (workingDir : string) (w : World) : bool :=
  match fs w !! Obs.credentialPath workingDir with
  | Some (FileEntry content _) =>
      match JSON_parse_anthropic (outside w) content with
      | Ret (Some _) => true
      | _ => false
      end
  | _ => false
  end.

(** The completion signals to the protocol adapter in a journal. *)
Definition is_done (e : Effect) : bool :=
  match e with
  | FetchDone _ _ => true
  | _ => false
  end.

Definition done_signals (j : list Effect) : list Effect := List.filter is_done j.

Definition signals (w : World) : list Effect := done_signals (journal w).

(** The state record of a channel, if there is one. *)
Definition record_of (channelId : string) (w : World) : option ChannelState :=
  channelStates w !! channelId.

(** The operations of the adapter that write the primary message and its
    thread. *)
Definition streams (a : RunAction) : bool :=
  match a with
  | ActRespond _ _ | ActReplaceMessage _ | ActRespondInThread _
  | ActSetTyping _ | ActSetWorking _ => true
  | _ => false
  end.

Definition is_stop (a : RunAction) : bool :=
  match a with
  | ActStop => true
  | _ => false
  end.

(** The stop requests of a script, and the aborts of a journal. *)
Definition stops (l : list RunAction) : nat := length (List.filter is_stop l).

Definition is_abort (e : Effect) : bool :=
  match e with
  | RunnerAbort _ => true
  | _ => false
  end.

Definition aborts (j : list Effect) : list Effect := List.filter is_abort j.

Definition aborted_so_far (w : World) : list Effect := aborts (journal w).

(** No stop request arrives during the runs of this outside. *)
Definition undisturbed (o : Outside) : Prop :=
  forall j, forallb (fun a => negb (is_stop a)) (actions (agent o j)) = true.

(** The request is an edit of the message [ts] of the channel, a post
    into its thread, or the log line of a response shown in it. *)
Definition on_message (channel ts : string) (e : Effect) : bool :=
  match e with
  | SlackUpdateMessage c t _ => String.eqb c channel && String.eqb t ts
  | SlackPostInThread c t _ => String.eqb c channel && String.eqb t ts
  | SlackLogBotResponse c _ t => String.eqb c channel && String.eqb t ts
  | _ => false
  end.

(** No character of the text is [c]. *)
Fixpoint free_of (c : ascii) (s : string) : bool :=
  match s with
  | EmptyString => true
  | String a t => negb (Ascii.eqb a c) && free_of c t
  end.

(** The word of a command line is no option. *)
Definition plain (arg : string) : bool := negb (Js.startsWith arg "-").

(** The inbound event is for the channel. *)
Definition concerns (channelId : string) (i : Handler.Inbound) : bool :=
  match i with
  | Handler.Message event _ => String.eqb (ev_channel event) channelId
  | Handler.Stop c => String.eqb c channelId
  end.

End View.

(* ====================================================================== *)
(** ** More sample worlds *)
(* ====================================================================== *)

Module Scene.

(** Credentials as a login left them. *)
Definition kept : OAuthCredentials :=
  {| refresh := "ref0"; access := "acc0"; expires := 5000 |}.

(** An outside whose JSON parser reads what its printer writes for
    [kept], finds no credentials in the empty record, and rejects
    anything else. *)
Definition literate : Outside :=
  {| slack_api := slack_api Sample.calm;
     token_endpoint := token_endpoint Sample.calm;
     log_sync := log_sync Sample.calm;
     agent := agent Sample.calm;
     entropy := entropy Sample.calm;
     auth_url := auth_url Sample.calm;
     auth_has := auth_has Sample.calm;
     date_now := date_now Sample.calm;
     sha256 := sha256 Sample.calm;
     JSON_stringify_credentials := fun c => "{anthropic:" ++ access c ++ "}";
     JSON_parse_anthropic := fun s =>
       if String.eqb s "{anthropic:acc0}" then Ret (Some kept)
       else if String.eqb s "{}" then Ret None
       else Throw (Js.ErrorObj "SyntaxError" "Unexpected token") |}.

(** A working directory in which the bot has run before. *)
Definition home (o : Outside) : World :=
  set_fs (<["/data/.mom" := DirEntry 448]> (<["/data" := DirEntry 493]> ∅)) (Sample.boot o).

(** The same with a credential file. *)
Definition with_file (content : string) (o : Outside) : World :=
  set_fs (<["/data/.mom/oauth.json" := FileEntry content 384]> (fs (home o))) (home o).

(** An HTTP client that answers every refresh request the same way. *)
Definition answering (response : HttpResponse) : OAuth.RefreshRequest -> M HttpResponse :=
  fun _ => ret response.

Definition offline : OAuth.RefreshRequest -> M HttpResponse :=
  fun _ => throw (Js.newError "fetch failed").

Definition renewed : HttpResponse :=
  {| ok := true; body_text := Ret "";
     body_json := Ret {| access_token := "acc1"; refresh_token := "ref1";
                         expires_in := 3600 |} |}.

Definition denied : HttpResponse :=
  {| ok := false; body_text := Ret "invalid_grant";
     body_json := Throw (Js.ErrorObj "SyntaxError" "Unexpected token") |}.

(** A run in which the runner answers twice and replies in the thread. *)
Definition chatty : Outside :=
  Sample.with_agent
    (fun _ => {| actions := [ActRespond "one" true; ActRespondInThread "detail";
                             ActRespond "two" false];
                 outcome := Ret {| stopReason := "stop" |} |})
    Sample.calm.

(** A runner that reports an abort nobody asked for. *)
Definition giving_up : Outside :=
  Sample.with_agent (fun _ => {| actions := []; outcome := Ret Sample.aborted |}) Sample.calm.

(** The configuration of a bot behind a protocol adapter. *)
Definition behind_adapter (w : World) : World :=
  {| outside := outside w;
     cfg := {| workingDir := workingDir (cfg w);
               MOM_SLACK_API_URL := Some "http://localhost:3000/api/";
               ANTHROPIC_API_KEY := ANTHROPIC_API_KEY (cfg w);
               ANTHROPIC_OAUTH_TOKEN := ANTHROPIC_OAUTH_TOKEN (cfg w) |};
     journal := journal w; channelStates := channelStates w;
     pendingAuths := pendingAuths w; pendingLogins := pendingLogins w;
     promises := promises w; timers := timers w; next_id := next_id w; fs := fs w;
     clock_reads := clock_reads w |}.

(** A parser of sandbox arguments and a [resolve] for absolute paths, to
    run [parseArgs] on the command line of run.sh. *)
Definition parseSandboxArg (text : string) : Res Cli.SandboxConfig :=
  if String.eqb text "host" then Ret Cli.Host
  else if Js.startsWith text "docker:" then Ret (Cli.Docker (Cli.slice 7 text))
  else Throw (Js.newError "invalid sandbox").

Definition resolve (path : string) : string := path.

End Scene.

(* ====================================================================== *)
(** ** Frames *)
(* ====================================================================== *)

(** The computation [m] leaves the view [f] of the state as it was. *)
Definition keeps {S A B} (f : S -> B) (m : ST S A) : Prop :=
  forall s, f (snd (m s)) = f s.

(** A view of the world, taken from inside a run's context adapter. *)
Definition on_world {B} (f : World -> B) : SlackContext * World -> B :=
  fun s => f (snd s).

(** The deletion requests for a list of message handles. *)
Definition deletions (channel : string) (handles : list string) : list Effect :=
  map (SlackDeleteMessage channel) handles.




(** Every character of the text is left alone by the form encoding. *)
Fixpoint all_safe (s : string) : Prop :=
  match s with
  | EmptyString => True
  | String c t => Node.form_safe c = true /\ all_safe t
  end.

(* ====================================================================== *)
(** * Properties *)
(* ====================================================================== *)

Section Keeps.
Context {S B : Type} (f : S -> B).

Lemma keeps_ret {A} (a : A) : keeps f (ret a).
Proof. intros s. reflexivity. Qed.

Lemma keeps_throw {A} e : keeps f (@throw S A e).
Proof. intros s. reflexivity. Qed.

Lemma keeps_get : keeps f get.
Proof. intros s. reflexivity. Qed.

Lemma keeps_gets {A} (g : S -> A) : keeps f (gets g).
Proof. intros s. reflexivity. Qed.

Lemma keeps_settle {A} (r : Res A) : keeps f (settle r).
Proof. destruct r; intros s; reflexivity. Qed.

Lemma keeps_modify (g : S -> S) : (forall s, f (g s) = f s) -> keeps f (modify g).
Proof. intros H s. apply H. Qed.

Lemma keeps_bind {A C} (m : ST S A) (k : A -> ST S C) :
  keeps f m -> (forall a, keeps f (k a)) -> keeps f (bind m k).
Proof.
  intros Hm Hk s. unfold bind. specialize (Hm s).
  destruct (m s) as [[a|e] s']; simpl in *.
  - rewrite Hk. exact Hm.
  - exact Hm.
Qed.

Lemma keeps_try_catch {A} (m : ST S A) h :
  keeps f m -> (forall e, keeps f (h e)) -> keeps f (try_catch m h).
Proof.
  intros Hm Hh s. unfold try_catch. specialize (Hm s).
  destruct (m s) as [[a|e] s']; simpl in *.
  - exact Hm.
  - rewrite Hh. exact Hm.
Qed.

Lemma keeps_try_finally {A} (m : ST S A) fin :
  keeps f m -> keeps f fin -> keeps f (try_finally m fin).
Proof.
  intros Hm Hf s. unfold try_finally. specialize (Hm s).
  destruct (m s) as [r s']. specialize (Hf s'). simpl in *.
  destruct (fin s') as [[u|e] s'']; simpl in *; congruence.
Qed.

Lemma keeps_when b (m : ST S unit) : keeps f m -> keeps f (when b m).
Proof. destruct b; simpl; auto using keeps_ret. Qed.

Lemma keeps_attempt {A} (m : ST S A) : keeps f m -> keeps f (attempt m).
Proof. intros Hm s. apply Hm. Qed.

End Keeps.

Section KeepsCtx.
Context {B : Type} (f : World -> B).

Lemma keeps_liftW {A} (m : M A) : keeps f m -> keeps (on_world f) (Ctx.liftW m).
Proof.
  intros Hm [c w]. unfold Ctx.liftW, on_world. simpl.
  specialize (Hm w). destruct (m w) as [r w']. exact Hm.
Qed.

Lemma keeps_modc g : keeps (on_world f) (Ctx.modc g).
Proof. intros [c w]. reflexivity. Qed.

Lemma keeps_enqueue task : keeps (on_world f) task -> keeps (on_world f) (Ctx.enqueue task).
Proof.
  intros Ht s. unfold Ctx.enqueue.
  destruct (updatePromise (fst s)); [|reflexivity].
  specialize (Ht s). destruct (task s) as [[u|e] s']; exact Ht.
Qed.

Lemma keeps_with_ctx {A} c (m : MA A) : keeps (on_world f) m -> keeps f (Handler.with_ctx c m).
Proof.
  intros Hm w. unfold Handler.with_ctx. specialize (Hm (c, w)).
  destruct (m (c, w)) as [r s]. exact Hm.
Qed.

End KeepsCtx.

Lemma keeps_delete_each {B} (f : World -> B) channel l :
  (forall ts, keeps f (Slack.deleteMessage channel ts)) ->
  keeps (on_world f) (Ctx.delete_each channel l).
Proof.
  intros H. induction l as [|ts older IH]; cbn [Ctx.delete_each].
  - apply keeps_ret.
  - apply keeps_bind; [|intros _; exact IH].
    apply keeps_try_catch; [|intros _; apply keeps_ret].
    apply keeps_liftW, H.
Qed.

Lemma keeps_play_all {B} (f : World -> B) event isEvent l :
  (forall a, keeps (on_world f) (Handler.play event isEvent a)) ->
  keeps (on_world f) (Handler.play_all event isEvent l).
Proof.
  intros H. induction l as [|a rest IH]; cbn [Handler.play_all].
  - apply keeps_ret.
  - apply keeps_bind; [apply H|intros _; exact IH].
Qed.

Ltac head_of t :=
  lazymatch t with
  | ?g _ => head_of g
  | _ => t
  end.

(** One step through the structure of a computation; [leaf] closes the
    goals [f (g s) = f s] of its state changes. *)
Ltac keeps_step leaf :=
  lazymatch goal with
  | |- keeps _ (bind _ _) => apply keeps_bind; [ | intros ? ]
  | |- keeps _ (ret _) => apply keeps_ret
  | |- keeps _ (throw _) => apply keeps_throw
  | |- keeps _ get => apply keeps_get
  | |- keeps _ (gets _) => apply keeps_gets
  | |- keeps _ (settle _) => apply keeps_settle
  | |- keeps _ (modify _) => apply keeps_modify; intros ?; leaf
  | |- keeps _ (try_catch _ _) => apply keeps_try_catch; [ | intros ? ]
  | |- keeps _ (try_finally _ _) => apply keeps_try_finally
  | |- keeps _ (when _ _) => apply keeps_when
  | |- keeps _ (attempt _) => apply keeps_attempt
  | |- keeps _ (Ctx.liftW _) => apply keeps_liftW
  | |- keeps _ (Ctx.modc _) => apply keeps_modc
  | |- keeps _ (Ctx.enqueue _) => apply keeps_enqueue
  | |- keeps _ (Handler.with_ctx _ _) => apply keeps_with_ctx
  | |- keeps _ (Ctx.delete_each _ _) => apply keeps_delete_each; intros ?
  | |- keeps _ (Handler.play_all _ _ _) => apply keeps_play_all; intros [| | | | | | |]
  | |- keeps _ (match ?x with _ => _ end) => destruct x
  | |- keeps _ ?m => let h := head_of m in unfold h; cbv beta iota
  end.

Ltac keeps_go leaf := repeat (keeps_step leaf).

Ltac plain := cbn; reflexivity.

(* ---------------------------------------------------------------------- *)
(** ** The dispatch of [handleEvent] *)

Lemma getState_ret channelId w :
  exists state, Handler.getState channelId w = (Ret state, snd (Handler.getState channelId w)).
Proof.
  unfold Handler.getState, bind, gets. cbn.
  destruct (channelStates w !! channelId); cbn; eauto.
Qed.

Lemma getState_frame channelId w :
  let w1 := snd (Handler.getState channelId w) in
  outside w1 = outside w /\ cfg w1 = cfg w /\ journal w1 = journal w
  /\ pendingAuths w1 = pendingAuths w /\ fs w1 = fs w.
Proof.
  unfold Handler.getState, bind, gets. cbn.
  destruct (channelStates w !! channelId); cbn; auto.
Qed.

Lemma getState_clock channelId w :
  clock_reads (snd (Handler.getState channelId w)) = clock_reads w.
Proof.
  unfold Handler.getState, bind, gets. cbn.
  destruct (channelStates w !! channelId); reflexivity.
Qed.

(** One reading of the clock. *)
Lemma Date_now_run w : Date_now w = (Ret (Obs.now w), clock_read w).
Proof. reflexivity. Qed.

Lemma hasPendingAuth_ret channelId w :
  OAuth.hasPendingAuth channelId w
  = (Ret (Obs.pending_exists channelId w), snd (OAuth.hasPendingAuth channelId w)).
Proof.
  unfold OAuth.hasPendingAuth, Obs.pending_exists, Obs.now, bind, gets, Date_now, modify.
  cbn. destruct (pendingAuths w !! channelId) as [p|]; cbn; [|reflexivity].
  destruct (OAuth.expired _ p); reflexivity.
Qed.

Lemma pending_exists_frame channelId w w' :
  outside w' = outside w -> journal w' = journal w -> pendingAuths w' = pendingAuths w ->
  clock_reads w' = clock_reads w ->
  Obs.pending_exists channelId w' = Obs.pending_exists channelId w.
Proof.
  intros Ho Hj Hp Hc. unfold Obs.pending_exists, Obs.now. rewrite Ho, Hj, Hp, Hc. reflexivity.
Qed.

(** [handleEvent], branch by branch. *)
Lemma handleEvent_dispatch event isEvent w :
  let text := Js.trim (ev_text event) in
  let w1 := snd (Handler.getState (ev_channel event) w) in
  Handler.handleEvent event isEvent w =
    if String.eqb text "/login" || String.eqb text "/login anthropic" then
      Handler.onLogin event w1
    else if String.eqb text "/logout" || String.eqb text "/logout anthropic" then
      Handler.onLogout event (workingDir (cfg w)) w1
    else if String.eqb text "/auth-status" || String.eqb text "/auth" then
      Handler.onAuthStatus event (cfg w) w1
    else if Obs.pending_exists (ev_channel event) w && Obs.reads_as_code text then
      Handler.finishLogin event text (workingDir (cfg w)) (Obs.entered event w)
    else
      Handler.run event isEvent (Obs.channelDir event w) (Obs.entered event w).
Proof.
  intros text w1. unfold Handler.handleEvent.
  destruct (getState_ret (ev_channel event) w) as [state Hs].
  destruct (getState_frame (ev_channel event) w) as (Ho & Hc & Hj & Hp & _).
  fold w1 in Hs, Ho, Hc, Hj, Hp.
  unfold bind at 1. rewrite Hs.
  unfold bind at 1. unfold gets at 1. cbn beta iota. rewrite Hc. fold text.
  destruct (String.eqb text "/login" || String.eqb text "/login anthropic"); [reflexivity|].
  destruct (String.eqb text "/logout" || String.eqb text "/logout anthropic"); [reflexivity|].
  destruct (String.eqb text "/auth-status" || String.eqb text "/auth"); [reflexivity|].
  unfold bind at 1. rewrite hasPendingAuth_ret.
  rewrite (pending_exists_frame _ w w1 Ho Hj Hp (getState_clock _ w)).
  unfold Obs.reads_as_code, Obs.entered, Obs.channelDir. fold w1.
  rewrite andb_assoc.
  destruct (_ && _ && _); reflexivity.
Qed.

Lemma handleEvent_run event isEvent w :
  Obs.starts_run event w = true ->
  Handler.handleEvent event isEvent w
  = Handler.run event isEvent (Obs.channelDir event w) (Obs.entered event w).
Proof.
  intros H. rewrite handleEvent_dispatch. cbv zeta.
  unfold Obs.starts_run, Obs.is_command in H.
  apply andb_true_iff in H as [Hc Hp].
  apply negb_true_iff in Hc, Hp.
  repeat (apply orb_false_iff in Hc as [Hc ?]).
  repeat match goal with E : String.eqb _ _ = false |- _ => rewrite E; clear E end.
  cbn [orb]. rewrite Hp. reflexivity.
Qed.

(* ---------------------------------------------------------------------- *)
(** ** The running flag *)

Lemma begin_run_ret event w :
  Handler.begin_run event w = (Ret tt, snd (Handler.begin_run event w)).
Proof. reflexivity. Qed.

Lemma is_running_written channelId b w :
  Obs.is_running channelId
    (snd (Handler.write channelId (Handler.set_running b) w))
  = match channelStates w !! channelId with Some _ => b | None => false end.
Proof.
  unfold Obs.is_running, Handler.write, modify. cbn.
  rewrite lookup_alter_eq. destruct (channelStates w !! channelId); reflexivity.
Qed.

(** The run leaves the channel idle, whatever happened in it. *)
Lemma run_idle event isEvent channelDir w :
  Obs.is_running (ev_channel event) (snd (Handler.run event isEvent channelDir w)) = false.
Proof.
  unfold Handler.run. unfold bind at 1. rewrite begin_run_ret.
  unfold try_finally.
  destruct (try_catch _ _ _) as [r w2].
  pose proof (is_running_written (ev_channel event) false w2) as H.
  unfold Handler.write, modify in *. cbn in *.
  rewrite H. destruct (channelStates w2 !! ev_channel event); reflexivity.
Qed.

Lemma is_running_alter g channelId other w :
  (forall state, running (g state) = running state) ->
  Obs.is_running other (set_channelStates (alter g channelId (channelStates w)) w)
  = Obs.is_running other w.
Proof.
  intros Hg. unfold Obs.is_running. cbn.
  destruct (decide (channelId = other)) as [->|Hne].
  - rewrite lookup_alter_eq. destruct (channelStates w !! other); cbn; auto.
  - rewrite lookup_alter_ne by exact Hne. reflexivity.
Qed.

Lemma is_running_alter_ne g channelId other w :
  other <> channelId ->
  Obs.is_running other (set_channelStates (alter g channelId (channelStates w)) w)
  = Obs.is_running other w.
Proof.
  intros Hne. unfold Obs.is_running. cbn.
  rewrite lookup_alter_ne by congruence. reflexivity.
Qed.

Ltac flag_leaf :=
  first [ apply is_running_alter; reflexivity
        | apply is_running_alter_ne; assumption
        | cbn; reflexivity ].

(** A stop request changes no [running] flag. *)
Lemma handleStop_flags channelId other :
  keeps (Obs.is_running other) (Handler.handleStop channelId).
Proof. keeps_go flag_leaf. Qed.

Lemma run_flags_elsewhere event isEvent channelDir other :
  other <> ev_channel event ->
  keeps (Obs.is_running other) (Handler.run event isEvent channelDir).
Proof. intros Hne. keeps_go flag_leaf. Qed.

Lemma getState_flags channelId other :
  keeps (Obs.is_running other) (Handler.getState channelId).
Proof.
  intros w. unfold Handler.getState, bind, gets. cbn.
  destruct (channelStates w !! channelId) as [state|] eqn:E; cbn; [reflexivity|].
  unfold Obs.is_running. cbn.
  destruct (decide (channelId = other)) as [->|Hne].
  - rewrite lookup_insert_eq, E. reflexivity.
  - rewrite lookup_insert_ne by exact Hne. reflexivity.
Qed.

Lemma hasPendingAuth_flags channelId other :
  keeps (Obs.is_running other) (OAuth.hasPendingAuth channelId).
Proof. keeps_go plain. Qed.

Lemma onLogin_flags event other : keeps (Obs.is_running other) (Handler.onLogin event).
Proof. keeps_go plain. Qed.

Lemma onLogout_flags event dir other : keeps (Obs.is_running other) (Handler.onLogout event dir).
Proof. keeps_go plain. Qed.

Lemma onAuthStatus_flags event c other :
  keeps (Obs.is_running other) (Handler.onAuthStatus event c).
Proof. keeps_go plain. Qed.

Lemma finishLogin_flags event text dir other :
  keeps (Obs.is_running other) (Handler.finishLogin event text dir).
Proof. keeps_go plain. Qed.

Lemma entered_flags event other w :
  Obs.is_running other (Obs.entered event w) = Obs.is_running other w.
Proof.
  unfold Obs.entered. rewrite hasPendingAuth_flags. apply getState_flags.
Qed.

(** Handling a message never leaves a [running] flag set that was not
    set before. *)
Lemma handleEvent_flags event isEvent other w :
  Obs.is_running other w = false ->
  Obs.is_running other (snd (Handler.handleEvent event isEvent w)) = false.
Proof.
  intros Hidle. rewrite handleEvent_dispatch. cbv zeta.
  pose proof (getState_flags (ev_channel event) other w) as Hg.
  pose proof (entered_flags event other w) as He.
  repeat match goal with
         | |- context [if ?b then _ else _] => destruct b
         end.
  - rewrite onLogin_flags. congruence.
  - rewrite onLogout_flags. congruence.
  - rewrite onAuthStatus_flags. congruence.
  - rewrite finishLogin_flags. congruence.
  - destruct (decide (other = ev_channel event)) as [->|Hne].
    + apply run_idle.
    + rewrite (run_flags_elsewhere event isEvent _ other Hne). congruence.
Qed.

Lemma deliver_idle i w : Obs.all_idle w -> Obs.all_idle (snd (Handler.deliver i w)).
Proof.
  intros Hidle other. destruct i as [event isEvent|channelId]; cbn [Handler.deliver].
  - apply handleEvent_flags, Hidle.
  - rewrite handleStop_flags. apply Hidle.
Qed.

Lemma deliver_all_idle l w :
  Obs.all_idle w -> Obs.all_idle (snd (Handler.deliver_all l w)).
Proof.
  revert w. induction l as [|i rest IH]; intros w Hidle; cbn [Handler.deliver_all].
  - exact Hidle.
  - unfold bind, attempt. cbn. apply IH, deliver_idle, Hidle.
Qed.

(** C1. Every event that starts a run leaves the channel's [running] flag
    false when [handleEvent] is done, whether the run completed, was
    aborted or raised; and after any finite sequence of messages and stop
    requests, delivered from a state in which no channel is running, no
    channel is running. *)
Theorem running_flag_cleared :
  (forall event isEvent w,
     Obs.starts_run event w = true ->
     Obs.is_running (ev_channel event) (snd (Handler.handleEvent event isEvent w)) = false)
  /\ (forall l w,
        Obs.all_idle w ->
        Obs.all_idle (snd (Handler.deliver_all l w))).
Proof.
  split.
  - intros event isEvent w Hrun. rewrite (handleEvent_run _ _ _ Hrun). apply run_idle.
  - exact deliver_all_idle.
Qed.

(* ---------------------------------------------------------------------- *)
(** ** The end of a run *)

Lemma slack_calls_app j j' :
  Obs.slack_calls (j ++ j') = (Obs.slack_calls j ++ Obs.slack_calls j')%list.
Proof. apply List.filter_app. Qed.

Lemma signalDone_ret channel w :
  Handler.signalDone channel w = (Ret tt, snd (Handler.signalDone channel w)).
Proof.
  unfold Handler.signalDone, bind, gets. cbn.
  destruct (Js.truthy (MOM_SLACK_API_URL (cfg w))); reflexivity.
Qed.

Lemma signalDone_frame channel w :
  let w' := snd (Handler.signalDone channel w) in
  outside w' = outside w /\ channelStates w' = channelStates w
  /\ Obs.slack_calls (journal w') = Obs.slack_calls (journal w).
Proof.
  unfold Handler.signalDone, bind, gets. cbn.
  destruct (Js.truthy (MOM_SLACK_API_URL (cfg w))); cbn; auto.
  rewrite slack_calls_app. cbn. rewrite app_nil_r. auto.
Qed.

Lemma run_unfold event isEvent channelDir w :
  Handler.run event isEvent channelDir w
  = try_finally
      (try_catch (Handler.run_body event isEvent channelDir) (Handler.run_failed event))
      (Handler.write (ev_channel event) (Handler.set_running false))
      (snd (Handler.begin_run event w)).
Proof. reflexivity. Qed.

(** A run that raises before its result is in hand: the error is logged
    and nothing else happens. *)
Lemma run_raised event isEvent channelDir w e w1 :
  Handler.run_until_result event isEvent channelDir (snd (Handler.begin_run event w))
  = (Throw e, w1) ->
  Handler.run event isEvent channelDir w
  = (Ret tt,
     snd (Handler.write (ev_channel event) (Handler.set_running false)
            (snd (Handler.run_failed event e w1)))).
Proof.
  intros H. rewrite run_unfold.
  unfold try_finally, try_catch, Handler.run_body. unfold bind at 1. rewrite H.
  reflexivity.
Qed.

(** No error leaves the run. *)
Lemma run_returns event isEvent channelDir w :
  fst (Handler.run event isEvent channelDir w) = Ret tt.
Proof.
  rewrite run_unfold. unfold try_finally, try_catch.
  destruct (Handler.run_body _ _ _ _) as [[[]|e] w2]; reflexivity.
Qed.

Lemma runner_run_raises event isEvent s e :
  outcome (agent (outside (snd s)) (journal (snd s) ++ [RunnerRun (ev_channel event)]))
  = Throw e ->
  fst (Handler.runner_run event isEvent s) = Throw e.
Proof.
  intros H. destruct s as [c w]. unfold Handler.runner_run.
  unfold bind at 1. cbn in *.
  unfold bind at 1. cbn.
  set (script := agent _ _) in *.
  unfold bind.
  destruct (Handler.play_all event isEvent (actions script) _) as [[[]|e'] s'] eqn:E.
  - rewrite H. reflexivity.
  - exfalso. revert E. generalize (actions script). clear.
    intros l. generalize (c, set_journal (journal w ++ [RunnerRun (ev_channel event)]) w).
    induction l as [|a rest IH]; intros s; cbn [Handler.play_all].
    + discriminate.
    + unfold bind at 1.
      assert (Hp : exists s1, Handler.play event isEvent a s = (Ret tt, s1)).
      { destruct a; cbn; unfold attempt, Ctx.liftW; cbn; eauto. }
      destruct Hp as [s1 ->]. apply IH.
Qed.

(** C7. An error raised during a run (by the agent or anywhere else in
    the [try] block) is caught at the controller: [handleEvent] returns
    normally, the error is logged as a warning and nothing is posted to
    the channel after it, and the session is idle again. *)
Theorem run_error_swallowed :
  (forall event isEvent w,
     Obs.starts_run event w = true ->
     let out := Handler.handleEvent event isEvent w in
     fst out = Ret tt /\ Obs.is_running (ev_channel event) (snd out) = false)
  /\ (forall event isEvent w e w1,
        Obs.starts_run event w = true ->
        Handler.run_until_result event isEvent (Obs.channelDir event w)
          (snd (Handler.begin_run event (Obs.entered event w))) = (Throw e, w1) ->
        let out := Handler.handleEvent event isEvent w in
        journal (snd out)
        = (journal w1 ++ [LogWarning ("[" ++ ev_channel event ++ "] Run error")
                                     (Js.message_of e)])%list
        /\ Obs.slack_calls (journal (snd out)) = Obs.slack_calls (journal w1))
  /\ (forall event isEvent s e,
        outcome (agent (outside (snd s)) (journal (snd s) ++ [RunnerRun (ev_channel event)]))
        = Throw e ->
        fst (Handler.runner_run event isEvent s) = Throw e).
Proof.
  split; [|split].
  - intros event isEvent w Hrun out. subst out.
    rewrite (handleEvent_run _ _ _ Hrun). split; [apply run_returns|apply run_idle].
  - intros event isEvent w e w1 Hrun Hraise out. subst out.
    rewrite (handleEvent_run _ _ _ Hrun), (run_raised _ _ _ _ _ _ Hraise).
    cbn. split; [reflexivity|].
    rewrite slack_calls_app. cbn. apply app_nil_r.
  - exact runner_run_raises.
Qed.

(* ---------------------------------------------------------------------- *)
(** ** The terminal message of a stopped run *)

Lemma state_of_frame channelId w w' :
  channelStates w' = channelStates w -> Obs.state_of channelId w' = Obs.state_of channelId w.
Proof. intros H. unfold Obs.state_of. rewrite H. reflexivity. Qed.

(** A run whose result is in hand goes on to the completion signal and
    the reconciliation of a stop; what these raise is logged. *)
Lemma run_returned event isEvent channelDir w result w1 :
  Handler.run_until_result event isEvent channelDir (snd (Handler.begin_run event w))
  = (Ret result, w1) ->
  Handler.run event isEvent channelDir w
  = try_finally
      (try_catch (Handler.reconcileStop event result) (Handler.run_failed event))
      (Handler.write (ev_channel event) (Handler.set_running false))
      (snd (Handler.signalDone (ev_channel event) w1)).
Proof.
  intros H. rewrite run_unfold.
  unfold try_finally, try_catch, Handler.run_body. unfold bind at 1. rewrite H.
  unfold bind at 1. rewrite signalDone_ret. reflexivity.
Qed.

Lemma handleStop_running channelId w :
  Obs.is_running channelId w = true ->
  let out := Handler.handleStop channelId w in
  journal (snd out)
  = (journal w ++ [RunnerAbort channelId; SlackPostMessage channelId "_Stopping..._"])%list
  /\ stopRequested (Obs.state_of channelId (snd out)) = true
  /\ forall ts, fst (Slack.postMessage channelId "_Stopping..._"
                       (snd (emit (RunnerAbort channelId) w))) = Ret ts ->
                stopMessageTs (Obs.state_of channelId (snd out)) = Some ts.
Proof.
  unfold Obs.is_running, Obs.state_of, Handler.handleStop, Slack.postMessage, Slack.call.
  unfold bind, gets, emit, modify, ask, gets, Handler.write, modify. cbn.
  destruct (channelStates w !! channelId) as [state|] eqn:E; [|discriminate].
  intros ->. cbn. rewrite <- app_assoc. cbn.
  destruct (slack_api (outside w) _) as [ts|e]; cbn.
  - rewrite !lookup_alter_eq, E. cbn. repeat split; auto. intros ? [= ->]. reflexivity.
  - rewrite lookup_alter_eq, E. cbn. repeat split; auto. discriminate.
Qed.



(* ---------------------------------------------------------------------- *)
(** ** A failed token exchange *)

Lemma completeLogin_failed w channelId authCode workingDir p :
  pendingAuths w !! channelId = Some p ->
  Obs.exchange_fails (Obs.exchange_answer w authCode p) ->
  exists j,
    OAuth.completeLogin channelId authCode workingDir w
    = (Ret {| OAuth.success := false; OAuth.error := Some (Obs.failure_text w authCode p) |},
       set_pendingAuths (delete channelId (pendingAuths w)) (set_journal j (clock_read w))).
Proof.
  intros Hp Hfail. unfold Obs.failure_text.
  unfold OAuth.completeLogin. unfold bind at 1, gets at 1. cbn beta iota. rewrite Hp.
  unfold bind at 1. rewrite Date_now_run.
  destruct (OAuth.expired (Obs.now w) p) eqn:Hexp.
  - exists (journal w). reflexivity.
  - unfold try_catch, OAuth.fetchToken, OAuth.useTokenResponse, OAuth.loginFailed.
    unfold bind at 1. unfold bind at 1. unfold bind at 1.
    unfold emit at 1, modify at 1. cbn beta iota.
    unfold ask at 1, gets at 1. cbn beta iota.
    cbn [outside journal set_journal clock_read set_clock_reads].
    unfold Obs.exchange_answer, Obs.exchange_fails in *.
    destruct (token_endpoint _ _) as [response|e].
    + cbn [settle ret]. rewrite Hfail. cbn [negb].
      destruct (body_text response) as [body|e] eqn:Eb; cbn; eexists; reflexivity.
    + cbn. eexists. reflexivity.
Qed.

(** C3. With a pending authentication stored, a token exchange that
    fails (the fetch throws, or the answer is not 2xx) makes
    [completeLogin] return a value whose [success] is false and whose
    [error] is a text, leaves the file system (so the credential file)
    as it was, and removes the channel's pending entry.  The text is
    "Token exchange failed: " followed by the body of a non-2xx answer;
    it is "Login failed: " followed by the error when the fetch, or the
    reading of that body, threw; and it says that the login expired when
    the entry was older than ten minutes. *)
Theorem failed_exchange_is_reported
  (w : World) (channelId authCode workingDir : string) (p : PendingAuth) :
  pendingAuths w !! channelId = Some p ->
  Obs.exchange_fails (Obs.exchange_answer w authCode p) ->
  let out := OAuth.completeLogin channelId authCode workingDir w in
  (exists result,
      fst out = Ret result
      /\ OAuth.success result = false
      /\ OAuth.error result
         = Some (if OAuth.expired (Obs.now w) p
                 then "Login expired. Use /login to start again."
                 else match Obs.exchange_answer w authCode p with
                      | Ret response =>
                          match body_text response with
                          | Ret body => "Token exchange failed: " ++ body
                          | Throw e => "Login failed: " ++ Js.show e
                          end
                      | Throw e => "Login failed: " ++ Js.show e
                      end))
  /\ fs (snd out) = fs w
  /\ pendingAuths (snd out) = delete channelId (pendingAuths w).
Proof.
  intros Hp Hfail out. subst out.
  destruct (completeLogin_failed w channelId authCode workingDir p Hp Hfail) as (j & ->).
  cbn [fst snd]. split; [|split; reflexivity].
  eexists. split; [reflexivity|]. split; reflexivity.
Qed.

(* ---------------------------------------------------------------------- *)
(** ** Logout *)

Lemma mkdir_keeps_entries md l (tree : gmap string Entry) p e :
  tree !! p = Some e ->
  fold_left (Node.mkdir_missing md) l tree !! p = Some e.
Proof.
  revert tree. induction l as [|d l IH]; intros tree H; cbn [fold_left]; [exact H|].
  apply IH. unfold Node.mkdir_missing.
  destruct (tree !! d) eqn:E; [exact H|].
  rewrite lookup_insert_ne; [exact H|]. intros ->. congruence.
Qed.

Lemma getOAuthPath_ret workingDir w :
  OAuth.getOAuthPath workingDir w
  = (Ret (Obs.credentialPath workingDir), snd (OAuth.getOAuthPath workingDir w)).
Proof.
  unfold OAuth.getOAuthPath, Node.existsSync, bind, gets. cbn.
  destruct (bool_decide _); reflexivity.
Qed.

Lemma getOAuthPath_keeps_entries workingDir w p e :
  fs w !! p = Some e ->
  fs (snd (OAuth.getOAuthPath workingDir w)) !! p = Some e.
Proof.
  intros H. unfold OAuth.getOAuthPath, Node.existsSync, bind, gets. cbn.
  destruct (bool_decide _); cbn; [exact H|].
  apply mkdir_keeps_entries, H.
Qed.

Lemma removeCredentials_overwrites workingDir w content md :
  fs w !! Obs.credentialPath workingDir = Some (FileEntry content md) ->
  fs (snd (OAuth.removeCredentials workingDir w)) !! Obs.credentialPath workingDir
  = Some (FileEntry "{}" md).
Proof.
  intros H. unfold OAuth.removeCredentials.
  unfold bind at 1. rewrite getOAuthPath_ret.
  pose proof (getOAuthPath_keeps_entries workingDir w _ _ H) as H'.
  set (w1 := snd (OAuth.getOAuthPath workingDir w)) in *.
  unfold Node.existsSync, Node.writeFileSync, bind, gets, get, when. cbn.
  rewrite H'. rewrite bool_decide_eq_true_2 by eauto.
  cbn. rewrite H'. cbn. apply lookup_insert_eq.
Qed.

Lemma postMessage_fs channel text : keeps fs (Slack.postMessage channel text).
Proof. keeps_go plain. Qed.

(** C9. [/logout] overwrites: a credential file that existed in the
    working directory is still there afterwards, with its mode, and its
    content is the empty record. *)
Theorem logout_overwrites_credentials
  (event : SlackEvent) (isEvent : bool) (w : World) (content : string) (md : N) :
  Obs.is_logout (Js.trim (ev_text event)) = true ->
  fs w !! Obs.credentialPath (workingDir (cfg w)) = Some (FileEntry content md) ->
  fs (snd (Handler.handleEvent event isEvent w)) !! Obs.credentialPath (workingDir (cfg w))
  = Some (FileEntry "{}" md).
Proof.
  intros Hcmd Hfile. rewrite handleEvent_dispatch. cbv zeta.
  assert (Hnot : String.eqb (Js.trim (ev_text event)) "/login"
                 || String.eqb (Js.trim (ev_text event)) "/login anthropic" = false).
  { unfold Obs.is_logout in Hcmd.
    apply orb_true_iff in Hcmd as [H|H]; apply String.eqb_eq in H; rewrite H; reflexivity. }
  rewrite Hnot. unfold Obs.is_logout in Hcmd. rewrite Hcmd.
  destruct (getState_frame (ev_channel event) w) as (_ & _ & _ & _ & Hfs).
  set (w1 := snd (Handler.getState (ev_channel event) w)) in *.
  rewrite <- Hfs in Hfile.
  unfold Handler.onLogout.
  pose proof (removeCredentials_overwrites _ _ _ _ Hfile) as Hout.
  unfold bind at 1.
  destruct (OAuth.removeCredentials _ w1) as [[[]|e] w2]; cbn in Hout |- *; [|exact Hout].
  assert (Hk : keeps fs (Slack.postMessage (ev_channel event) "✓ Logged out of Anthropic";;
                         ret tt)).
  { keeps_go plain. }
  rewrite Hk. exact Hout.
Qed.

(* ---------------------------------------------------------------------- *)
(** ** Starting a login *)

Lemma startLogin_result channelId w :
  let v := Node.base64url (entropy (outside w) (journal w ++ [RandomBytes 32])) in
  let c := Node.base64url (sha256 (outside w) v) in
  OAuth.startLogin channelId w
  = (Ret (OAuth.AUTHORIZE_URL ++ "?" ++ Node.URLSearchParams_toString (OAuth.authParams v c)),
     set_pendingAuths
       (<[channelId := {| verifier := v; challenge := c; createdAt := Obs.now w |}]>
          (filter (fun kv => OAuth.expired (Obs.now w) kv.2 = false) (pendingAuths w)))
       (set_journal (journal w ++ [RandomBytes 32]) (clock_read w))).
Proof. reflexivity. Qed.

Lemma handleLogin_replaces channelId w old :
  pendingLogins w !! channelId = Some old ->
  promises w !! waiter old = Some Waiting ->
  exists j,
    Auth.handleLogin channelId w
    = (Ret (next_id w),
       set_pendingLogins
         (<[channelId := {| waiter := next_id w; timeout := S (next_id w) |}]>
            (delete channelId (pendingLogins w)))
         (set_timers
            (<[S (next_id w) := {| tm_channel := channelId; tm_promise := next_id w |}]>
               (delete (timeout old) (timers w)))
            (set_promises
               (<[next_id w := Waiting]>
                  (<[waiter old := Rejected (Js.newError "Login cancelled - new login started")]>
                     (promises w)))
               (set_next_id (S (S (next_id w))) (set_journal j w))))).
Proof.
  intros Hold Hwait. destruct w as [o c j cs pa pl pr tm n f].
  cbn [pendingLogins promises] in Hold, Hwait.
  unfold Auth.handleLogin, Auth.cancelExisting, Auth.clearTimeout, Auth.settle_promise,
    Auth.forget, Log.logInfo, Auth.authStorage_login, Auth.onAuth, Auth.onPrompt,
    Slack.postMessage, Slack.call, attempt, bind, emit, modify, ask, gets, get, ret.
  lazy beta iota zeta delta
    [promises set_timers set_promises set_journal set_pendingLogins set_next_id timers
     next_id journal outside cfg pendingLogins pendingAuths channelStates fs fst snd].
  rewrite Hold.
  lazy beta iota zeta delta
    [promises set_timers set_promises set_journal set_pendingLogins set_next_id timers
     next_id journal outside cfg pendingLogins pendingAuths channelStates fs fst snd].
  rewrite Hwait.
  lazy beta iota zeta delta
    [promises set_timers set_promises set_journal set_pendingLogins set_next_id timers
     next_id journal outside cfg pendingLogins pendingAuths channelStates fs fst snd].
  destruct (slack_api o _); eexists; reflexivity.
Qed.

(** C5. A channel has at most one pending authentication.  [startLogin]
    leaves exactly one entry for the channel, the newly created one,
    whatever was stored for it before; the login that waits on a promise
    ([handleLogin]) first clears the timer of the flow already pending,
    rejects its waiter and drops its entry, and then holds exactly the
    new entry. *)
Theorem one_pending_authentication_per_channel :
  (forall channelId w,
     let out := OAuth.startLogin channelId w in
     let v := Node.base64url (entropy (outside w) (journal w ++ [RandomBytes 32])) in
     let created := {| verifier := v;
                       challenge := Node.base64url (sha256 (outside w) v);
                       createdAt := Obs.now w |} in
     (exists url, fst out = Ret url)
     /\ forall p, (channelId, p) ∈ map_to_list (pendingAuths (snd out)) <-> p = created)
  /\ (forall channelId w old,
        pendingLogins w !! channelId = Some old ->
        promises w !! waiter old = Some Waiting ->
        (waiter old < next_id w)%nat ->
        (timeout old < next_id w)%nat ->
        let out := Auth.handleLogin channelId w in
        let created := {| waiter := next_id w; timeout := S (next_id w) |} in
        fst out = Ret (next_id w)
        /\ promises (snd out) !! waiter old
           = Some (Rejected (Js.newError "Login cancelled - new login started"))
        /\ timers (snd out) !! timeout old = None
        /\ (forall l, (channelId, l) ∈ map_to_list (pendingLogins (snd out)) <-> l = created)
        /\ promises (snd out) !! waiter created = Some Waiting
        /\ timers (snd out) !! timeout created
           = Some {| tm_channel := channelId; tm_promise := waiter created |}).
Proof.
  split.
  - intros channelId w out v created. subst out.
    rewrite startLogin_result. cbn [fst snd pendingAuths set_pendingAuths].
    split; [eauto|]. intros p. rewrite elem_of_map_to_list, lookup_insert_eq.
    split; [intros [= <-]; reflexivity|intros ->; reflexivity].
  - intros channelId w old Hold Hwait Hw Ht out created. subst out created.
    destruct (handleLogin_replaces channelId w old Hold Hwait) as [j ->].
    cbn. repeat split.
    + rewrite lookup_insert_ne by lia. apply lookup_insert_eq.
    + rewrite lookup_insert_ne by lia. apply lookup_delete_eq.
    + rewrite elem_of_map_to_list, lookup_insert_eq. intros [= <-]. reflexivity.
    + intros ->. rewrite elem_of_map_to_list. apply lookup_insert_eq.
    + apply lookup_insert_eq.
    + apply lookup_insert_eq.
Qed.

(* ---------------------------------------------------------------------- *)
(** ** The authorization URL *)

Lemma b64url_digit_safe n : Node.form_safe (Node.b64url_digit n) = true.
Proof.
  unfold Node.b64url_digit.
  assert (H : (N.to_nat (n mod 64) < 64)%nat).
  { pose proof (N.mod_upper_bound n 64). lia. }
  revert H. generalize (N.to_nat (n mod 64)). intros k H.
  do 64 (destruct k as [|k]; [reflexivity|]). lia.
Qed.

Lemma form_encode_safe s : all_safe s -> Node.form_encode s = s.
Proof.
  induction s as [|c t IH]; cbn; [reflexivity|].
  intros [Hc Ht]. rewrite Hc, IH by exact Ht. reflexivity.
Qed.

Lemma base64url_safe bytes : all_safe (Node.base64url bytes).
Proof.
  assert (H : forall n b, (String.length b <= n)%nat -> all_safe (Node.base64url b)).
  { induction n as [|n IH]; intros b Hlen.
    - destruct b; cbn in *; [exact I|lia].
    - destruct b as [|a [|b' [|c t]]]; cbn [Node.base64url all_safe].
      + exact I.
      + auto using b64url_digit_safe.
      + auto using b64url_digit_safe.
      + repeat split; try apply b64url_digit_safe.
        apply IH. cbn in Hlen. lia. }
  apply (H (String.length bytes)). lia.
Qed.

Lemma form_encode_base64url bytes :
  Node.form_encode (Node.base64url bytes) = Node.base64url bytes.
Proof. apply form_encode_safe, base64url_safe. Qed.

(** C10. The [state] parameter of the authorization URL that
    [startLogin] returns is the verifier stored for the channel, the
    secret itself, and [code_challenge] is the base64url text of the
    SHA-256 digest of that verifier; both stand in the URL as they are. *)
Theorem state_parameter_is_the_verifier (channelId : string) (w : World) :
  let out := OAuth.startLogin channelId w in
  exists p,
    pendingAuths (snd out) !! channelId = Some p
    /\ challenge p = Node.base64url (sha256 (outside w) (verifier p))
    /\ fst out
       = Ret (OAuth.AUTHORIZE_URL ++ "?"
              ++ Node.URLSearchParams_toString (OAuth.authParams (verifier p) (challenge p)))
    /\ last (OAuth.authParams (verifier p) (challenge p)) = Some ("state", verifier p)
    /\ fst out
       = Ret ("https://claude.ai/oauth/authorize?code=true"
              ++ "&client_id=9d1c250a-e61b-44d9-88ed-5944d1962f5e"
              ++ "&response_type=code"
              ++ "&redirect_uri=https%3A%2F%2Fconsole.anthropic.com%2Foauth%2Fcode%2Fcallback"
              ++ "&scope=org%3Acreate_api_key+user%3Aprofile+user%3Ainference"
              ++ "&code_challenge=" ++ challenge p
              ++ "&code_challenge_method=S256"
              ++ "&state=" ++ verifier p).
Proof.
  intros out. subst out. rewrite startLogin_result.
  cbn [fst snd pendingAuths set_pendingAuths].
  eexists. split; [apply lookup_insert_eq|].
  cbn [verifier challenge].
  split; [reflexivity|]. split; [reflexivity|]. split; [reflexivity|].
  f_equal.
  cbn [Node.URLSearchParams_toString OAuth.authParams].
  rewrite !form_encode_base64url.
  reflexivity.
Qed.

(* ---------------------------------------------------------------------- *)
(** ** Where a message goes *)

















Lemma postMessage_pendingAuths channel text : keeps pendingAuths (Slack.postMessage channel text).
Proof. keeps_go plain. Qed.

Lemma hasPendingAuth_world channelId w :
  snd (OAuth.hasPendingAuth channelId w)
  = match pendingAuths w !! channelId with
    | Some p =>
        if OAuth.expired (Obs.now w) p
        then set_pendingAuths (delete channelId (pendingAuths w)) (clock_read w)
        else clock_read w
    | None => w
    end.
Proof.
  unfold OAuth.hasPendingAuth, OAuth.forget, Obs.now, bind, gets, Date_now, gets, modify.
  cbn. destruct (pendingAuths w !! channelId) as [p|]; cbn; [|reflexivity].
  destruct (OAuth.expired _ p); reflexivity.
Qed.

(** In the world in which a branch is entered, the pending authentication
    that exists is still stored, and nothing has been requested. *)
Lemma entered_frame event w :
  outside (Obs.entered event w) = outside w
  /\ journal (Obs.entered event w) = journal w
  /\ cfg (Obs.entered event w) = cfg w
  /\ (Obs.pending_exists (ev_channel event) w = true ->
      pendingAuths (Obs.entered event w) = pendingAuths w).
Proof.
  unfold Obs.entered. rewrite hasPendingAuth_world.
  destruct (getState_frame (ev_channel event) w) as (Ho & Hc & Hj & Hp & _).
  pose proof (getState_clock (ev_channel event) w) as Hn.
  set (w1 := snd (Handler.getState (ev_channel event) w)) in *.
  unfold Obs.pending_exists, Obs.now. rewrite Hp, Ho, Hj, Hn.
  destruct (pendingAuths w !! ev_channel event) as [p|]; [|auto].
  destruct (OAuth.expired _ p); cbn; auto.
  repeat split; auto. discriminate.
Qed.







Lemma try_catch_returns {S A} (m : ST S A) (h : Js.Err -> ST S A) :
  (forall e s, exists a, fst (h e s) = Ret a) ->
  forall s, exists a, fst (try_catch m h s) = Ret a.
Proof.
  intros Hh s. unfold try_catch. destruct (m s) as [[a|e] s']; [eauto|apply Hh].
Qed.





Lemma tryCompleteLogin_result channelId text w :
  let out := Auth.tryCompleteLogin channelId text w in
  fst out = Ret (bool_decide (is_Some (pendingLogins w !! channelId))
                 && Js.includes text "#" && negb (Js.startsWith text "/"))
  /\ (Js.includes text "#" = false -> snd out = w).
Proof.
  unfold Auth.tryCompleteLogin, bind, gets. cbn.
  destruct (pendingLogins w !! channelId) as [l|] eqn:E; cbn.
  - destruct (Js.includes text "#"); cbn; [|auto].
    destruct (Js.startsWith text "/"); cbn; split; auto; discriminate.
  - auto.
Qed.


(* ---------------------------------------------------------------------- *)
(** ** The context window *)

Section Window.

Import ContextWindow.
Local Open Scope list_scope.

Variable estimateTokens : string -> Z.

Local Abbreviation cost := (estimateEntry estimateTokens).
Local Abbreviation sum := (total estimateTokens).
Local Abbreviation gather := (accumulate estimateTokens).

Lemma total_cons e l : sum (e :: l) = (cost e + sum l)%Z.
Proof. reflexivity. Qed.

Lemma total_app l1 l2 : sum (l1 ++ l2) = (sum l1 + sum l2)%Z.
Proof.
  induction l1 as [|e l1 IH]; [reflexivity|].
  rewrite <- app_comm_cons, !total_cons, IH. lia.
Qed.

Lemma total_rev l : sum (rev l) = sum l.
Proof.
  induction l as [|e l IH]; [reflexivity|].
  cbn [rev]. rewrite total_app, !total_cons, IH. cbn. lia.
Qed.

(** What was gathered is a prefix of the newest-first walk. *)
Lemma accumulate_prefix available sofar l :
  exists rest, l = gather available sofar l ++ rest.
Proof.
  revert sofar. induction l as [|e l IH]; intros sofar; cbn.
  - exists []. reflexivity.
  - destruct (sofar + cost e <=? available)%Z.
    + destruct (IH (sofar + cost e)%Z) as [rest Hrest].
      exists rest. cbn. congruence.
    + exists (e :: l). reflexivity.
Qed.

(** The running total stays within the budget at every entry taken. *)
Lemma accumulate_within available sofar l k :
  (1 <= k <= length (gather available sofar l))%nat ->
  (sofar + sum (firstn k (gather available sofar l)) <= available)%Z.
Proof.
  revert sofar k. induction l as [|e l IH]; intros sofar k Hk; cbn [accumulate] in *;
    [cbn in Hk; lia|].
  destruct (sofar + cost e <=? available)%Z eqn:E; [|cbn in Hk; lia].
  apply Z.leb_le in E. cbn [length] in Hk.
  destruct k as [|k]; [lia|]. cbn [firstn]. rewrite total_cons.
  destruct k as [|k].
  - rewrite firstn_O. change (sum []) with 0%Z. lia.
  - specialize (IH (sofar + cost e)%Z (S k)). lia.
Qed.

(** The walk stops at the first entry that would exceed the budget. *)
Lemma accumulate_stops available sofar l e rest :
  l = gather available sofar l ++ e :: rest ->
  (sofar + sum (gather available sofar l) + cost e > available)%Z.
Proof.
  revert sofar. induction l as [|x l IH]; intros sofar H; cbn [accumulate] in *.
  - discriminate.
  - destruct (sofar + cost x <=? available)%Z eqn:E.
    + rewrite <- app_comm_cons in H. injection H as H. specialize (IH _ H).
      rewrite total_cons. lia.
    + cbn [app] in H. injection H as -> _. apply Z.leb_gt in E.
      change (sum []) with 0%Z. lia.
Qed.

Lemma rev_cons_inv {A} (l : list A) x rest :
  rev l = x :: rest -> l = rev rest ++ [x].
Proof. intros H. rewrite <- (rev_involutive l), H. reflexivity. Qed.

(** C2. For every log and every budget the window that [build] selects
    is a suffix of the log, in the log's order: what is dropped is
    exactly what is older.  The entries are those gathered from the
    newest backward, reversed back; while they were gathered the running
    total stayed within [availableForHistory], and the newest dropped
    entry is the first that would have exceeded it.  The one exception in
    the total is the marked window of a newest entry that alone exceeds
    the budget. *)
Theorem window_is_suffix_of_log (log : list LogEntry) (b : ContextBudget) :
  let r := build estimateTokens log b in
  let available := availableForHistory b in
  exists dropped,
    log = dropped ++ selected r
    /\ length dropped = droppedCount r
    /\ selected r = rev (firstn (length (selected r)) (rev log))
    /\ (marked r = false ->
        (forall k, (1 <= k <= length (selected r))%nat ->
                   (sum (firstn k (rev log)) <= available)%Z)
        /\ (forall older e, dropped = older ++ [e] ->
                            (sum (selected r) + cost e > available)%Z))
    /\ (marked r = true ->
        exists newest, selected r = [newest] /\ (cost newest > available)%Z).
Proof.
  intros r available. subst r. unfold build. fold available.
  destruct (accumulate_prefix available 0 (rev log)) as [rest Hrest].
  set (taken := gather available 0 (rev log)) in *.
  assert (Hlog : log = rev rest ++ rev taken).
  { rewrite <- rev_app_distr, <- Hrest. symmetry. apply rev_involutive. }
  assert (Hlen : (length log = length rest + length taken)%nat).
  { rewrite Hlog at 1. rewrite length_app, !length_rev. reflexivity. }
  assert (Htake : firstn (length taken) (rev log) = taken).
  { rewrite Hrest. rewrite firstn_app, Nat.sub_diag, firstn_all. cbn. apply app_nil_r. }
  assert (Hgeneral :
    exists dropped,
      log = dropped ++ rev taken
      /\ length dropped = (length log - length taken)%nat
      /\ rev taken = rev (firstn (length (rev taken)) (rev log))
      /\ (false = false ->
          (forall k, (1 <= k <= length (rev taken))%nat ->
                     (sum (firstn k (rev log)) <= available)%Z)
          /\ (forall older e, dropped = older ++ [e] ->
                              (sum (rev taken) + cost e > available)%Z))
      /\ (false = true ->
          exists newest, rev taken = [newest] /\ (cost newest > available)%Z)).
  { exists (rev rest). split; [exact Hlog|]. split; [rewrite length_rev; lia|].
    split; [rewrite length_rev, Htake; reflexivity|].
    split; [|discriminate]. intros _. split.
    - intros k Hk. rewrite length_rev in Hk.
      pose proof (accumulate_within available 0 (rev log) k Hk) as H.
      fold taken in H. rewrite <- Htake in H.
      rewrite firstn_firstn in H. replace (Nat.min k (length taken)) with k in H by lia.
      lia.
    - intros older e Hd.
      assert (Hr : rest = e :: rev older).
      { rewrite <- (rev_involutive rest), Hd, rev_app_distr. reflexivity. }
      pose proof (accumulate_stops available 0 (rev log) e (rev older)) as H.
      fold taken in H. rewrite <- Hr in H. specialize (H Hrest).
      rewrite total_rev. lia. }
  destruct taken as [|t ts] eqn:Et; [|exact Hgeneral].
  destruct (rev log) as [|newest others] eqn:El; [exact Hgeneral|].
  cbn [selected marked droppedCount length].
  pose proof (rev_cons_inv _ _ _ El) as Hsplit.
  exists (rev others). split; [exact Hsplit|].
  assert (HL : length log = S (length others)).
  { rewrite Hsplit, length_app, length_rev. cbn. lia. }
  split; [rewrite length_rev; lia|].
  split; [reflexivity|].
  split; [discriminate|]. intros _. exists newest. split; [reflexivity|].
  assert (Hstop : gather available 0 (newest :: others) = []).
  { exact Et. }
  cbn in Hstop. destruct (0 + cost newest <=? available)%Z eqn:E; [discriminate|].
  apply Z.leb_gt in E. lia.
Qed.

End Window.

(* ---------------------------------------------------------------------- *)
(** ** Deleting what a run posted *)

(** The thread messages are asked to be deleted one by one; what the
    platform answers to one has no effect on the next. *)
Lemma delete_each_runs channel l c w :
  exists w',
    Ctx.delete_each channel l (c, w) = (Ret tt, (c, w'))
    /\ outside w' = outside w
    /\ journal w' = (journal w ++ deletions channel l)%list.
Proof.
  revert w. induction l as [|ts older IH]; intros w; cbn [Ctx.delete_each deletions map].
  - exists w. cbn. rewrite app_nil_r. auto.
  - unfold bind at 1.
    assert (Hone : exists w1,
               try_catch (Ctx.liftW (Slack.deleteMessage channel ts)) (fun _ => ret tt) (c, w)
               = (Ret tt, (c, w1))
               /\ outside w1 = outside w
               /\ journal w1 = (journal w ++ [SlackDeleteMessage channel ts])%list).
    { unfold try_catch, Ctx.liftW, Slack.deleteMessage, Slack.call, bind, emit, modify, ask, gets.
      cbn. destruct (slack_api (outside w) _); cbn; eauto. }
    destruct Hone as (w1 & -> & Ho & Hj).
    destruct (IH w1) as (w' & Hrun & Ho' & Hj').
    exists w'. split; [exact Hrun|]. split; [congruence|].
    rewrite Hj', Hj, <- app_assoc. reflexivity.
Qed.

(** X1. On a chain that no earlier operation has left rejected,
    [deleteMessage] asks for the deletion of every tracked thread message,
    latest first and whatever the platform answers to each, then for the
    deletion of the primary message; the thread handles are cleared, and
    the primary handle is cleared once its deletion went through.  Only a
    failure of the primary deletion is thrown.  With nothing posted it
    asks for nothing and returns. *)
Theorem deleteMessage_on_fulfilled_chain (event : SlackEvent) (c : SlackContext) (w : World) :
  updatePromise c = Ret tt ->
  let out := Ctx.deleteMessage event (c, w) in
  let threads := deletions (ev_channel event) (rev (threadMessageTs c)) in
  threadMessageTs (fst (snd out)) = []
  /\ match Js.truthy (messageTs c) with
     | Some ts =>
         journal (snd (snd out))
         = (journal w ++ threads ++ [SlackDeleteMessage (ev_channel event) ts])%list
         /\ (fst out = Ret tt -> messageTs (fst (snd out)) = None)
         /\ (forall e, fst out = Throw e ->
                       slack_api (outside w) (journal (snd (snd out))) = Throw e)
     | None =>
         journal (snd (snd out)) = (journal w ++ threads)%list
         /\ fst out = Ret tt
     end.
Proof.
  intros Hchain out threads.
  destruct (delete_each_runs (ev_channel event) (rev (threadMessageTs c)) c w)
    as (w1 & Hrun & Ho & Hj).
  assert (Hout :
    out = match Js.truthy (messageTs c) with
          | Some ts =>
              match slack_api (outside w)
                      (journal w ++ threads ++ [SlackDeleteMessage (ev_channel event) ts])
              with
              | Ret _ =>
                  (Ret tt,
                   (Ctx.set_messageTs None (Ctx.set_threadMessageTs [] c),
                    set_journal
                      (journal w ++ threads ++ [SlackDeleteMessage (ev_channel event) ts]) w1))
              | Throw e =>
                  (Throw e,
                   (Ctx.set_updatePromise (Throw e) (Ctx.set_threadMessageTs [] c),
                    set_journal
                      (journal w ++ threads ++ [SlackDeleteMessage (ev_channel event) ts]) w1))
              end
          | None => (Ret tt, (Ctx.set_threadMessageTs [] c, w1))
          end).
  { subst out threads. unfold Ctx.deleteMessage, Ctx.enqueue. cbn [fst snd]. rewrite Hchain.
    unfold bind at 1. unfold Ctx.getc at 1, gets at 1. cbn beta iota. cbn [fst].
    unfold bind at 1. rewrite Hrun.
    unfold bind at 1. unfold Ctx.modc at 1, modify at 1. cbn beta iota. cbn [fst snd].
    unfold bind at 1. unfold Ctx.getc at 1, gets at 1. cbn beta iota.
    cbn [fst Ctx.set_threadMessageTs messageTs].
    destruct (Js.truthy (messageTs c)) as [ts|]; [|reflexivity].
    unfold Ctx.liftW, Slack.deleteMessage, Slack.call, bind, emit, modify, ask, gets, Ctx.modc,
      modify. cbn. rewrite Ho, Hj, <- app_assoc.
    destruct (slack_api (outside w) _) as [r|e]; reflexivity. }
  rewrite Hout. clear Hout out.
  destruct (Js.truthy (messageTs c)) as [ts|].
  - destruct (slack_api (outside w) _) as [r|e] eqn:E; cbn.
    + repeat split; auto. discriminate.
    + repeat split; auto; [discriminate|].
      intros e' [= <-]. exact E.
  - cbn. auto.
Qed.

(** X2. Once an operation of the adapter has failed, the chain is rejected:
    every later operation on the chain, [deleteMessage] among them, is
    skipped and throws the old error again, and nothing changes. *)
Theorem rejected_chain_skips_operations
  (event : SlackEvent) (c : SlackContext) (w : World) (e : Js.Err) (task : MA unit) :
  updatePromise c = Throw e ->
  Ctx.enqueue task (c, w) = (Throw e, (c, w))
  /\ Ctx.deleteMessage event (c, w) = (Throw e, (c, w)).
Proof.
  intros H. unfold Ctx.deleteMessage, Ctx.enqueue. cbn [fst]. rewrite H. auto.
Qed.

(** A task that throws leaves the chain rejected with what it threw. *)
Lemma failed_task_rejects_chain (task : MA unit) s e s' :
  updatePromise (fst s) = Ret tt ->
  task s = (Throw e, s') ->
  updatePromise (fst (snd (Ctx.enqueue task s))) = Throw e.
Proof.
  intros Hc Ht. unfold Ctx.enqueue. rewrite Hc, Ht. reflexivity.
Qed.

(* ---------------------------------------------------------------------- *)
(** ** The theorems at work *)

Lemma boot_idle o : Obs.all_idle (Sample.boot o).
Proof. intros channelId. unfold Obs.is_running. cbn. rewrite lookup_empty. reflexivity. Qed.

(** A run that is stopped ends idle, and so does a sequence of a message,
    a stop request and a command. *)
Lemma running_flag_cleared_witness :
  Obs.is_running "C1"
    (snd (Handler.handleEvent (Sample.say "C1" "hello") false (Sample.boot Sample.stopper)))
  = false
  /\ Obs.all_idle
       (snd (Handler.deliver_all
               [Handler.Message (Sample.say "C1" "hello") false;
                Handler.Stop "C1";
                Handler.Message (Sample.say "C1" "/auth") false]
               (Sample.boot Sample.crashing))).
Proof.
  split.
  - apply (proj1 running_flag_cleared). vm_compute. reflexivity.
  - apply (proj2 running_flag_cleared). apply boot_idle.
Defined.

(** An overloaded agent: the handler returns, the warning is the last
    entry of the journal. *)
Lemma run_error_swallowed_witness :
  let event := Sample.say "C1" "hello" in
  let w := Sample.boot Sample.crashing in
  let out := Handler.handleEvent event false w in
  (fst out = Ret tt /\ Obs.is_running "C1" (snd out) = false)
  /\ last (journal (snd out)) = Some (LogWarning "[C1] Run error" "overloaded").
Proof.
  intros event w out. split.
  - apply (proj1 run_error_swallowed event false w). vm_compute. reflexivity.
  - pose proof (proj1 (proj2 run_error_swallowed) event false w (Js.newError "overloaded")
                  (snd (Handler.run_until_result event false (Obs.channelDir event w)
                          (snd (Handler.begin_run event (Obs.entered event w))))))
      as H.
    cbv zeta in H. destruct H as [H _]; [vm_compute; reflexivity ..|].
    subst out. rewrite H. rewrite last_snoc. reflexivity.
Defined.



(** A token endpoint that answers 400 "invalid_grant" to the pasted
    code: the failure carries the body, nothing is written, the entry is
    gone. *)
Lemma failed_exchange_is_reported_witness :
  let w := Sample.logging_in Sample.refusing in
  let out := OAuth.completeLogin "C1" "abc#def" "/data" w in
  (exists result,
      fst out = Ret result
      /\ OAuth.success result = false
      /\ OAuth.error result = Some "Token exchange failed: invalid_grant")
  /\ fs (snd out) = fs w
  /\ pendingAuths (snd out) !! "C1" = None.
Proof.
  intros w out.
  destruct (failed_exchange_is_reported w "C1" "abc#def" "/data" (Sample.pending_of "C1" w))
    as ((result & Hres & Hs & He) & Hfs & Hpending).
  - vm_compute. reflexivity.
  - vm_compute. reflexivity.
  - fold out in Hres, Hfs, Hpending.
    split; [exists result; split; [exact Hres|]; split; [exact Hs|]|].
    + rewrite He. vm_compute. reflexivity.
    + split; [exact Hfs|]. rewrite Hpending. apply lookup_delete_eq.
Defined.


(** A second [/login] of the waiting kind: the first flow's promise 0 is
    rejected, its timer 1 is gone, and the channel holds the new entry. *)
Lemma one_pending_authentication_per_channel_witness :
  let w := snd (Auth.handleLogin "C1" (Sample.boot Sample.calm)) in
  let out := Auth.handleLogin "C1" w in
  promises (snd out) !! 0%nat
  = Some (Rejected (Js.newError "Login cancelled - new login started"))
  /\ timers (snd out) !! 1%nat = None
  /\ pendingLogins (snd out) !! "C1" = Some {| waiter := 2; timeout := 3 |}.
Proof.
  intros w out.
  destruct (proj2 one_pending_authentication_per_channel "C1" w {| waiter := 0; timeout := 1 |})
    as (_ & Hrejected & Hcleared & Hentry & _).
  - vm_compute. reflexivity.
  - vm_compute. reflexivity.
  - vm_compute. lia.
  - vm_compute. lia.
  - fold out in Hrejected, Hcleared, Hentry.
    split; [exact Hrejected|]. split; [exact Hcleared|].
    apply elem_of_map_to_list, Hentry. reflexivity.
Defined.

(** [/logout] in a working directory that holds credentials. *)
Lemma logout_overwrites_credentials_witness :
  fs (snd (Handler.handleEvent (Sample.say "C1" "/logout") false Sample.logged_in))
  !! "/data/.mom/oauth.json"
  = Some (FileEntry "{}" 384).
Proof.
  apply (logout_overwrites_credentials (Sample.say "C1" "/logout") false Sample.logged_in
           "{anthropic:acc}" 384); vm_compute; reflexivity.
Defined.

(* ---------------------------------------------------------------------- *)
(** ** The adapter after a failed operation *)

(** C8, at the inputs where the code departs from it.  A primary message
    and a thread message are posted, then an edit is refused: from then
    on the chain is rejected, and [deleteMessage] asks the platform for
    nothing, keeps both handles, and throws the error of the refused
    edit.  And when nothing was ever posted because the platform could
    not be reached for the first post, [deleteMessage] throws as well. *)
Lemma deleteMessage_skipped_after_failure :
  let event := Sample.say "C1" "hello" in
  (let s1 := snd (Ctx.respond event "a" true (Ctx.fresh, Sample.boot Sample.no_edits)) in
   let s2 := snd (Ctx.respondInThread event "b" s1) in
   let s3 := snd (Ctx.respond event "c" true s2) in
   let out := Ctx.deleteMessage event s3 in
   messageTs (fst s3) = Some "ts1"
   /\ threadMessageTs (fst s3) = ["ts3"]
   /\ fst out = Throw (Js.newError "ratelimited")
   /\ Obs.slack_calls (journal (snd (snd out)))
      = [SlackPostMessage "C1" "a ...";
         SlackPostInThread "C1" "ts1" "b";
         SlackUpdateMessage "C1" "ts1" ("a" ++ Js.nl ++ "c ...")]
   /\ messageTs (fst (snd out)) = Some "ts1"
   /\ threadMessageTs (fst (snd out)) = ["ts3"])
  /\ (let s1 := snd (Ctx.respond event "a" true (Ctx.fresh, Sample.boot Sample.unreachable)) in
      let out := Ctx.deleteMessage event s1 in
      messageTs (fst s1) = None
      /\ threadMessageTs (fst s1) = []
      /\ journal (snd s1) = [SlackPostMessage "C1" "a ..."]
      /\ fst out = Throw (Js.newError "fetch failed")).
Proof. vm_compute. repeat split. Qed.

(** On the fulfilled chain of the same adapter before the refused edit,
    both messages are deleted, the thread message first. *)
Lemma deleteMessage_on_fulfilled_chain_witness :
  let event := Sample.say "C1" "hello" in
  let s1 := snd (Ctx.respond event "a" true (Ctx.fresh, Sample.boot Sample.no_edits)) in
  let s2 := snd (Ctx.respondInThread event "b" s1) in
  let out := Ctx.deleteMessage event s2 in
  journal (snd (snd out))
  = (journal (snd s2) ++ [SlackDeleteMessage "C1" "ts3"; SlackDeleteMessage "C1" "ts1"])%list
  /\ threadMessageTs (fst (snd out)) = [].
Proof.
  intros event s1 s2 out.
  pose proof (deleteMessage_on_fulfilled_chain event (fst s2) (snd s2)) as H.
  cbv zeta in H.
  assert (Hts : Js.truthy (messageTs (fst s2)) = Some "ts1") by (vm_compute; reflexivity).
  rewrite Hts in H.
  destruct H as (Hthreads & Hjournal & _); [vm_compute; reflexivity|].
  assert (Hs : (fst s2, snd s2) = s2) by (destruct s2; reflexivity).
  rewrite Hs in Hthreads, Hjournal. fold out in Hthreads, Hjournal.
  split; [|exact Hthreads].
  rewrite Hjournal. vm_compute. reflexivity.
Defined.

Lemma rejected_chain_skips_operations_witness :
  let event := Sample.say "C1" "hello" in
  let s1 := snd (Ctx.respond event "a" true (Ctx.fresh, Sample.boot Sample.unreachable)) in
  Ctx.deleteMessage event (fst s1, snd s1)
  = (Throw (Js.newError "fetch failed"), (fst s1, snd s1)).
Proof.
  intros event s1.
  apply (rejected_chain_skips_operations event (fst s1) (snd s1) (Js.newError "fetch failed")
           (ret tt)).
  vm_compute. reflexivity.
Defined.

(* ---------------------------------------------------------------------- *)
(** ** The credential file *)

Lemma is_dir_lookup tree p :
  View.is_dir tree p = true -> exists md, tree !! p = Some (DirEntry md).
Proof.
  unfold View.is_dir. destruct (tree !! p) as [[content md|md]|]; try discriminate. eauto.
Qed.

(** With the [.mom] directory in place, [getOAuthPath] only names the
    file. *)
Lemma getOAuthPath_ready workingDir w :
  View.is_dir (fs w) (View.momDir workingDir) = true ->
  OAuth.getOAuthPath workingDir w = (Ret (Obs.credentialPath workingDir), w).
Proof.
  intros H. apply is_dir_lookup in H as [md H].
  unfold OAuth.getOAuthPath, Node.existsSync, bind, gets. cbn.
  unfold View.momDir in H. rewrite H.
  rewrite bool_decide_eq_true_2 by eauto. reflexivity.
Qed.

(** What [loadCredentials] finds, by what is at the path. *)
Lemma loadCredentials_cases workingDir w :
  View.is_dir (fs w) (View.momDir workingDir) = true ->
  OAuth.loadCredentials workingDir w
  = match fs w !! Obs.credentialPath workingDir with
    | None => (Ret None, w)
    | Some (FileEntry content _) =>
        match JSON_parse_anthropic (outside w) content with
        | Ret found => (Ret found, w)
        | Throw e =>
            (Ret None,
             set_journal
               (journal w ++ [ConsoleError ("Failed to load OAuth credentials: " ++ Js.show e)])
               w)
        end
    | Some (DirEntry _) =>
        (Ret None,
         set_journal
           (journal w
            ++ [ConsoleError
                  ("Failed to load OAuth credentials: "
                   ++ Js.show (Js.newError "EISDIR: illegal operation on a directory, read"))])
           w)
    end.
Proof.
  intros H. unfold OAuth.loadCredentials.
  unfold bind at 1. rewrite (getOAuthPath_ready _ _ H).
  unfold bind at 1. unfold Node.existsSync at 1, gets at 1. cbn beta iota.
  destruct (fs w !! Obs.credentialPath workingDir) as [[content md|md]|] eqn:E.
  - rewrite bool_decide_eq_true_2 by eauto. cbn [negb].
    unfold try_catch, Node.readFileSync, bind, get, gets, emit, modify. cbn beta iota.
    rewrite E. cbn.
    destruct (JSON_parse_anthropic (outside w) content); reflexivity.
  - rewrite bool_decide_eq_true_2 by eauto. cbn [negb].
    unfold try_catch, Node.readFileSync, bind, get, gets, emit, modify. cbn beta iota.
    rewrite E. reflexivity.
  - rewrite bool_decide_eq_false_2 by (intros [? ?]; discriminate). reflexivity.
Qed.

(** [saveCredentials] with the directory in place and no directory in the
    way of the file. *)
Lemma saveCredentials_writes workingDir credentials w :
  View.is_dir (fs w) (View.momDir workingDir) = true ->
  View.is_dir (fs w) (Obs.credentialPath workingDir) = false ->
  OAuth.saveCredentials workingDir credentials w
  = (Ret tt,
     set_fs (<[Obs.credentialPath workingDir :=
                 FileEntry (JSON_stringify_credentials (outside w) credentials) 384]> (fs w)) w).
Proof.
  intros Hdir Hfile. unfold OAuth.saveCredentials.
  unfold bind at 1. rewrite (getOAuthPath_ready _ _ Hdir).
  unfold bind at 1, gets at 1. cbn beta iota.
  unfold Node.writeFileSync, Node.chmodSync, bind, get, modify. cbn beta iota.
  unfold View.is_dir in Hfile.
  destruct (fs w !! Obs.credentialPath workingDir) as [[content md|md]|] eqn:E;
    [|discriminate|]; cbn; rewrite lookup_insert_eq; cbn;
    unfold set_fs; cbn; rewrite insert_insert_eq; reflexivity.
Qed.

(* ---------------------------------------------------------------------- *)
(** ** How long a login is pending *)

Lemma expired_after now created v c :
  negb (OAuth.expired now {| verifier := v; challenge := c; createdAt := created |})
  = (now - created <=? 600000)%Z.
Proof.
  unfold OAuth.expired, OAuth.AUTH_TIMEOUT_MS. cbn [createdAt].
  change (10 * 60 * 1000)%Z with 600000%Z.
  rewrite Z.leb_antisym. reflexivity.
Qed.

(** X3. A login that [startLogin] has started is pending for ten
    minutes, the last millisecond included.  As long as the channel's
    entry is the one stored then, [hasPendingAuth] answers true exactly
    when no more than 600000 ms have passed since the start, and when it
    answers false it has dropped the entry. *)
Theorem pending_authentication_lasts_ten_minutes (channelId : string) (w w2 : World) :
  let w1 := snd (OAuth.startLogin channelId w) in
  pendingAuths w2 !! channelId = pendingAuths w1 !! channelId ->
  let out := OAuth.hasPendingAuth channelId w2 in
  let pending := (Obs.now w2 - Obs.now w <=? 600000)%Z in
  fst out = Ret pending
  /\ pendingAuths (snd out) !! channelId
     = if pending then pendingAuths w1 !! channelId else None.
Proof.
  intros w1 Hsame out pending. subst w1 out.
  rewrite startLogin_result in Hsame |- *. cbn [snd pendingAuths set_pendingAuths] in Hsame |- *.
  rewrite lookup_insert_eq in Hsame |- *.
  rewrite hasPendingAuth_ret, hasPendingAuth_world. cbn [fst snd].
  unfold Obs.pending_exists. rewrite Hsame.
  pose proof (expired_after (Obs.now w2) (Obs.now w)
                (Node.base64url (entropy (outside w) (journal w ++ [RandomBytes 32])))
                (Node.base64url
                   (sha256 (outside w)
                      (Node.base64url (entropy (outside w) (journal w ++ [RandomBytes 32]))))))
    as Hexp.
  fold pending in Hexp.
  destruct (OAuth.expired (Obs.now w2) _); cbn [negb] in Hexp; rewrite <- Hexp; cbn [negb].
  - split; [reflexivity|]. cbn. apply lookup_delete_eq.
  - split; [reflexivity|]. exact Hsame.
Qed.

(** X4. [startLogin] for one channel cleans up behind every other: an
    entry of another channel survives exactly when it is not older than
    ten minutes at that moment, and it survives unchanged. *)
Theorem startLogin_drops_outdated_entries (channelId other : string) (w : World) :
  other <> channelId ->
  pendingAuths (snd (OAuth.startLogin channelId w)) !! other
  = match pendingAuths w !! other with
    | Some p => if OAuth.expired (Obs.now w) p then None else Some p
    | None => None
    end.
Proof.
  intros Hne. rewrite startLogin_result. cbn [snd pendingAuths set_pendingAuths].
  rewrite lookup_insert_ne by congruence.
  destruct (pendingAuths w !! other) as [p|] eqn:E.
  - destruct (OAuth.expired (Obs.now w) p) eqn:Hexp.
    + apply map_lookup_filter_None_2. right. intros q Hq. cbn. congruence.
    + apply map_lookup_filter_Some_2; [exact E|exact Hexp].
  - apply map_lookup_filter_None_2. left. exact E.
Qed.

(* ---------------------------------------------------------------------- *)
(** ** Credentials: saved, loaded, removed *)

Lemma round53_exact x : (Z.abs x <= 2 ^ 53)%Z -> Js.round53 x = x.
Proof.
  intros H. unfold Js.round53. apply Z.leb_le in H. rewrite H. reflexivity.
Qed.

(** Within the range in which doubles hold every integer, the expiry is
    computed exactly. *)
Lemma expiresAt_exact now lifetime :
  (0 <= now)%Z -> (0 <= lifetime)%Z -> (now + lifetime * 1000 <= 2 ^ 53)%Z ->
  OAuth.expiresAt now lifetime = (now + lifetime * 1000 - 300000)%Z.
Proof.
  intros Hnow Hlife Hsum. unfold OAuth.expiresAt, Js.plus, Js.minus, Js.times.
  change (Js.round53 (Js.round53 (5 * 60) * 1000)) with 300000%Z.
  change (2 ^ 53)%Z with 9007199254740992%Z in Hsum.
  rewrite (round53_exact (lifetime * 1000))
    by (change (2 ^ 53)%Z with 9007199254740992%Z; lia).
  rewrite (round53_exact (now + lifetime * 1000))
    by (change (2 ^ 53)%Z with 9007199254740992%Z; lia).
  apply round53_exact. change (2 ^ 53)%Z with 9007199254740992%Z. lia.
Qed.

(** X5. A token exchange that succeeds ends the login: credentials with
    the tokens of the answer are written to the credential file, the
    file is readable by its owner only, the channel's pending entry is
    gone, the clock has been read twice, and nothing else changes.  For
    a clock after 1970 and a lifetime that is not negative, whose sum in
    milliseconds stays within 2^53, where the doubles of the code hold
    every integer, the expiry written is five minutes before the end of
    the lifetime, counted from the second reading of the clock. *)
Theorem successful_exchange_saves_credentials
  (w : World) (channelId authCode workingDir : string) (p : PendingAuth)
  (response : HttpResponse) (tokenData : TokenData) :
  pendingAuths w !! channelId = Some p ->
  OAuth.expired (Obs.now w) p = false ->
  Obs.exchange_answer w authCode p = Ret response ->
  ok response = true ->
  body_json response = Ret tokenData ->
  View.is_dir (fs w) (View.momDir workingDir) = true ->
  View.is_dir (fs w) (Obs.credentialPath workingDir) = false ->
  let asked := (journal w ++ [FetchToken (OAuth.tokenRequest authCode p)])%list in
  let now' := date_now (outside w) asked (S (clock_reads w)) in
  exists credentials,
    OAuth.completeLogin channelId authCode workingDir w
    = (Ret {| OAuth.success := true; OAuth.error := None |},
       set_pendingAuths (delete channelId (pendingAuths w))
         (set_fs (<[Obs.credentialPath workingDir :=
                      FileEntry (JSON_stringify_credentials (outside w) credentials) 384]> (fs w))
            (set_journal asked (clock_read (clock_read w)))))
    /\ refresh credentials = refresh_token tokenData
    /\ access credentials = access_token tokenData
    /\ ((0 <= now')%Z -> (0 <= expires_in tokenData)%Z ->
        (now' + expires_in tokenData * 1000 <= 2 ^ 53)%Z ->
        expires credentials = (now' + expires_in tokenData * 1000 - 300000)%Z).
Proof.
  intros Hp Hexp Hanswer Hok Hjson Hdir Hfile asked now'.
  exists {| refresh := refresh_token tokenData; access := access_token tokenData;
            expires := OAuth.expiresAt now' (expires_in tokenData) |}.
  split; [|split; [reflexivity|split; [reflexivity|apply expiresAt_exact]]].
  unfold OAuth.completeLogin. unfold bind at 1, gets at 1. cbn beta iota. rewrite Hp.
  unfold bind at 1. rewrite Date_now_run.
  rewrite Hexp. unfold try_catch, OAuth.fetchToken.
  unfold bind at 1. unfold bind at 1. unfold emit at 1, modify at 1. cbn beta iota.
  unfold bind at 1. unfold ask at 1, gets at 1. cbn beta iota.
  cbn [outside journal set_journal clock_read set_clock_reads]. fold asked.
  unfold Obs.exchange_answer in Hanswer. fold asked in Hanswer. rewrite Hanswer.
  cbn [settle ret].
  unfold OAuth.useTokenResponse. rewrite Hok, Hjson. cbn [negb settle].
  unfold bind at 1. unfold ret at 1.
  unfold bind at 1. rewrite Date_now_run.
  unfold bind at 1.
  rewrite saveCredentials_writes by exact Hdir || exact Hfile.
  reflexivity.
Qed.

(** X6. What [saveCredentials] has written, [loadCredentials] reads
    back, and [isLoggedIn] is true, when the JSON parser reads what the
    JSON printer wrote; the file is left with mode 0600 whatever its mode
    was.  Reading changes nothing. *)
Theorem saved_credentials_are_loaded
  (workingDir : string) (credentials : OAuthCredentials) (w : World) :
  View.is_dir (fs w) (View.momDir workingDir) = true ->
  View.is_dir (fs w) (Obs.credentialPath workingDir) = false ->
  JSON_parse_anthropic (outside w) (JSON_stringify_credentials (outside w) credentials)
  = Ret (Some credentials) ->
  let w1 := snd (OAuth.saveCredentials workingDir credentials w) in
  fs w1 !! Obs.credentialPath workingDir
  = Some (FileEntry (JSON_stringify_credentials (outside w) credentials) 384)
  /\ OAuth.loadCredentials workingDir w1 = (Ret (Some credentials), w1)
  /\ OAuth.isLoggedIn workingDir w1 = (Ret true, w1).
Proof.
  intros Hdir Hfile Hjson w1. subst w1.
  rewrite saveCredentials_writes by assumption. cbn [snd].
  set (w1 := set_fs _ w).
  assert (Hstored : fs w1 !! Obs.credentialPath workingDir
                    = Some (FileEntry (JSON_stringify_credentials (outside w) credentials) 384))
    by apply lookup_insert_eq.
  assert (Hdir1 : View.is_dir (fs w1) (View.momDir workingDir) = true).
  { unfold View.is_dir in *. subst w1. cbn [fs set_fs].
    destruct (decide (Obs.credentialPath workingDir = View.momDir workingDir)) as [Heq|Hne].
    - rewrite Heq in Hfile. rewrite Hfile in Hdir. discriminate.
    - rewrite lookup_insert_ne by exact Hne. exact Hdir. }
  assert (Hload : OAuth.loadCredentials workingDir w1 = (Ret (Some credentials), w1)).
  { rewrite (loadCredentials_cases _ _ Hdir1), Hstored.
    change (outside w1) with (outside w). rewrite Hjson. reflexivity. }
  split; [exact Hstored|]. split; [exact Hload|].
  unfold OAuth.isLoggedIn. unfold bind. rewrite Hload. reflexivity.
Qed.

Lemma removeCredentials_cases workingDir w :
  View.is_dir (fs w) (View.momDir workingDir) = true ->
  OAuth.removeCredentials workingDir w
  = match fs w !! Obs.credentialPath workingDir with
    | None => (Ret tt, w)
    | Some (FileEntry _ md) =>
        (Ret tt, set_fs (<[Obs.credentialPath workingDir := FileEntry "{}" md]> (fs w)) w)
    | Some (DirEntry _) =>
        (Throw (Js.newError "EISDIR: illegal operation on a directory, open"), w)
    end.
Proof.
  intros H. unfold OAuth.removeCredentials.
  unfold bind at 1. rewrite (getOAuthPath_ready _ _ H).
  unfold bind at 1. unfold Node.existsSync at 1, gets at 1. cbn beta iota.
  destruct (fs w !! Obs.credentialPath workingDir) as [[content md|md]|] eqn:E.
  - rewrite bool_decide_eq_true_2 by eauto.
    unfold when, Node.writeFileSync, bind, get, modify. cbn beta iota. rewrite E. reflexivity.
  - rewrite bool_decide_eq_true_2 by eauto.
    unfold when, Node.writeFileSync, bind, get, modify. cbn beta iota. rewrite E. reflexivity.
  - rewrite bool_decide_eq_false_2 by (intros [? ?]; discriminate). reflexivity.
Qed.

Lemma isLoggedIn_false workingDir w :
  View.is_dir (fs w) (View.momDir workingDir) = true ->
  View.no_credentials_at workingDir w ->
  fst (OAuth.isLoggedIn workingDir w) = Ret false.
Proof.
  intros Hdir Hno. unfold OAuth.isLoggedIn, bind.
  rewrite (loadCredentials_cases _ _ Hdir).
  unfold View.no_credentials_at in Hno.
  destruct (fs w !! Obs.credentialPath workingDir) as [[content md|md]|]; try reflexivity.
  rewrite Hno. reflexivity.
Qed.

Lemma is_dir_insert_file tree p q content md :
  View.is_dir tree p = true ->
  View.is_dir tree q = false ->
  View.is_dir (<[q := FileEntry content md]> tree) p = true.
Proof.
  intros Hp Hq. unfold View.is_dir in *.
  destruct (decide (q = p)) as [->|Hne].
  - rewrite Hq in Hp. discriminate.
  - rewrite lookup_insert_ne by exact Hne. exact Hp.
Qed.

(** X7. After [/logout] the bot does not count as logged in: whatever
    was at the credential path, [isLoggedIn] is false afterwards, the
    empty record holding no credentials. *)
Theorem logout_ends_the_login (event : SlackEvent) (isEvent : bool) (w : World) :
  Obs.is_logout (Js.trim (ev_text event)) = true ->
  View.is_dir (fs w) (View.momDir (workingDir (cfg w))) = true ->
  JSON_parse_anthropic (outside w) "{}" = Ret None ->
  let w1 := snd (Handler.handleEvent event isEvent w) in
  fst (OAuth.isLoggedIn (workingDir (cfg w)) w1) = Ret false.
Proof.
  intros Hcmd Hdir Hempty w1. subst w1. rewrite handleEvent_dispatch. cbv zeta.
  assert (Hnot : String.eqb (Js.trim (ev_text event)) "/login"
                 || String.eqb (Js.trim (ev_text event)) "/login anthropic" = false).
  { unfold Obs.is_logout in Hcmd.
    apply orb_true_iff in Hcmd as [H|H]; apply String.eqb_eq in H; rewrite H; reflexivity. }
  rewrite Hnot. unfold Obs.is_logout in Hcmd. rewrite Hcmd.
  destruct (getState_frame (ev_channel event) w) as (Ho & _ & _ & _ & Hfs).
  set (w0 := snd (Handler.getState (ev_channel event) w)) in *.
  set (dir := workingDir (cfg w)) in *.
  rewrite <- Hfs in Hdir. rewrite <- Ho in Hempty.
  assert (Hpost : forall s,
             fs (snd ((Slack.postMessage (ev_channel event) "✓ Logged out of Anthropic";;
                       ret tt) s)) = fs s
             /\ outside (snd ((Slack.postMessage (ev_channel event) "✓ Logged out of Anthropic";;
                               ret tt) s)) = outside s).
  { intros s. split.
    - assert (Hk : keeps fs (Slack.postMessage (ev_channel event) "✓ Logged out of Anthropic";;
                             ret tt)) by keeps_go plain.
      apply Hk.
    - assert (Hk : keeps outside
                     (Slack.postMessage (ev_channel event) "✓ Logged out of Anthropic";;
                      ret tt)) by keeps_go plain.
      apply Hk. }
  unfold Handler.onLogout. unfold bind at 1.
  rewrite (removeCredentials_cases _ _ Hdir).
  destruct (fs w0 !! Obs.credentialPath dir) as [[content md|md]|] eqn:E.
  - destruct (Hpost (set_fs (<[Obs.credentialPath dir := FileEntry "{}" md]> (fs w0)) w0))
      as [Hf Hout].
    apply isLoggedIn_false.
    + rewrite Hf. cbn [fs set_fs]. apply is_dir_insert_file; [exact Hdir|].
      unfold View.is_dir. rewrite E. reflexivity.
    + unfold View.no_credentials_at. rewrite Hf, Hout. cbn [fs set_fs outside].
      rewrite lookup_insert_eq. exact Hempty.
  - cbn [snd]. apply isLoggedIn_false; [exact Hdir|].
    unfold View.no_credentials_at. rewrite E. exact I.
  - destruct (Hpost w0) as [Hf Hout].
    apply isLoggedIn_false.
    + rewrite Hf. exact Hdir.
    + unfold View.no_credentials_at. rewrite Hf, E. exact I.
Qed.

(** X8. [loadCredentials] never throws and writes nothing.  It gives
    credentials only when the file is there and parses into them, and
    then it leaves the world as it was; a file that cannot be read or
    parsed gives no credentials and one line on the console. *)
Theorem loadCredentials_never_throws (workingDir : string) (w : World) :
  View.is_dir (fs w) (View.momDir workingDir) = true ->
  exists found w',
    OAuth.loadCredentials workingDir w = (Ret found, w')
    /\ (w' = w
        \/ found = None
           /\ exists msg,
               w' = set_journal
                      (journal w ++ [ConsoleError ("Failed to load OAuth credentials: " ++ msg)])
                      w)
    /\ forall credentials,
         found = Some credentials ->
         w' = w
         /\ exists content md,
             fs w !! Obs.credentialPath workingDir = Some (FileEntry content md)
             /\ JSON_parse_anthropic (outside w) content = Ret (Some credentials).
Proof.
  intros Hdir. rewrite (loadCredentials_cases _ _ Hdir).
  destruct (fs w !! Obs.credentialPath workingDir) as [[content md|md]|] eqn:E.
  - destruct (JSON_parse_anthropic (outside w) content) as [found|e] eqn:Hparse.
    + exists found, w. split; [reflexivity|]. split; [auto|].
      intros credentials ->. split; [reflexivity|]. eauto.
    + eexists None, _. split; [reflexivity|]. split; [right; eauto|]. discriminate.
  - eexists None, _. split; [reflexivity|]. split; [right; eauto|]. discriminate.
  - exists None, w. split; [reflexivity|]. split; [auto|]. discriminate.
Qed.

(* ---------------------------------------------------------------------- *)
(** ** The access token and its refresh *)

Lemma loadCredentials_stored workingDir w content md credentials :
  View.is_dir (fs w) (View.momDir workingDir) = true ->
  fs w !! Obs.credentialPath workingDir = Some (FileEntry content md) ->
  JSON_parse_anthropic (outside w) content = Ret (Some credentials) ->
  OAuth.loadCredentials workingDir w = (Ret (Some credentials), w).
Proof.
  intros Hdir Hfile Hparse. rewrite (loadCredentials_cases _ _ Hdir), Hfile, Hparse.
  reflexivity.
Qed.

(** X9. [getOAuthToken] answers from the credential file.  With no
    file it gives nothing; with credentials that have not reached their
    expiry it gives the stored access token; in both cases the token
    endpoint is not contacted and nothing changes, but that with
    credentials the clock has been read.  From the stored expiry on,
    that instant included, it hands over to [refreshToken]. *)
Theorem getOAuthToken_answers_from_the_file
  (fetch : OAuth.RefreshRequest -> M HttpResponse) (workingDir : string) (w : World) :
  View.is_dir (fs w) (View.momDir workingDir) = true ->
  (fs w !! Obs.credentialPath workingDir = None ->
   OAuth.getOAuthToken fetch workingDir w = (Ret None, w))
  /\ (forall content md credentials,
        fs w !! Obs.credentialPath workingDir = Some (FileEntry content md) ->
        JSON_parse_anthropic (outside w) content = Ret (Some credentials) ->
        OAuth.getOAuthToken fetch workingDir w
        = if (Obs.now w <? expires credentials)%Z
          then (Ret (Some (access credentials)), clock_read w)
          else OAuth.refreshToken fetch workingDir (clock_read w)).
Proof.
  intros Hdir. split.
  - intros Hnone. unfold OAuth.getOAuthToken, bind.
    rewrite (loadCredentials_cases _ _ Hdir), Hnone. reflexivity.
  - intros content md credentials Hfile Hparse.
    unfold OAuth.getOAuthToken. unfold bind at 1.
    rewrite (loadCredentials_stored _ _ _ _ _ Hdir Hfile Hparse).
    unfold bind at 1. rewrite Date_now_run.
    rewrite Z.ltb_antisym.
    destruct (expires credentials <=? Obs.now w)%Z; reflexivity.
Qed.

(** The refresh with credentials in the file: the request carries the
    stored refresh token. *)
Lemma refreshToken_stored fetch workingDir w content md credentials :
  View.is_dir (fs w) (View.momDir workingDir) = true ->
  fs w !! Obs.credentialPath workingDir = Some (FileEntry content md) ->
  JSON_parse_anthropic (outside w) content = Ret (Some credentials) ->
  OAuth.refreshToken fetch workingDir w
  = match fetch {| OAuth.rr_refresh_token := refresh credentials |} w with
    | (Throw e, w2) =>
        (Ret None,
         set_journal (journal w2 ++ [ConsoleError ("Token refresh error: " ++ Js.show e)]) w2)
    | (Ret response, w2) =>
        if ok response then
          match body_json response with
          | Ret tokenData =>
              let newCredentials :=
                {| refresh := refresh_token tokenData;
                   access := access_token tokenData;
                   expires := OAuth.expiresAt (Obs.now w2) (expires_in tokenData) |} in
              match OAuth.saveCredentials workingDir newCredentials (clock_read w2) with
              | (Ret _, w3) => (Ret (Some (access_token tokenData)), w3)
              | (Throw e, w3) =>
                  (Ret None,
                   set_journal
                     (journal w3 ++ [ConsoleError ("Token refresh error: " ++ Js.show e)]) w3)
              end
          | Throw e =>
              (Ret None,
               set_journal (journal w2 ++ [ConsoleError ("Token refresh error: " ++ Js.show e)])
                 w2)
          end
        else
          match body_text response with
          | Ret error =>
              (Ret None,
               set_journal (journal w2 ++ [ConsoleError ("Token refresh failed: " ++ error)]) w2)
          | Throw e =>
              (Ret None,
               set_journal (journal w2 ++ [ConsoleError ("Token refresh error: " ++ Js.show e)])
                 w2)
          end
    end.
Proof.
  intros Hdir Hfile Hparse. unfold OAuth.refreshToken. unfold bind at 1.
  rewrite (loadCredentials_stored _ _ _ _ _ Hdir Hfile Hparse).
  unfold try_catch. unfold bind at 1.
  destruct (fetch _ w) as [[response|e] w2]; [|reflexivity].
  destruct (ok response); cbn [negb].
  - destruct (body_json response) as [tokenData|e]; [|reflexivity].
    unfold bind at 1. cbn [settle ret].
    unfold bind at 1. rewrite Date_now_run.
    unfold bind at 1. cbn zeta.
    destruct (OAuth.saveCredentials _ _ (clock_read w2)) as [[[]|e] w3]; reflexivity.
  - destruct (body_text response) as [error|e]; reflexivity.
Qed.

(** X10. What a refresh leaves behind.  A refresh that fails (the
    request throws, or the endpoint answers outside 2xx) costs nothing:
    [refreshToken] gives no token, writes one line to the console and
    leaves everything else, the credential file included, as the request
    left it.  A refresh that succeeds replaces the credentials: the file
    holds the tokens of the answer, its mode is 0600, the clock has been
    read, and the new access token is the result.  For a clock after
    1970 and a lifetime that is not negative, whose sum in milliseconds
    stays within 2^53, where the doubles of the code hold every integer,
    the expiry written is five minutes before the end of the lifetime. *)
Theorem refresh_keeps_or_replaces_credentials
  (fetch : OAuth.RefreshRequest -> M HttpResponse) (workingDir : string) (w w2 : World)
  (content : string) (md : N) (credentials : OAuthCredentials) (answer : Res HttpResponse) :
  View.is_dir (fs w) (View.momDir workingDir) = true ->
  fs w !! Obs.credentialPath workingDir = Some (FileEntry content md) ->
  JSON_parse_anthropic (outside w) content = Ret (Some credentials) ->
  fetch {| OAuth.rr_refresh_token := refresh credentials |} w = (answer, w2) ->
  (Obs.exchange_fails answer ->
   exists msg,
     OAuth.refreshToken fetch workingDir w
     = (Ret None, set_journal (journal w2 ++ [ConsoleError msg]) w2))
  /\ (forall response tokenData,
        answer = Ret response ->
        ok response = true ->
        body_json response = Ret tokenData ->
        fs w2 = fs w ->
        exists newCredentials,
          OAuth.refreshToken fetch workingDir w
          = (Ret (Some (access_token tokenData)),
             set_fs (<[Obs.credentialPath workingDir :=
                         FileEntry (JSON_stringify_credentials (outside w2) newCredentials) 384]>
                       (fs w2))
               (clock_read w2))
          /\ refresh newCredentials = refresh_token tokenData
          /\ access newCredentials = access_token tokenData
          /\ ((0 <= Obs.now w2)%Z -> (0 <= expires_in tokenData)%Z ->
              (Obs.now w2 + expires_in tokenData * 1000 <= 2 ^ 53)%Z ->
              expires newCredentials
              = (Obs.now w2 + expires_in tokenData * 1000 - 300000)%Z)).
Proof.
  intros Hdir Hfile Hparse Hfetch.
  rewrite (refreshToken_stored _ _ _ _ _ _ Hdir Hfile Hparse), Hfetch.
  split.
  - intros Hfail. destruct answer as [response|e]; [|eauto].
    cbn in Hfail. rewrite Hfail.
    destruct (body_text response); eauto.
  - intros response tokenData -> Hok Hjson Hfs.
    exists {| refresh := refresh_token tokenData; access := access_token tokenData;
              expires := OAuth.expiresAt (Obs.now w2) (expires_in tokenData) |}.
    split; [|split; [reflexivity|split; [reflexivity|apply expiresAt_exact]]].
    rewrite Hok, Hjson. cbv zeta.
    rewrite saveCredentials_writes.
    + reflexivity.
    + cbn [fs clock_read set_clock_reads]. rewrite Hfs. exact Hdir.
    + cbn [fs clock_read set_clock_reads]. rewrite Hfs. unfold View.is_dir. rewrite Hfile.
      reflexivity.
Qed.

Lemma loadCredentials_returns workingDir w :
  View.is_dir (fs w) (View.momDir workingDir) = true ->
  exists found w', OAuth.loadCredentials workingDir w = (Ret found, w') /\ fs w' = fs w.
Proof.
  intros Hdir. rewrite (loadCredentials_cases _ _ Hdir).
  destruct (fs w !! Obs.credentialPath workingDir) as [[content md|md]|]; eauto.
  destruct (JSON_parse_anthropic (outside w) content); eauto.
Qed.

(** X11. Looking for a token never throws: whatever the token endpoint
    and the HTTP client do, and whatever is in the credential file,
    [refreshToken] and [getOAuthToken] return, with a token or with
    nothing. *)
Theorem token_lookup_never_throws
  (fetch : OAuth.RefreshRequest -> M HttpResponse) (workingDir : string) (w : World) :
  View.is_dir (fs w) (View.momDir workingDir) = true ->
  (exists token, fst (OAuth.refreshToken fetch workingDir w) = Ret token)
  /\ (exists token, fst (OAuth.getOAuthToken fetch workingDir w) = Ret token).
Proof.
  intros Hdir.
  assert (Hrefresh : forall w0,
             View.is_dir (fs w0) (View.momDir workingDir) = true ->
             exists token, fst (OAuth.refreshToken fetch workingDir w0) = Ret token).
  { intros w0 Hdir0. unfold OAuth.refreshToken. unfold bind at 1.
    destruct (loadCredentials_returns workingDir w0 Hdir0) as (found & w' & -> & _).
    destruct found as [credentials|]; [|eauto].
    apply try_catch_returns. intros e s. eauto. }
  split; [apply Hrefresh, Hdir|].
  unfold OAuth.getOAuthToken. unfold bind at 1.
  destruct (loadCredentials_returns workingDir w Hdir) as (found & w' & -> & Hw').
  destruct found as [credentials|]; [|eauto].
  unfold bind at 1. rewrite Date_now_run.
  destruct (_ <=? _)%Z; [|eauto].
  apply Hrefresh. cbn [fs clock_read set_clock_reads]. rewrite Hw'. exact Hdir.
Qed.

(* ---------------------------------------------------------------------- *)
(** ** The pasted code *)

Lemma split_free c s : View.free_of c s = true -> Js.split c s = [s].
Proof.
  induction s as [|a t IH]; simpl; [reflexivity|].
  intros H. apply andb_true_iff in H as [Ha Ht]. apply negb_true_iff in Ha.
  rewrite Ha, (IH Ht). reflexivity.
Qed.

Lemma split_at c a b :
  View.free_of c a = true -> Js.split c (a ++ String c b) = a :: Js.split c b.
Proof.
  induction a as [|x t IH]; simpl.
  - intros _. rewrite Ascii.eqb_refl. reflexivity.
  - intros H. apply andb_true_iff in H as [Hx Ht]. apply negb_true_iff in Hx.
    rewrite Hx, (IH Ht). reflexivity.
Qed.

(** X12. How the pasted text is read: trimmed, then cut at [#].  What
    stands before the first [#] is the code, what stands between the
    first and the second is the state, and what follows a second [#] is
    dropped; a text without [#] is all code and the request carries no
    state.  The verifier is always the stored one. *)
Theorem pasted_code_is_split_at_hash (authCode code state : string) (p : PendingAuth) :
  View.free_of "#" code = true ->
  View.free_of "#" state = true ->
  (forall more,
     Js.trim authCode = code ++ "#" ++ state ++ more ->
     more = "" \/ (exists rest, more = "#" ++ rest) ->
     OAuth.tokenRequest authCode p
     = {| tr_code := code; tr_state := Some state; tr_code_verifier := verifier p |})
  /\ (Js.trim authCode = code ->
      OAuth.tokenRequest authCode p
      = {| tr_code := code; tr_state := None; tr_code_verifier := verifier p |}).
Proof.
  intros Hcode Hstate. split.
  - intros more Htext Hmore. unfold OAuth.tokenRequest. rewrite Htext.
    change (code ++ "#" ++ state ++ more) with (code ++ String "#" (state ++ more)).
    rewrite (split_at _ _ _ Hcode).
    destruct Hmore as [->|[rest ->]].
    + assert (Hs : state ++ "" = state).
      { clear. induction state as [|a t IH]; [reflexivity|].
        change (String a t ++ "") with (String a (t ++ "")). rewrite IH. reflexivity. }
      rewrite Hs, (split_free _ _ Hstate). reflexivity.
    + change (state ++ "#" ++ rest) with (state ++ String "#" rest).
      rewrite (split_at _ _ _ Hstate). reflexivity.
  - intros Htext. unfold OAuth.tokenRequest. rewrite Htext, (split_free _ _ Hcode).
    reflexivity.
Qed.

(* ---------------------------------------------------------------------- *)
(** ** The login that waits on a promise *)

(** X13. A login that a new [/login] supersedes ends without a word.
    [handleLogin] first cancels the flow already pending in the channel:
    its timer is cleared, its entry dropped, and its promise rejected
    with an error that the [catch] clause of [handleLogin] passes over,
    so that nothing is logged and nothing is posted for the old flow. *)
Theorem superseded_login_ends_silently (channelId : string) (w : World) (old : PendingLogin) :
  pendingLogins w !! channelId = Some old ->
  promises w !! waiter old = Some Waiting ->
  let w1 := snd (Auth.cancelExisting channelId w) in
  exists e,
    promises w1 !! waiter old = Some (Rejected e)
    /\ timers w1 !! timeout old = None
    /\ pendingLogins w1 !! channelId = None
    /\ forall w', Auth.handleLogin_settled channelId (Throw e) w' = (Ret tt, w').
Proof.
  intros Hold Hwait w1.
  assert (Hw1 : w1 = set_pendingLogins (delete channelId (pendingLogins w))
                       (set_promises
                          (<[waiter old := Rejected (Js.newError
                                                       "Login cancelled - new login started")]>
                             (promises w))
                          (set_timers (delete (timeout old) (timers w)) w))).
  { subst w1. unfold Auth.cancelExisting, Auth.clearTimeout, Auth.settle_promise, Auth.forget,
      bind, gets, modify. cbn. rewrite Hold. cbn. rewrite Hwait. reflexivity. }
  exists (Js.newError "Login cancelled - new login started"). rewrite Hw1. cbn.
  split; [apply lookup_insert_eq|]. split; [apply lookup_delete_eq|].
  split; [apply lookup_delete_eq|]. intros w'. reflexivity.
Qed.

Lemma tryCompleteLogin_none channelId text w :
  pendingLogins w !! channelId = None ->
  Auth.tryCompleteLogin channelId text w = (Ret false, w).
Proof.
  intros H. unfold Auth.tryCompleteLogin, bind, gets. cbn. rewrite H. reflexivity.
Qed.

(** X14. A login that times out is reported.  When the timer of a
    waiting login fires, the promise is rejected, the channel's entry and
    the timer are gone, and a code pasted afterwards is no longer taken;
    the error is one that the [catch] clause of [handleLogin] logs and
    posts as a failed login. *)
Theorem timed_out_login_is_reported (t : nat) (timer : Timer) (w : World) :
  timers w !! t = Some timer ->
  promises w !! tm_promise timer = Some Waiting ->
  let w1 := snd (Auth.onTimeout t w) in
  let e := Js.newError "Login timed out after 10 minutes" in
  promises w1 !! tm_promise timer = Some (Rejected e)
  /\ pendingLogins w1 !! tm_channel timer = None
  /\ timers w1 !! t = None
  /\ (forall text, Auth.tryCompleteLogin (tm_channel timer) text w1 = (Ret false, w1))
  /\ forall channelId w',
       journal (snd (Auth.handleLogin_settled channelId (Throw e) w'))
       = (journal w'
          ++ [LogWarning ("[" ++ channelId ++ "] OAuth login failed")
                         "Login timed out after 10 minutes";
              SlackPostMessage channelId
                ("✗ Login failed: " ++ "Login timed out after 10 minutes")])%list.
Proof.
  intros Htimer Hwait w1 e.
  assert (Hw1 : w1 = set_promises (<[tm_promise timer := Rejected e]> (promises w))
                       (set_pendingLogins (delete (tm_channel timer) (pendingLogins w))
                          (set_timers (delete t (timers w)) w))).
  { subst w1. unfold Auth.onTimeout, Auth.clearTimeout, Auth.forget, Auth.settle_promise,
      bind, gets, modify. cbn. rewrite Htimer. cbn. rewrite Hwait. reflexivity. }
  assert (Hgone : pendingLogins w1 !! tm_channel timer = None).
  { rewrite Hw1. cbn. apply lookup_delete_eq. }
  split; [rewrite Hw1; cbn; apply lookup_insert_eq|].
  split; [exact Hgone|].
  split; [rewrite Hw1; cbn; apply lookup_delete_eq|].
  split; [intros text; apply tryCompleteLogin_none, Hgone|].
  intros channelId w'. subst e.
  unfold Auth.handleLogin_settled, Js.message_of, Js.newError.
  assert (Hinc : Js.includes "Login timed out after 10 minutes" "cancelled" = false)
    by (vm_compute; reflexivity).
  rewrite Hinc. cbn [negb when].
  unfold Log.logWarning, Slack.postMessage, Slack.call, bind, emit, modify, ask, gets. cbn.
  destruct (slack_api (outside w') _); cbn; rewrite <- app_assoc; reflexivity.
Qed.

(** X15. A login that a pasted code has resolved stays resolved.  The
    waiting promise gets the trimmed text; the timer is cleared, so its
    firing does nothing; a later rejection of the promise does nothing;
    and a second paste is not taken. *)
Theorem resolved_login_is_final (channelId text : string) (w : World) (l : PendingLogin) :
  pendingLogins w !! channelId = Some l ->
  promises w !! waiter l = Some Waiting ->
  Obs.reads_as_code text = true ->
  let out := Auth.tryCompleteLogin channelId text w in
  let w1 := snd out in
  fst out = Ret true
  /\ promises w1 !! waiter l = Some (Resolved (Js.trim text))
  /\ Auth.onTimeout (timeout l) w1 = (Ret tt, w1)
  /\ (forall e, Auth.settle_promise (waiter l) (Rejected e) w1 = (Ret tt, w1))
  /\ forall text', Auth.tryCompleteLogin channelId text' w1 = (Ret false, w1).
Proof.
  intros Hl Hwait Hcode out w1.
  assert (Hout : out = (Ret true,
                        set_promises (<[waiter l := Resolved (Js.trim text)]> (promises w))
                          (set_pendingLogins (delete channelId (pendingLogins w))
                             (set_timers (delete (timeout l) (timers w)) w)))).
  { subst out. unfold Auth.tryCompleteLogin, Auth.clearTimeout, Auth.forget,
      Auth.settle_promise, bind, gets, modify. cbn. rewrite Hl.
    unfold Obs.reads_as_code in Hcode. rewrite Hcode. cbn. rewrite Hwait. reflexivity. }
  subst w1. rewrite Hout. cbn [fst snd].
  set (w1 := set_promises _ _).
  assert (Hp : promises w1 !! waiter l = Some (Resolved (Js.trim text)))
    by (subst w1; cbn; apply lookup_insert_eq).
  split; [reflexivity|]. split; [exact Hp|]. split; [|split].
  - unfold Auth.onTimeout, bind, gets. cbn. rewrite lookup_delete_eq. reflexivity.
  - intros e. unfold Auth.settle_promise, modify. rewrite Hp. reflexivity.
  - intros text'. apply tryCompleteLogin_none. subst w1. cbn. apply lookup_delete_eq.
Qed.

Lemma tryCompleteLogin_unchanged channelId text w :
  fst (Auth.tryCompleteLogin channelId text w) = Ret false ->
  snd (Auth.tryCompleteLogin channelId text w) = w.
Proof.
  unfold Auth.tryCompleteLogin, bind, gets. cbn.
  destruct (pendingLogins w !! channelId) as [l|]; [|reflexivity].
  destruct (Js.includes text "#" && negb (Js.startsWith text "/")); [|reflexivity].
  cbn. discriminate.
Qed.

Lemma then_true_not_false {A} (m : M A) w : fst ((m;; ret true) w) <> Ret false.
Proof. unfold bind. destruct (m w) as [[a|e] w']; cbn; discriminate. Qed.

(** X16. [tryHandleCommand] leaves to the agent exactly the text that
    is none of the six commands and no code for a login that waits, and
    what it leaves to the agent it has not touched: nothing is sent and
    nothing is changed. *)
Theorem unhandled_text_changes_nothing (channelId rawText : string) (w : World) :
  let text := Js.trim rawText in
  let out := Commands.tryHandleCommand channelId rawText w in
  (fst out = Ret false <->
   Obs.is_command text = false
   /\ bool_decide (is_Some (pendingLogins w !! channelId)) && Obs.reads_as_code text = false)
  /\ (fst out = Ret false -> snd out = w).
Proof.
  intros text out. subst out. unfold Commands.tryHandleCommand. fold text.
  unfold Obs.is_command.
  destruct (String.eqb text "/login" || String.eqb text "/login anthropic") eqn:E1;
    cbn [orb].
  { split; [split|]; intros H.
    - exfalso. exact (then_true_not_false _ _ H).
    - destruct H as [H _]. discriminate.
    - exfalso. exact (then_true_not_false _ _ H). }
  destruct (String.eqb text "/logout" || String.eqb text "/logout anthropic") eqn:E2;
    cbn [orb].
  { split; [split|]; intros H.
    - exfalso. exact (then_true_not_false _ _ H).
    - destruct H as [H _]. discriminate.
    - exfalso. exact (then_true_not_false _ _ H). }
  destruct (String.eqb text "/auth-status" || String.eqb text "/auth") eqn:E3;
    cbn [orb].
  { split; [split|]; intros H.
    - exfalso. exact (then_true_not_false _ _ H).
    - destruct H as [H _]. discriminate.
    - exfalso. exact (then_true_not_false _ _ H). }
  destruct (tryCompleteLogin_result channelId text w) as [Hres _].
  pose proof (tryCompleteLogin_unchanged channelId text w) as Hsame.
  unfold bind.
  destruct (Auth.tryCompleteLogin channelId text w) as [[completed|e] w'];
    cbn [fst snd] in *; [|discriminate].
  injection Hres as Hres. unfold Obs.reads_as_code. rewrite andb_assoc, <- Hres.
  destruct completed; cbn.
  - split; [split; [discriminate|intros [_ H]; discriminate]|discriminate].
  - split; [split; auto|]. intros _. apply Hsame. reflexivity.
Qed.

(* ---------------------------------------------------------------------- *)
(** ** The adapter: one message for a run *)

Lemma enqueue_run (task : MA unit) c w :
  updatePromise c = Ret tt ->
  Ctx.enqueue task (c, w)
  = match task (c, w) with
    | (Ret _, s') => (Ret tt, s')
    | (Throw e, s') => (Throw e, (Ctx.set_updatePromise (Throw e) (fst s'), snd s'))
    end.
Proof. intros H. unfold Ctx.enqueue. cbn [fst]. rewrite H. reflexivity. Qed.

Lemma enqueue_skipped (task : MA unit) c w e :
  updatePromise c = Throw e -> Ctx.enqueue task (c, w) = (Throw e, (c, w)).
Proof. intros H. unfold Ctx.enqueue. cbn [fst]. rewrite H. reflexivity. Qed.

(** What [show_primary] does when the primary message exists. *)
Lemma show_primary_edits event text c w ts :
  Js.truthy (messageTs c) = Some ts ->
  Ctx.show_primary event text (c, w)
  = match slack_api (outside w) (journal w ++ [SlackUpdateMessage (ev_channel event) ts text]) with
    | Ret _ =>
        (Ret tt, (c, set_journal (journal w ++ [SlackUpdateMessage (ev_channel event) ts text]) w))
    | Throw e =>
        (Throw e, (c, set_journal (journal w ++ [SlackUpdateMessage (ev_channel event) ts text]) w))
    end.
Proof.
  intros H. unfold Ctx.show_primary, Ctx.getc, bind, gets. cbn [fst]. rewrite H.
  unfold Ctx.liftW, Slack.updateMessage, Slack.call, bind, emit, modify, ask, gets. cbn.
  destruct (slack_api (outside w) _); reflexivity.
Qed.

Ltac nothing_added :=
  split; [reflexivity|]; exists []; split; [symmetry; apply app_nil_r|reflexivity].

Ltac these_added :=
  split; [reflexivity|]; eexists; split;
  [ cbn; rewrite <- ?app_assoc; reflexivity
  | cbn; rewrite ?String.eqb_refl; reflexivity ].

(** One operation on the primary message, made by the runner. *)
Lemma play_streams event isEvent a c w ts :
  Js.truthy (messageTs c) = Some ts ->
  View.streams a = true ->
  let s' := snd (Handler.play event isEvent a (c, w)) in
  messageTs (fst s') = messageTs c
  /\ exists added,
       journal (snd s') = (journal w ++ added)%list
       /\ forallb (View.on_message (ev_channel event) ts) added = true.
Proof.
  intros Hts Hstreams. cbv zeta.
  remember (Handler.play event isEvent a (c, w)) as out eqn:Hout.
  destruct a as [text shouldLog|text|text|isTyping|working|path title| |];
    try discriminate Hstreams; cbn [Handler.play] in Hout; unfold attempt in Hout.
  - (* respond *)
    unfold Ctx.respond in Hout.
    destruct (updatePromise c) as [[]|e] eqn:Hchain;
      [rewrite (enqueue_run _ _ _ Hchain) in Hout
      |rewrite (enqueue_skipped _ _ _ _ Hchain) in Hout; subst out; nothing_added].
    unfold bind at 1 in Hout. unfold Ctx.getc at 1, gets at 1 in Hout.
    cbn beta iota in Hout. cbn [fst] in Hout.
    unfold bind at 1 in Hout. unfold Ctx.modc at 1, modify at 1 in Hout.
    cbn beta iota in Hout. cbn [fst snd] in Hout.
    unfold bind at 1 in Hout. unfold Ctx.getc at 1, gets at 1 in Hout.
    cbn beta iota in Hout. cbn [fst] in Hout.
    unfold bind at 1 in Hout.
    rewrite show_primary_edits with (ts := ts) in Hout by exact Hts.
    destruct (slack_api (outside w) _) as [r|e].
    + unfold bind, Ctx.getc, gets in Hout.
      cbn [fst snd Ctx.set_accumulatedText messageTs] in Hout.
      rewrite Hts in Hout.
      destruct shouldLog; cbn in Hout; subst out; these_added.
    + cbn in Hout. subst out. these_added.
  - (* replaceMessage *)
    unfold Ctx.replaceMessage in Hout.
    destruct (updatePromise c) as [[]|e] eqn:Hchain;
      [rewrite (enqueue_run _ _ _ Hchain) in Hout
      |rewrite (enqueue_skipped _ _ _ _ Hchain) in Hout; subst out; nothing_added].
    unfold bind at 1 in Hout. unfold Ctx.modc at 1, modify at 1 in Hout.
    cbn beta iota in Hout. cbn [fst snd] in Hout.
    unfold bind at 1 in Hout. unfold Ctx.getc at 1, gets at 1 in Hout.
    cbn beta iota in Hout. cbn [fst] in Hout.
    rewrite show_primary_edits with (ts := ts) in Hout by exact Hts.
    destruct (slack_api (outside w) _) as [r|e]; cbn in Hout; subst out; these_added.
  - (* respondInThread *)
    unfold Ctx.respondInThread in Hout.
    destruct (updatePromise c) as [[]|e] eqn:Hchain;
      [rewrite (enqueue_run _ _ _ Hchain) in Hout
      |rewrite (enqueue_skipped _ _ _ _ Hchain) in Hout; subst out; nothing_added].
    unfold bind at 1 in Hout. unfold Ctx.getc at 1, gets at 1 in Hout.
    cbn beta iota in Hout. cbn [fst] in Hout. rewrite Hts in Hout.
    unfold Ctx.liftW, Ctx.modc, Slack.postInThread, Slack.call, bind, emit, modify, ask, gets
      in Hout.
    cbn in Hout.
    destruct (slack_api (outside w) _) as [r|e]; cbn in Hout; subst out; these_added.
  - (* setTyping *)
    unfold Ctx.setTyping, bind, Ctx.getc, gets in Hout. cbn [fst] in Hout. rewrite Hts in Hout.
    rewrite bool_decide_eq_true_2 in Hout by eauto. rewrite andb_false_r in Hout.
    cbn in Hout. subst out. nothing_added.
  - (* setWorking *)
    unfold Ctx.setWorking in Hout.
    destruct (updatePromise c) as [[]|e] eqn:Hchain;
      [rewrite (enqueue_run _ _ _ Hchain) in Hout
      |rewrite (enqueue_skipped _ _ _ _ Hchain) in Hout; subst out; nothing_added].
    unfold bind at 1 in Hout. unfold Ctx.modc at 1, modify at 1 in Hout.
    cbn beta iota in Hout. cbn [fst snd] in Hout.
    unfold bind at 1 in Hout. unfold Ctx.getc at 1, gets at 1 in Hout.
    cbn beta iota in Hout.
    cbn [fst Ctx.set_isWorking messageTs] in Hout. rewrite Hts in Hout.
    unfold Ctx.liftW, Slack.updateMessage, Slack.call, bind, emit, modify, ask, gets in Hout.
    cbn in Hout.
    destruct (slack_api (outside w) _) as [r|e]; cbn in Hout; subst out; these_added.
Qed.

(** X17. Once the primary message of a run exists, all that the runner
    streams goes to it: responses, replacements, thread replies, the
    typing and the working indicators never post a second message and
    never move the handle.  Every request they make is an edit of that
    message, a post into its thread, or the log line of a response shown
    in it. *)
Theorem primary_message_is_posted_once
  (event : SlackEvent) (isEvent : bool) (l : list RunAction)
  (c : SlackContext) (w : World) (ts : string) :
  Js.truthy (messageTs c) = Some ts ->
  forallb View.streams l = true ->
  let s' := snd (Handler.play_all event isEvent l (c, w)) in
  messageTs (fst s') = messageTs c
  /\ exists added,
       journal (snd s') = (journal w ++ added)%list
       /\ forallb (View.on_message (ev_channel event) ts) added = true.
Proof.
  intros Hts Hl. revert c w Hts.
  induction l as [|a rest IH]; intros c w Hts; cbn [Handler.play_all].
  - cbn. split; [reflexivity|]. exists []. split; [symmetry; apply app_nil_r|reflexivity].
  - cbn [forallb] in Hl. apply andb_true_iff in Hl as [Ha Hrest].
    destruct (play_streams event isEvent a c w ts Hts Ha) as (Hm & added & Hj & Hon).
    cbv zeta. unfold bind.
    assert (Hret : exists s1, Handler.play event isEvent a (c, w) = (Ret tt, s1)).
    { destruct a; cbn; unfold attempt, Ctx.liftW; cbn; eauto. }
    destruct Hret as [[c1 w1] Hplay]. rewrite Hplay in *. cbn [fst snd] in *.
    destruct (IH Hrest c1 w1) as (Hm' & added' & Hj' & Hon').
    { rewrite Hm. exact Hts. }
    cbv zeta in Hm', Hj'.
    split; [congruence|].
    exists (added ++ added')%list. split.
    + rewrite Hj', Hj, <- app_assoc. reflexivity.
    + rewrite forallb_app, Hon, Hon'. reflexivity.
Qed.

(** X18. [uploadFile] does not wait in the chain.  Whether the chain is
    fulfilled or rejected it sends its request, what the platform
    answers is its result, and it leaves the adapter, the chain
    included, as it was. *)
Theorem uploadFile_ignores_chain
  (event : SlackEvent) (path : string) (title : option string) (c : SlackContext) (w : World) :
  let request := SlackUploadFile (ev_channel event) path title (ev_thread_ts event) in
  let out := Ctx.uploadFile event path title (c, w) in
  fst (snd out) = c
  /\ journal (snd (snd out)) = (journal w ++ [request])%list
  /\ fst out = match slack_api (outside w) (journal w ++ [request]) with
               | Ret _ => Ret tt
               | Throw e => Throw e
               end.
Proof.
  intros request out. subst out request.
  unfold Ctx.uploadFile, Ctx.liftW, Slack.uploadFile, Slack.call, bind, emit, modify, ask, gets.
  cbn. destruct (slack_api (outside w) _); cbn; auto.
Qed.

(** X19. [respond] adds the text to what the message already shows,
    on a new line, also when the platform then refuses the request; it
    shows the whole, with the working indicator while the run is
    working, by editing the primary message or, when there is none yet,
    by posting it (into the thread of the triggering message when there
    is one); and it logs the new text alone, and only when logging is
    asked for and the message is there.  A refused request leaves the
    chain rejected. *)
Theorem respond_shows_all_text
  (event : SlackEvent) (text : string) (shouldLog : bool) (c : SlackContext) (w : World) :
  updatePromise c = Ret tt ->
  let out := Ctx.respond event text shouldLog (c, w) in
  let c' := fst (snd out) in
  let shown := Ctx.displayText c' in
  let request :=
    match Js.truthy (messageTs c), Js.truthy (ev_thread_ts event) with
    | Some ts, _ => SlackUpdateMessage (ev_channel event) ts shown
    | None, Some thread_ts => SlackPostInThread (ev_channel event) thread_ts shown
    | None, None => SlackPostMessage (ev_channel event) shown
    end in
  accumulatedText c'
  = (if String.eqb (accumulatedText c) "" then text else accumulatedText c ++ Js.nl ++ text)
  /\ isWorking c' = isWorking c
  /\ journal (snd (snd out))
     = (journal w
        ++ request
           :: match fst out, shouldLog, Js.truthy (messageTs c') with
              | Ret _, true, Some ts => [SlackLogBotResponse (ev_channel event) text ts]
              | _, _, _ => []
              end)%list
  /\ (forall e, fst out = Throw e -> updatePromise c' = Throw e).
Proof.
  intros Hchain. cbv zeta.
  remember (Ctx.respond event text shouldLog (c, w)) as out eqn:Hout.
  unfold Ctx.respond in Hout. rewrite (enqueue_run _ _ _ Hchain) in Hout.
  unfold bind at 1 in Hout. unfold Ctx.getc at 1, gets at 1 in Hout.
  cbn beta iota in Hout. cbn [fst] in Hout.
  unfold bind at 1 in Hout. unfold Ctx.modc at 1, modify at 1 in Hout.
  cbn beta iota in Hout. cbn [fst snd] in Hout.
  unfold bind at 1 in Hout. unfold Ctx.getc at 1, gets at 1 in Hout.
  cbn beta iota in Hout. cbn [fst] in Hout.
  unfold bind at 1 in Hout.
  set (all := if String.eqb (accumulatedText c) "" then text
              else accumulatedText c ++ Js.nl ++ text) in *.
  destruct (Js.truthy (messageTs c)) as [ts|] eqn:Hts.
  - rewrite show_primary_edits with (ts := ts) in Hout by exact Hts.
    destruct (slack_api (outside w) _) as [r|e].
    + unfold bind, Ctx.getc, gets in Hout.
      cbn [fst snd Ctx.set_accumulatedText messageTs] in Hout. rewrite Hts in Hout.
      destruct shouldLog; cbn in Hout; subst out; cbn; rewrite ?Hts;
        repeat split; rewrite <- ?app_assoc; try reflexivity; intros ? [=].
    + cbn in Hout. subst out. cbn. repeat split. intros e' [= <-]. reflexivity.
  - unfold Ctx.show_primary in Hout. unfold bind at 1 in Hout.
    unfold Ctx.getc at 1, gets at 1 in Hout. cbn beta iota in Hout.
    cbn [fst Ctx.set_accumulatedText messageTs] in Hout. rewrite Hts in Hout.
    destruct (Js.truthy (ev_thread_ts event)) as [thread_ts|].
    + unfold Ctx.liftW, Ctx.modc, Ctx.getc, Slack.postInThread, Slack.call, Slack.logBotResponse,
        bind, emit, modify, ask, gets in Hout.
      cbn in Hout.
      destruct (slack_api (outside w) _) as [r|e].
      * cbn in Hout.
        destruct shouldLog; [destruct (String.eqb r "") eqn:Hr|];
          cbn in Hout; subst out; cbn; rewrite ?Hr;
          repeat split; rewrite <- ?app_assoc; try reflexivity; intros ? [=].
      * cbn in Hout. subst out. cbn. repeat split. intros e' [= <-]. reflexivity.
    + unfold Ctx.liftW, Ctx.modc, Ctx.getc, Slack.postMessage, Slack.call, Slack.logBotResponse,
        bind, emit, modify, ask, gets in Hout.
      cbn in Hout.
      destruct (slack_api (outside w) _) as [r|e].
      * cbn in Hout.
        destruct shouldLog; [destruct (String.eqb r "") eqn:Hr|];
          cbn in Hout; subst out; cbn; rewrite ?Hr;
          repeat split; rewrite <- ?app_assoc; try reflexivity; intros ? [=].
      * cbn in Hout. subst out. cbn. repeat split. intros e' [= <-]. reflexivity.
Qed.

(* ---------------------------------------------------------------------- *)
(** ** The placeholder of a run *)

Lemma append_cons a s t : String a s ++ t = String a (s ++ t).
Proof. reflexivity. Qed.

Lemma append_empty t : "" ++ t = t.
Proof. reflexivity. Qed.

Lemma append_assoc (a b c : string) : (a ++ b) ++ c = a ++ b ++ c.
Proof.
  induction a as [|x t IH]; [reflexivity|].
  rewrite !append_cons, IH. reflexivity.
Qed.

Lemma substring_all s n : (String.length s <= n)%nat -> String.substring 0 n s = s.
Proof.
  revert n. induction s as [|a t IH]; intros [|n] H; cbn in *; try reflexivity; try lia.
  rewrite IH by lia. reflexivity.
Qed.

Lemma upto_colon_name name rest :
  View.free_of ":" name = true -> Ctx.upto_colon (name ++ String ":" rest) = Some name.
Proof.
  induction name as [|a t IH]; intros H.
  - reflexivity.
  - rewrite append_cons. cbn [Ctx.upto_colon].
    cbn [View.free_of] in H. apply andb_true_iff in H as [Ha Ht]. apply negb_true_iff in Ha.
    rewrite Ha, (IH Ht). reflexivity.
Qed.

Lemma eventFilename_named event name rest :
  ev_text event = "[EVENT:" ++ name ++ ":" ++ rest ->
  View.free_of ":" name = true ->
  name <> "" ->
  Ctx.eventFilename true event = Some name.
Proof.
  intros Htext Hname Hne. unfold Ctx.eventFilename. rewrite Htext.
  rewrite !append_cons, append_empty.
  change (name ++ String ":" ("" ++ rest)) with (name ++ String ":" rest).
  set (tail := name ++ String ":" rest).
  assert (Hp : Js.startsWith (String "[" (String "E" (String "V" (String "E" (String "N"
                 (String "T" (String ":" tail))))))) "[EVENT:" = true).
  { unfold Js.startsWith. cbn. destruct tail; reflexivity. }
  rewrite Hp. cbn [String.length String.substring].
  rewrite substring_all by lia.
  subst tail. rewrite (upto_colon_name _ _ Hname).
  destruct (String.eqb name "") eqn:E; [|reflexivity].
  apply String.eqb_eq in E. contradiction.
Qed.

(** The first post of [setTyping], by the placeholder it shows. *)
Lemma setTyping_posts event isEvent c w :
  Js.truthy (messageTs c) = None ->
  updatePromise c = Ret tt ->
  let text := match Js.truthy (Ctx.eventFilename isEvent event) with
              | Some name => "_Starting event: " ++ name ++ "_"
              | None => "_Thinking_"
              end in
  journal (snd (snd (Ctx.setTyping event isEvent true (c, w))))
  = (journal w
     ++ [match Js.truthy (ev_thread_ts event) with
         | Some thread_ts =>
             SlackPostInThread (ev_channel event) thread_ts
               (text ++ Ctx.workingIndicator)%string
         | None => SlackPostMessage (ev_channel event) (text ++ Ctx.workingIndicator)%string
         end])%list.
Proof.
  intros Hts Hchain text.
  remember (Ctx.setTyping event isEvent true (c, w)) as out eqn:Hout.
  unfold Ctx.setTyping in Hout. unfold bind at 1 in Hout.
  unfold Ctx.getc at 1, gets at 1 in Hout. cbn beta iota in Hout. cbn [fst] in Hout.
  rewrite Hts in Hout.
  rewrite bool_decide_eq_false_2 in Hout by (intros [? ?]; discriminate).
  cbn [andb negb] in Hout.
  rewrite (enqueue_run _ _ _ Hchain) in Hout.
  unfold bind at 1 in Hout. unfold Ctx.getc at 1, gets at 1 in Hout.
  cbn beta iota in Hout. cbn [fst] in Hout. rewrite Hts in Hout.
  fold text in Hout.
  unfold bind at 1 in Hout. unfold Ctx.modc at 1, modify at 1 in Hout.
  cbn beta iota in Hout. cbn [fst snd] in Hout.
  destruct (Js.truthy (ev_thread_ts event)) as [thread_ts|].
  - unfold Ctx.liftW, Ctx.modc, Slack.postInThread, Slack.call, bind, emit, modify, ask, gets
      in Hout.
    cbn [fst snd journal set_journal outside] in Hout.
    destruct (slack_api (outside w) _); cbn in Hout; subst out; reflexivity.
  - unfold Ctx.liftW, Ctx.modc, Slack.postMessage, Slack.call, bind, emit, modify, ask, gets
      in Hout.
    cbn [fst snd journal set_journal outside] in Hout.
    destruct (slack_api (outside w) _); cbn in Hout; subst out; reflexivity.
Qed.

(** X20. The run for a scheduled event is announced by the event's
    file name.  For a text [[EVENT:name:...]] handled as an event, the
    first thing [setTyping] posts is "_Starting event: name_" with the
    working indicator; the same text handled as a message, like any
    other text, is announced as "_Thinking_".  The announcement goes
    into the thread of the triggering message when there is one. *)
Theorem event_runs_are_announced_by_name
  (event : SlackEvent) (name rest : string) (c : SlackContext) (w : World) :
  ev_text event = "[EVENT:" ++ name ++ ":" ++ rest ->
  View.free_of ":" name = true ->
  name <> "" ->
  Js.truthy (messageTs c) = None ->
  updatePromise c = Ret tt ->
  let post text :=
    match Js.truthy (ev_thread_ts event) with
    | Some thread_ts => SlackPostInThread (ev_channel event) thread_ts text
    | None => SlackPostMessage (ev_channel event) text
    end in
  journal (snd (snd (Ctx.setTyping event true true (c, w))))
  = (journal w ++ [post ("_Starting event: " ++ name ++ "_" ++ " ...")%string])%list
  /\ journal (snd (snd (Ctx.setTyping event false true (c, w))))
     = (journal w ++ [post "_Thinking_ ..."])%list.
Proof.
  intros Htext Hname Hne Hts Hchain post.
  rewrite !setTyping_posts by assumption. cbv zeta.
  rewrite (eventFilename_named _ _ _ Htext Hname Hne).
  assert (Htruthy : Js.truthy (Some name) = Some name).
  { unfold Js.truthy. destruct (String.eqb name "") eqn:E; [|reflexivity].
    apply String.eqb_eq in E. contradiction. }
  rewrite Htruthy. subst post. cbn [Ctx.eventFilename Js.truthy].
  split.
  - destruct (Js.truthy (ev_thread_ts event)); unfold Ctx.workingIndicator;
      rewrite !append_assoc; reflexivity.
  - destruct (Js.truthy (ev_thread_ts event)); reflexivity.
Qed.

(* ---------------------------------------------------------------------- *)
(** ** One channel and another *)

Lemma record_of_alter_ne g channelId other w :
  other <> channelId ->
  View.record_of other (set_channelStates (alter g channelId (channelStates w)) w)
  = View.record_of other w.
Proof.
  intros Hne. unfold View.record_of. cbn. apply lookup_alter_ne. congruence.
Qed.

Ltac record_leaf :=
  first [ apply record_of_alter_ne; assumption | cbn; reflexivity ].

Lemma handleStop_records channelId other :
  other <> channelId -> keeps (View.record_of other) (Handler.handleStop channelId).
Proof. intros Hne. keeps_go record_leaf. Qed.

Lemma run_records event isEvent channelDir other :
  other <> ev_channel event ->
  keeps (View.record_of other) (Handler.run event isEvent channelDir).
Proof. intros Hne. keeps_go record_leaf. Qed.

Lemma getState_records channelId other :
  other <> channelId -> keeps (View.record_of other) (Handler.getState channelId).
Proof.
  intros Hne w. unfold Handler.getState, bind, gets. cbn.
  destruct (channelStates w !! channelId); cbn; [reflexivity|].
  unfold View.record_of. cbn. apply lookup_insert_ne. congruence.
Qed.

Lemma entered_records event other w :
  other <> ev_channel event ->
  View.record_of other (Obs.entered event w) = View.record_of other w.
Proof.
  intros Hne. unfold Obs.entered.
  assert (Hk : keeps (View.record_of other) (OAuth.hasPendingAuth (ev_channel event)))
    by keeps_go plain.
  rewrite Hk. apply getState_records, Hne.
Qed.

Lemma handleEvent_records event isEvent other w :
  other <> ev_channel event ->
  View.record_of other (snd (Handler.handleEvent event isEvent w)) = View.record_of other w.
Proof.
  intros Hne. rewrite handleEvent_dispatch. cbv zeta.
  pose proof (getState_records (ev_channel event) other Hne w) as Hg.
  pose proof (entered_records event other w Hne) as He.
  repeat match goal with
         | |- context [if ?b then _ else _] => destruct b
         end.
  - assert (Hk : keeps (View.record_of other) (Handler.onLogin event)) by keeps_go plain.
    rewrite Hk. exact Hg.
  - assert (Hk : keeps (View.record_of other)
                   (Handler.onLogout event (workingDir (cfg w)))) by keeps_go plain.
    rewrite Hk. exact Hg.
  - assert (Hk : keeps (View.record_of other) (Handler.onAuthStatus event (cfg w)))
      by keeps_go plain.
    rewrite Hk. exact Hg.
  - assert (Hk : keeps (View.record_of other)
                   (Handler.finishLogin event (Js.trim (ev_text event)) (workingDir (cfg w))))
      by keeps_go plain.
    rewrite Hk. exact He.
  - rewrite (run_records event isEvent _ other Hne). exact He.
Qed.

(** X21. What happens in one channel leaves every other channel's
    state alone: a message, a command or a stop request for a channel,
    and any sequence of them, changes no state record but that
    channel's, and creates none for another. *)
Theorem other_channels_untouched (other : string) :
  (forall event isEvent w,
     ev_channel event <> other ->
     View.record_of other (snd (Handler.handleEvent event isEvent w)) = View.record_of other w)
  /\ (forall channelId w,
        channelId <> other ->
        View.record_of other (snd (Handler.handleStop channelId w)) = View.record_of other w)
  /\ (forall l w,
        forallb (fun i => negb (View.concerns other i)) l = true ->
        View.record_of other (snd (Handler.deliver_all l w)) = View.record_of other w).
Proof.
  assert (Hevent : forall event isEvent w,
             ev_channel event <> other ->
             View.record_of other (snd (Handler.handleEvent event isEvent w))
             = View.record_of other w).
  { intros event isEvent w Hne. apply handleEvent_records. congruence. }
  assert (Hstop : forall channelId w,
             channelId <> other ->
             View.record_of other (snd (Handler.handleStop channelId w))
             = View.record_of other w).
  { intros channelId w Hne. apply handleStop_records. congruence. }
  split; [exact Hevent|]. split; [exact Hstop|].
  induction l as [|i rest IH]; intros w Hl; cbn [Handler.deliver_all].
  - reflexivity.
  - cbn [forallb] in Hl. apply andb_true_iff in Hl as [Hi Hrest].
    apply negb_true_iff in Hi.
    unfold bind, attempt. cbn [fst snd]. rewrite (IH _ Hrest).
    destruct i as [event isEvent|channelId]; cbn [Handler.deliver View.concerns] in *.
    + apply Hevent. intros Heq. rewrite Heq, String.eqb_refl in Hi. discriminate.
    + apply Hstop. intros Heq. rewrite Heq, String.eqb_refl in Hi. discriminate.
Qed.

(* ---------------------------------------------------------------------- *)
(** ** The completion signal *)

Lemma done_signals_snoc j e :
  View.is_done e = false -> View.done_signals (j ++ [e]) = View.done_signals j.
Proof.
  intros H. unfold View.done_signals. rewrite List.filter_app. cbn. rewrite H.
  apply app_nil_r.
Qed.

Ltac signal_leaf :=
  first [ apply done_signals_snoc; reflexivity | cbn; reflexivity ].

Lemma run_until_result_signals event isEvent channelDir :
  keeps View.signals (Handler.run_until_result event isEvent channelDir).
Proof. keeps_go signal_leaf. Qed.

Lemma begin_run_signals event : keeps View.signals (Handler.begin_run event).
Proof. keeps_go signal_leaf. Qed.

Lemma entered_journal event w : journal (Obs.entered event w) = journal w.
Proof. apply (entered_frame event w). Qed.

Lemma signalDone_run channel w :
  Handler.signalDone channel w
  = (Ret tt,
     match Js.truthy (MOM_SLACK_API_URL (cfg w)) with
     | Some adapterUrl =>
         set_journal (journal w ++ [FetchDone (Handler.baseUrl adapterUrl) channel]) w
     | None => w
     end).
Proof.
  unfold Handler.signalDone, bind, gets. cbn.
  destruct (Js.truthy (MOM_SLACK_API_URL (cfg w))); reflexivity.
Qed.

(** X22. The protocol adapter hears of a run only when the run gave a
    result.  When the [try] block throws before the result is in hand
    (the log synchronisation, the adapter or the agent raised), no
    completion signal is sent; when the result is in hand and
    [MOM_SLACK_API_URL] is set, exactly one is sent, to the base URL and
    for the event's channel, whatever comes of the stop message after
    it. *)
Theorem completion_is_signalled_after_a_result
  (event : SlackEvent) (isEvent : bool) (w w1 : World) (r : Res RunResult) :
  Obs.starts_run event w = true ->
  Handler.run_until_result event isEvent (Obs.channelDir event w)
    (snd (Handler.begin_run event (Obs.entered event w))) = (r, w1) ->
  View.done_signals (journal (snd (Handler.handleEvent event isEvent w)))
  = (View.done_signals (journal w)
     ++ match r, Js.truthy (MOM_SLACK_API_URL (cfg w)) with
        | Ret _, Some adapterUrl => [FetchDone (Handler.baseUrl adapterUrl) (ev_channel event)]
        | _, _ => []
        end)%list.
Proof.
  intros Hrun Hres. rewrite (handleEvent_run _ _ _ Hrun).
  pose proof (run_until_result_signals event isEvent (Obs.channelDir event w)
                (snd (Handler.begin_run event (Obs.entered event w)))) as H1.
  rewrite Hres in H1. cbn [snd] in H1.
  rewrite begin_run_signals in H1. unfold View.signals in H1.
  rewrite entered_journal in H1.
  assert (Hcfg : cfg w1 = cfg w).
  { assert (Hk : keeps cfg (Handler.run_until_result event isEvent (Obs.channelDir event w)))
      by keeps_go plain.
    pose proof (Hk (snd (Handler.begin_run event (Obs.entered event w)))) as H2.
    rewrite Hres in H2. cbn [snd] in H2. rewrite H2.
    destruct (entered_frame event w) as (_ & _ & Hc & _). exact Hc. }
  destruct r as [result|e].
  - rewrite (run_returned _ _ _ _ _ _ Hres).
    assert (Hk : keeps View.signals
                   (try_finally
                      (try_catch (Handler.reconcileStop event result) (Handler.run_failed event))
                      (Handler.write (ev_channel event) (Handler.set_running false))))
      by keeps_go signal_leaf.
    pose proof (Hk (snd (Handler.signalDone (ev_channel event) w1))) as H2.
    unfold View.signals in H2. rewrite H2.
    rewrite signalDone_run. cbn [snd]. rewrite Hcfg.
    destruct (Js.truthy (MOM_SLACK_API_URL (cfg w))) as [adapterUrl|].
    + cbn [journal set_journal]. unfold View.done_signals in *.
      rewrite List.filter_app, H1. reflexivity.
    + rewrite H1. symmetry. apply app_nil_r.
  - rewrite (run_raised _ _ _ _ _ _ Hres). cbn.
    rewrite done_signals_snoc by reflexivity. rewrite H1. symmetry. apply app_nil_r.
Qed.

(* ---------------------------------------------------------------------- *)
(** ** A run that nobody stopped *)

Lemma bind_kept {S A B C} (f : S -> C) (m : ST S A) (k : A -> ST S B) s :
  f (snd (m s)) = f s ->
  (forall a, f (snd (k a (snd (m s)))) = f (snd (m s))) ->
  f (snd (bind m k s)) = f s.
Proof.
  intros Hm Hk. unfold bind. destruct (m s) as [[a|e] s'] eqn:E; cbn [snd] in *.
  - rewrite Hk. exact Hm.
  - exact Hm.
Qed.

Lemma play_undisturbed event isEvent a :
  View.is_stop a = false ->
  keeps (on_world channelStates) (Handler.play event isEvent a).
Proof.
  intros H. destruct a; try discriminate H; cbn [Handler.play]; keeps_go plain.
Qed.

Lemma play_all_undisturbed event isEvent l :
  forallb (fun a => negb (View.is_stop a)) l = true ->
  keeps (on_world channelStates) (Handler.play_all event isEvent l).
Proof.
  induction l as [|a rest IH]; intros H; cbn [Handler.play_all].
  - apply keeps_ret.
  - cbn [forallb] in H. apply andb_true_iff in H as [Ha Hrest].
    apply negb_true_iff in Ha.
    apply keeps_bind; [apply play_undisturbed, Ha|intros _; apply IH, Hrest].
Qed.

Lemma runner_run_undisturbed event isEvent s :
  View.undisturbed (outside (snd s)) ->
  on_world channelStates (snd (Handler.runner_run event isEvent s)) = on_world channelStates s.
Proof.
  intros Hquiet. destruct s as [c w]. unfold Handler.runner_run.
  unfold bind at 1. unfold Ctx.liftW at 1, emit at 1, modify at 1. cbn beta iota.
  cbn [fst snd].
  unfold bind at 1. unfold Ctx.liftW at 1, ask at 1, gets at 1. cbn beta iota.
  cbn [fst snd outside journal set_journal].
  set (script := agent (outside w) _).
  assert (Hk : keeps (on_world channelStates)
                 (Handler.play_all event isEvent (actions script);; settle (outcome script))).
  { apply keeps_bind; [apply play_all_undisturbed, Hquiet|intros _; apply keeps_settle]. }
  rewrite Hk. reflexivity.
Qed.

Lemma run_until_result_undisturbed event isEvent channelDir w :
  View.undisturbed (outside w) ->
  channelStates (snd (Handler.run_until_result event isEvent channelDir w)) = channelStates w.
Proof.
  intros Hquiet. unfold Handler.run_until_result.
  apply bind_kept; [assert (Hk : keeps channelStates
                                   (Handler.syncLogToContext channelDir (ev_ts event)))
                      by keeps_go plain; apply Hk|].
  intros syncedCount.
  assert (Ho : outside (snd (Handler.syncLogToContext channelDir (ev_ts event) w)) = outside w).
  { assert (Hk : keeps outside (Handler.syncLogToContext channelDir (ev_ts event)))
      by keeps_go plain.
    apply Hk. }
  revert Ho. generalize (snd (Handler.syncLogToContext channelDir (ev_ts event) w)).
  intros w1 Ho. unfold Handler.after_sync.
  apply bind_kept; [assert (Hk : keeps channelStates
                                   (when (0 <? syncedCount)%nat
                                      (Log.logInfo
                                         ("[" ++ ev_channel event ++ "] Synced "
                                          ++ pretty syncedCount
                                          ++ " messages from log to context"))))
                      by keeps_go plain; apply Hk|].
  intros _.
  assert (Ho2 : outside (snd (when (0 <? syncedCount)%nat
                                (Log.logInfo
                                   ("[" ++ ev_channel event ++ "] Synced "
                                    ++ pretty syncedCount
                                    ++ " messages from log to context")) w1)) = outside w).
  { assert (Hk : keeps outside
                   (when (0 <? syncedCount)%nat
                      (Log.logInfo
                         ("[" ++ ev_channel event ++ "] Synced " ++ pretty syncedCount
                          ++ " messages from log to context")))) by keeps_go plain.
    rewrite Hk. exact Ho. }
  revert Ho2. generalize (snd (when (0 <? syncedCount)%nat
                                 (Log.logInfo
                                    ("[" ++ ev_channel event ++ "] Synced "
                                     ++ pretty syncedCount
                                     ++ " messages from log to context")) w1)).
  clear w1 Ho. intros w2 Ho.
  unfold Handler.with_ctx.
  assert (Hagent : on_world channelStates (snd (Handler.run_agent event isEvent (Ctx.fresh, w2)))
                   = on_world channelStates (Ctx.fresh, w2)).
  { unfold Handler.run_agent.
    set (prefix := Ctx.setTyping event isEvent true).
    apply bind_kept; [assert (Hk : keeps (on_world channelStates) prefix)
                        by (subst prefix; keeps_go plain); apply Hk|].
    intros _.
    assert (Ho3 : on_world outside (snd (prefix (Ctx.fresh, w2))) = outside w).
    { assert (Hk : keeps (on_world outside) prefix) by (subst prefix; keeps_go plain).
      rewrite Hk. exact Ho. }
    revert Ho3. generalize (snd (prefix (Ctx.fresh, w2))). intros s3 Ho3.
    apply bind_kept; [assert (Hk : keeps (on_world channelStates) (Ctx.setWorking event true))
                        by keeps_go plain; apply Hk|].
    intros _.
    assert (Ho4 : on_world outside (snd (Ctx.setWorking event true s3)) = outside w).
    { assert (Hk : keeps (on_world outside) (Ctx.setWorking event true)) by keeps_go plain.
      rewrite Hk. exact Ho3. }
    revert Ho4. generalize (snd (Ctx.setWorking event true s3)). intros s4 Ho4.
    apply bind_kept.
    - apply runner_run_undisturbed. unfold on_world in Ho4. rewrite Ho4. exact Hquiet.
    - intros result.
      assert (Hk : keeps (on_world channelStates) (Ctx.setWorking event false;; ret result))
        by keeps_go plain.
      apply Hk. }
  unfold on_world in Hagent. cbn [snd] in Hagent.
  destruct (Handler.run_agent event isEvent (Ctx.fresh, w2)) as [r s]. exact Hagent.
Qed.

Lemma begin_run_clears_stop event w state :
  channelStates w !! ev_channel event = Some state ->
  stopRequested (Obs.state_of (ev_channel event) (snd (Handler.begin_run event w))) = false.
Proof.
  intros H. unfold Obs.state_of, Handler.begin_run, Handler.write, Log.logInfo,
    bind, modify, emit, modify. cbn.
  rewrite !lookup_alter_eq, H. reflexivity.
Qed.

Lemma entered_has_state event w :
  is_Some (channelStates (Obs.entered event w) !! ev_channel event).
Proof.
  unfold Obs.entered.
  assert (Hk : keeps channelStates (OAuth.hasPendingAuth (ev_channel event))) by keeps_go plain.
  rewrite Hk. unfold Handler.getState, bind, gets. cbn.
  destruct (channelStates w !! ev_channel event) eqn:E; cbn.
  - rewrite E. eauto.
  - rewrite lookup_insert_eq. eauto.
Qed.

(** X23. A stop request does not leak into the next run.  Each run
    starts with [stopRequested] cleared, so when no stop request arrives
    during a run, the controller sends nothing after the run's own
    output: no "_Stopped_" is posted or edited in, even when the runner
    reports "aborted" and whatever the flag and the acknowledgement
    handle were before the message came. *)
Theorem stop_requests_do_not_leak
  (event : SlackEvent) (isEvent : bool) (w w1 : World) (result : RunResult) :
  Obs.starts_run event w = true ->
  View.undisturbed (outside w) ->
  Handler.run_until_result event isEvent (Obs.channelDir event w)
    (snd (Handler.begin_run event (Obs.entered event w))) = (Ret result, w1) ->
  let w' := snd (Handler.handleEvent event isEvent w) in
  stopRequested (Obs.state_of (ev_channel event) w1) = false
  /\ journal w' = journal (snd (Handler.signalDone (ev_channel event) w1))
  /\ Obs.slack_calls (journal w') = Obs.slack_calls (journal w1).
Proof.
  intros Hrun Hquiet Hres w'. subst w'.
  set (w0 := snd (Handler.begin_run event (Obs.entered event w))) in *.
  assert (Ho : outside w0 = outside w).
  { subst w0. assert (Hk : keeps outside (Handler.begin_run event)) by keeps_go plain.
    rewrite Hk. apply (entered_frame event w). }
  assert (Hstates : channelStates w1 = channelStates w0).
  { pose proof (run_until_result_undisturbed event isEvent (Obs.channelDir event w) w0) as H.
    rewrite Hres in H. apply H. rewrite Ho. exact Hquiet. }
  assert (Hclear : stopRequested (Obs.state_of (ev_channel event) w1) = false).
  { rewrite (state_of_frame _ _ _ Hstates).
    destruct (entered_has_state event w) as [state Hstate].
    subst w0. apply (begin_run_clears_stop _ _ _ Hstate). }
  split; [exact Hclear|].
  rewrite (handleEvent_run _ _ _ Hrun), (run_returned _ _ _ _ _ _ Hres).
  destruct (signalDone_frame (ev_channel event) w1) as (_ & Hc & Hj).
  set (w2 := snd (Handler.signalDone (ev_channel event) w1)) in *.
  rewrite <- Hj.
  assert (Hnothing : Handler.reconcileStop event result w2 = (Ret tt, w2)).
  { unfold Handler.reconcileStop, bind, Handler.read, gets. cbn beta iota.
    change (default Handler.idle (channelStates w2 !! ev_channel event))
      with (Obs.state_of (ev_channel event) w2).
    rewrite (state_of_frame _ _ _ Hc), Hclear, andb_false_r. reflexivity. }
  unfold try_finally, try_catch. rewrite Hnothing.
  unfold Handler.write, modify. cbn. auto.
Qed.

(* ---------------------------------------------------------------------- *)
(** ** The base URL of the protocol adapter *)

Lemma rev_onto_append s acc : Js.rev_onto s acc = Js.reverse s ++ acc.
Proof.
  unfold Js.reverse. revert acc.
  induction s as [|a t IH]; intros acc; cbn [Js.rev_onto]; [reflexivity|].
  rewrite IH, (IH (String a "")), append_assoc. reflexivity.
Qed.

Lemma append_nil (s : string) : s ++ "" = s.
Proof.
  induction s as [|a t IH]; [reflexivity|]. rewrite append_cons, IH. reflexivity.
Qed.

Lemma reverse_append a b : Js.reverse (a ++ b) = Js.reverse b ++ Js.reverse a.
Proof.
  induction a as [|x t IH].
  - rewrite append_empty. change (Js.reverse "") with "".
    symmetry. apply append_nil.
  - rewrite append_cons. unfold Js.reverse at 1 3. cbn [Js.rev_onto].
    rewrite !rev_onto_append, IH, append_assoc. reflexivity.
Qed.

Lemma reverse_involutive s : Js.reverse (Js.reverse s) = s.
Proof.
  induction s as [|a t IH]; [reflexivity|].
  unfold Js.reverse at 2. cbn [Js.rev_onto]. rewrite rev_onto_append, reverse_append, IH.
  reflexivity.
Qed.

(** X24. The completion signal goes to the base of the protocol
    adapter's URL: [baseUrl] takes one trailing [/api] or [/api/] off the
    configured URL and gives back what stood before it. *)
Theorem baseUrl_strips_api_suffix (base : string) :
  Handler.baseUrl (base ++ "/api/") = base
  /\ Handler.baseUrl (base ++ "/api") = base.
Proof.
  split.
  - unfold Handler.baseUrl. rewrite reverse_append.
    change (Js.reverse "/api/") with "/ipa/".
    rewrite !append_cons, append_empty.
    cbn [String.prefix]. 
    repeat match goal with
           | |- context [ascii_dec ?a ?b] => destruct (ascii_dec a b); [|congruence]
           end.
    assert (Hp : String.prefix "" (Js.reverse base) = true)
      by (destruct (Js.reverse base); reflexivity).
    rewrite Hp. cbn [String.length String.substring].
    rewrite substring_all by lia. apply reverse_involutive.
  - unfold Handler.baseUrl. rewrite reverse_append.
    change (Js.reverse "/api") with "ipa/".
    rewrite !append_cons, append_empty.
    cbn [String.prefix].
    repeat match goal with
           | |- context [ascii_dec ?a ?b] =>
               destruct (ascii_dec a b); [try discriminate|try congruence]
           end.
    assert (Hp : String.prefix "" (Js.reverse base) = true)
      by (destruct (Js.reverse base); reflexivity).
    rewrite Hp. cbn [String.length String.substring].
    rewrite substring_all by lia. apply reverse_involutive.
Qed.

(* ---------------------------------------------------------------------- *)
(** ** The command line *)

Lemma prefix_slice p s :
  String.prefix p s = true -> s = p ++ Cli.slice (String.length p) s.
Proof.
  revert s. induction p as [|a p IH]; intros s H.
  - rewrite append_empty. unfold Cli.slice. cbn [String.length].
    rewrite Nat.sub_0_r, substring_all by lia. reflexivity.
  - destruct s as [|b s]; cbn [String.prefix] in H; [discriminate|].
    destruct (ascii_dec a b) as [<-|]; [|discriminate].
    rewrite append_cons. f_equal.
    rewrite (IH s H) at 1. f_equal.
Qed.

Section Scan.

Variable parseSandboxArg : string -> Res Cli.SandboxConfig.

Lemma widen_dir (skipped rest : list string) (workingDir0 workingDir : option string) :
  (workingDir = workingDir0
   \/ exists arg, In arg rest /\ workingDir = Some arg /\ Js.startsWith arg "-" = false) ->
  workingDir = workingDir0
  \/ exists arg, In arg (skipped ++ rest) /\ workingDir = Some arg
                 /\ Js.startsWith arg "-" = false.
Proof.
  intros [->|(arg & Hin & -> & Hdash)]; [auto|].
  right. exists arg. rewrite in_app_iff. auto.
Qed.

Lemma widen_download (skipped rest : list string) (download0 download : option string) :
  (download = download0 \/ download = None
   \/ exists channel,
       download = Some channel
       /\ ((exists before after, rest = (before ++ "--download" :: channel :: after)%list)
           \/ In ("--download=" ++ channel) rest)) ->
  download = download0 \/ download = None
  \/ exists channel,
      download = Some channel
      /\ ((exists before after,
              (skipped ++ rest)%list = (before ++ "--download" :: channel :: after)%list)
          \/ In ("--download=" ++ channel) (skipped ++ rest)).
Proof.
  intros [->|[->|(channel & -> & [(before & after & ->)|Hin])]]; [auto|auto| |].
  - right. right. exists channel. split; [reflexivity|]. left.
    exists (skipped ++ before)%list, after. apply app_assoc.
  - right. right. exists channel. rewrite in_app_iff. auto.
Qed.

(** What [scan] hands back as working directory comes from a word of
    the arguments, and what it hands back as download channel is the
    word after a [--download] or the rest of a [--download=] word, unless
    it is what [scan] was given. *)
Lemma scan_reports (n : nat) :
  forall args sandbox0 workingDir0 download0 sandbox workingDir download,
    (length args <= n)%nat ->
    Cli.scan parseSandboxArg args sandbox0 workingDir0 download0
    = Ret (sandbox, workingDir, download) ->
    (workingDir = workingDir0
     \/ exists arg, In arg args /\ workingDir = Some arg /\ Js.startsWith arg "-" = false)
    /\ (download = download0 \/ download = None
        \/ exists channel,
            download = Some channel
            /\ ((exists before after, args = (before ++ "--download" :: channel :: after)%list)
                \/ In ("--download=" ++ channel) args)).
Proof.
  induction n as [|n IH]; intros args s0 w0 d0 s w d Hn Hscan.
  - destruct args; [|cbn in Hn; lia]. cbn in Hscan. injection Hscan as <- <- <-. auto.
  - destruct args as [|arg rest]; [cbn in Hscan; injection Hscan as <- <- <-; auto|].
    cbn [length] in Hn. cbn [Cli.scan] in Hscan.
    destruct (Js.startsWith arg "--sandbox=") eqn:E1.
    { destruct (parseSandboxArg (Cli.slice 10 arg)) as [s1|e]; [|discriminate].
      destruct (IH rest _ _ _ _ _ _ ltac:(lia) Hscan) as (Hw & Hd).
      split; [apply (widen_dir [arg] rest), Hw|apply (widen_download [arg] rest), Hd]. }
    destruct (String.eqb arg "--sandbox") eqn:E2.
    { destruct rest as [|next rest].
      - destruct (parseSandboxArg ""); [|discriminate]. injection Hscan as <- <- <-. auto.
      - destruct (parseSandboxArg next) as [s1|e]; [|discriminate].
        cbn [length] in Hn.
        destruct (IH rest _ _ _ _ _ _ ltac:(lia) Hscan) as (Hw & Hd).
        split; [apply (widen_dir [arg; next] rest), Hw
               |apply (widen_download [arg; next] rest), Hd]. }
    destruct (Js.startsWith arg "--download=") eqn:E3.
    { destruct (IH rest _ _ _ _ _ _ ltac:(lia) Hscan) as (Hw & Hd).
      split; [apply (widen_dir [arg] rest), Hw|].
      destruct Hd as [->|Hd].
      - right. right. exists (Cli.slice 11 arg). split; [reflexivity|].
        right. left. unfold Js.startsWith in E3. apply prefix_slice in E3. exact E3.
      - apply (widen_download [arg] rest). auto. }
    destruct (String.eqb arg "--download") eqn:E4.
    { apply String.eqb_eq in E4. subst arg.
      destruct rest as [|next rest].
      - injection Hscan as <- <- <-. auto.
      - cbn [length] in Hn.
        destruct (IH rest _ _ _ _ _ _ ltac:(lia) Hscan) as (Hw & Hd).
        split; [apply (widen_dir ["--download"; next] rest), Hw|].
        destruct Hd as [->|Hd].
        + right. right. exists next. split; [reflexivity|]. left.
          exists [], rest. reflexivity.
        + apply (widen_download ["--download"; next] rest). auto. }
    destruct (Js.startsWith arg "-") eqn:E5; cbn [negb] in Hscan.
    { destruct (IH rest _ _ _ _ _ _ ltac:(lia) Hscan) as (Hw & Hd).
      split; [apply (widen_dir [arg] rest), Hw|apply (widen_download [arg] rest), Hd]. }
    destruct (IH rest _ _ _ _ _ _ ltac:(lia) Hscan) as (Hw & Hd).
    split; [|apply (widen_download [arg] rest), Hd].
    destruct Hw as [->|Hw].
    + right. exists arg. split; [left; reflexivity|]. auto.
    + apply (widen_dir [arg] rest). auto.
Qed.

(** Without a sandbox option among the arguments [scan] returns, and
    the sandbox is the one it was given. *)
Lemma scan_keeps_sandbox (n : nat) :
  forall args sandbox0 workingDir0 download0,
    (length args <= n)%nat ->
    forallb (fun arg => negb (Js.startsWith arg "--sandbox")) args = true ->
    exists workingDir download,
      Cli.scan parseSandboxArg args sandbox0 workingDir0 download0
      = Ret (sandbox0, workingDir, download).
Proof.
  induction n as [|n IH]; intros args s0 w0 d0 Hn Hnone.
  - destruct args; [|cbn in Hn; lia]. cbn. eauto.
  - destruct args as [|arg rest]; [cbn; eauto|].
    cbn [length] in Hn. cbn [forallb] in Hnone.
    apply andb_true_iff in Hnone as [Harg Hrest]. apply negb_true_iff in Harg.
    cbn [Cli.scan].
    assert (E1 : Js.startsWith arg "--sandbox=" = false).
    { destruct (Js.startsWith arg "--sandbox=") eqn:E; [|reflexivity].
      unfold Js.startsWith in *. apply prefix_slice in E. rewrite E in Harg.
      cbn in Harg. discriminate. }
    assert (E2 : String.eqb arg "--sandbox" = false).
    { destruct (String.eqb arg "--sandbox") eqn:E; [|reflexivity].
      apply String.eqb_eq in E. subst arg. discriminate. }
    rewrite E1, E2.
    destruct (Js.startsWith arg "--download="); [apply IH; [lia|exact Hrest]|].
    destruct (String.eqb arg "--download").
    { destruct rest as [|next rest]; [eauto|].
      cbn [length] in Hn. cbn [forallb] in Hrest.
      apply andb_true_iff in Hrest as [_ Hrest].
      apply IH; [lia|exact Hrest]. }
    destruct (negb (Js.startsWith arg "-")); apply IH; try lia; exact Hrest.
Qed.

(** A word that is no option is taken as the working directory. *)
Lemma scan_plain_word arg rest sandbox workingDir download :
  View.plain arg = true ->
  Cli.scan parseSandboxArg (arg :: rest) sandbox workingDir download
  = Cli.scan parseSandboxArg rest sandbox (Some arg) download.
Proof.
  intros H. unfold View.plain, Js.startsWith in H. apply negb_true_iff in H.
  cbn [Cli.scan]. unfold Js.startsWith.
  destruct arg as [|c t]; [reflexivity|].
  cbn [String.prefix] in H |- *.
  destruct (ascii_dec "-" c) as [<-|Hc]; [destruct t; discriminate H|].
  assert (Hne : Ascii.eqb c "-" = false) by (apply Ascii.eqb_neq; congruence).
  cbn [String.eqb]. rewrite Hne. reflexivity.
Qed.

(** Over words that are no options, the last one is the working
    directory; sandbox and download channel stay. *)
Lemma scan_plain_words before rest sandbox workingDir download :
  forallb View.plain before = true ->
  Cli.scan parseSandboxArg (before ++ rest)%list sandbox workingDir download
  = Cli.scan parseSandboxArg rest sandbox
      (fold_left (fun _ arg => Some arg) before workingDir) download.
Proof.
  revert workingDir. induction before as [|arg before IH]; intros workingDir H.
  - reflexivity.
  - cbn [forallb] in H. apply andb_true_iff in H as [Harg Hbefore].
    rewrite <- app_comm_cons, (scan_plain_word _ _ _ _ _ Harg), (IH _ Hbefore).
    reflexivity.
Qed.

End Scan.

Lemma fold_last (l : list string) (first : option string) :
  fold_left (fun _ arg => Some arg) l first
  = match last l with Some arg => Some arg | None => first end.
Proof.
  revert first. induction l as [|a l IH]; intros first; [reflexivity|].
  cbn [fold_left]. rewrite IH. destruct l as [|b l]; [reflexivity|].
  change (last (a :: b :: l)) with (last (b :: l)).
  destruct (last (b :: l)) eqn:E; [reflexivity|].
  apply last_None in E. discriminate.
Qed.

(** X25. What [parseArgs] reports comes from the command line.  The
    working directory is the resolved form of an argument that is not
    empty and does not start with [-]; on a command line without
    options it is the last word.  The download channel is the word that
    stands right after a [--download], or what follows [--download=] in
    a word; and among words that are no options, the word after
    [--download] is the channel reported, whatever it looks like.  With
    no word that starts with [--sandbox], [parseArgs] returns and the
    sandbox is the host. *)
Theorem parseArgs_reports_its_arguments
  (parseSandboxArg : string -> Res Cli.SandboxConfig) (resolve : string -> string)
  (args : list string) :
  (forall parsed,
     Cli.parseArgs parseSandboxArg resolve args = Ret parsed ->
     (forall dir,
        Cli.pa_workingDir parsed = Some dir ->
        exists arg,
          In arg args /\ arg <> "" /\ Js.startsWith arg "-" = false /\ dir = resolve arg)
     /\ (forall channel,
           Cli.pa_downloadChannel parsed = Some channel ->
           (exists before after, args = (before ++ "--download" :: channel :: after)%list)
           \/ In ("--download=" ++ channel) args))
  /\ (forallb View.plain args = true ->
      Cli.parseArgs parseSandboxArg resolve args
      = Ret {| Cli.pa_workingDir :=
                 match Js.truthy (last args) with
                 | Some dir => Some (resolve dir)
                 | None => None
                 end;
               Cli.pa_sandbox := Cli.Host;
               Cli.pa_downloadChannel := None |})
  /\ (forall before channel after,
        args = (before ++ "--download" :: channel :: after)%list ->
        forallb View.plain before = true ->
        forallb View.plain after = true ->
        exists parsed,
          Cli.parseArgs parseSandboxArg resolve args = Ret parsed
          /\ Cli.pa_downloadChannel parsed = Some channel
          /\ Cli.pa_sandbox parsed = Cli.Host)
  /\ (forallb (fun arg => negb (Js.startsWith arg "--sandbox")) args = true ->
      exists parsed,
        Cli.parseArgs parseSandboxArg resolve args = Ret parsed
        /\ Cli.pa_sandbox parsed = Cli.Host).
Proof.
  split; [|split; [|split]].
  - intros parsed Hparsed. unfold Cli.parseArgs in Hparsed.
    destruct (Cli.scan parseSandboxArg args Cli.Host None None)
      as [[[sandbox workingDir] download]|e] eqn:Hscan; [|discriminate].
    injection Hparsed as <-. cbn [Cli.pa_workingDir Cli.pa_downloadChannel].
    destruct (scan_reports parseSandboxArg (length args) args _ _ _ _ _ _ (le_n _) Hscan)
      as (Hw & Hd).
    split.
    + intros dir Hdir.
      destruct Hw as [->|(arg & Hin & -> & Hdash)]; [discriminate|].
      unfold Js.truthy in Hdir.
      destruct (String.eqb arg "") eqn:E; [discriminate|].
      injection Hdir as <-. exists arg. repeat split; auto.
      intros ->. discriminate.
    + intros channel ->.
      destruct Hd as [Hd|[Hd|(channel' & [= <-] & Hin)]]; [discriminate|discriminate|exact Hin].
  - intros Hplain. unfold Cli.parseArgs.
    rewrite <- (app_nil_r args) at 1.
    rewrite (scan_plain_words _ _ _ _ _ _ Hplain), fold_last. cbn [Cli.scan].
    destruct (last args); reflexivity.
  - intros before channel after -> Hbefore Hafter. unfold Cli.parseArgs.
    rewrite (scan_plain_words _ _ _ _ _ _ Hbefore). cbn [Cli.scan].
    change (Js.startsWith "--download" "--sandbox=") with false.
    change (String.eqb "--download" "--sandbox") with false.
    change (Js.startsWith "--download" "--download=") with false.
    change (String.eqb "--download" "--download") with true.
    cbv iota.
    rewrite <- (app_nil_r after).
    rewrite (scan_plain_words _ _ _ _ _ _ Hafter). cbn [Cli.scan].
    eexists. split; [reflexivity|]. split; reflexivity.
  - intros Hnone. unfold Cli.parseArgs.
    destruct (scan_keeps_sandbox parseSandboxArg (length args) args Cli.Host None None
                (le_n _) Hnone) as (workingDir & download & ->).
    eexists. split; reflexivity.
Qed.

(* ---------------------------------------------------------------------- *)
(** ** More theorems at work *)

(** Right after [/login] the login is pending. *)
Lemma pending_authentication_lasts_ten_minutes_witness :
  let w1 := snd (OAuth.startLogin "C1" (Sample.boot Sample.calm)) in
  fst (OAuth.hasPendingAuth "C1" w1) = Ret true
  /\ is_Some (pendingAuths (snd (OAuth.hasPendingAuth "C1" w1)) !! "C1").
Proof.
  intros w1.
  destruct (pending_authentication_lasts_ten_minutes "C1" (Sample.boot Sample.calm) w1 eq_refl)
    as [Hres Hentry].
  split.
  - rewrite Hres. vm_compute. reflexivity.
  - rewrite Hentry. vm_compute. eauto.
Defined.

(** A login in another channel, started forty minutes after one in
    "C1", removes the entry of "C1". *)
Lemma startLogin_drops_outdated_entries_witness :
  let w1 := snd (OAuth.startLogin "C1" (Sample.boot Sample.calm)) in
  let later := set_journal (repeat (LogInfo "tick") 2400) w1 in
  pendingAuths (snd (OAuth.startLogin "C2" later)) !! "C1" = None.
Proof.
  intros w1 later.
  rewrite (startLogin_drops_outdated_entries "C2" "C1" later); [|discriminate].
  vm_compute. reflexivity.
Defined.

(** A login completed in a working directory that is in place. *)
Lemma successful_exchange_saves_credentials_witness :
  let w := snd (Handler.handleEvent (Sample.say "C1" "/login") false (Scene.home Sample.calm)) in
  let out := OAuth.completeLogin "C1" "abc#def" "/data" w in
  fst out = Ret {| OAuth.success := true; OAuth.error := None |}
  /\ fs (snd out) !! "/data/.mom/oauth.json" = Some (FileEntry "{anthropic:acc}" 384)
  /\ pendingAuths (snd out) !! "C1" = None.
Proof.
  intros w out. subst out.
  destruct (successful_exchange_saves_credentials w "C1" "abc#def" "/data"
              (Sample.pending_of "C1" w)
              {| ok := true; body_text := Ret "";
                 body_json := Ret {| access_token := "acc"; refresh_token := "ref";
                                     expires_in := 3600 |} |}
              {| access_token := "acc"; refresh_token := "ref"; expires_in := 3600 |})
    as (credentials & Hrun & _ & Haccess & _); try (vm_compute; reflexivity).
  rewrite Hrun. cbn [fst snd fs set_fs set_pendingAuths pendingAuths].
  split; [reflexivity|]. split; [|apply lookup_delete_eq].
  change (Obs.credentialPath "/data") with "/data/.mom/oauth.json".
  rewrite lookup_insert_eq.
  change (JSON_stringify_credentials (outside w) credentials)
    with ("{anthropic:" ++ access credentials ++ "}").
  rewrite Haccess. reflexivity.
Defined.

(** Saved and read back. *)
Lemma saved_credentials_are_loaded_witness :
  let w1 := snd (OAuth.saveCredentials "/data" Scene.kept (Scene.home Scene.literate)) in
  OAuth.loadCredentials "/data" w1 = (Ret (Some Scene.kept), w1)
  /\ OAuth.isLoggedIn "/data" w1 = (Ret true, w1).
Proof.
  intros w1.
  destruct (saved_credentials_are_loaded "/data" Scene.kept (Scene.home Scene.literate))
    as (_ & Hload & Hlogged); try (vm_compute; reflexivity).
  split; [exact Hload|exact Hlogged].
Defined.

(** [/logout] where credentials are stored. *)
Lemma logout_ends_the_login_witness :
  let w := Scene.with_file "{anthropic:acc0}" Scene.literate in
  fst (OAuth.isLoggedIn "/data" w) = Ret true
  /\ fst (OAuth.isLoggedIn "/data"
            (snd (Handler.handleEvent (Sample.say "C1" "/logout") false w))) = Ret false.
Proof.
  intros w. split; [vm_compute; reflexivity|].
  apply (logout_ends_the_login (Sample.say "C1" "/logout") false w); vm_compute; reflexivity.
Defined.

(** A credential file that does not parse. *)
Lemma loadCredentials_never_throws_witness :
  let w := Scene.with_file "not json" Scene.literate in
  exists w',
    OAuth.loadCredentials "/data" w = (Ret None, w')
    /\ journal w'
       = [ConsoleError
            "Failed to load OAuth credentials: SyntaxError: Unexpected token"].
Proof.
  intros w.
  destruct (loadCredentials_never_throws "/data" w) as (found & w' & Hload & _ & _);
    [vm_compute; reflexivity|].
  exists w'. rewrite Hload.
  assert (H : OAuth.loadCredentials "/data" w
              = (Ret None,
                 set_journal
                   [ConsoleError
                      "Failed to load OAuth credentials: SyntaxError: Unexpected token"] w))
    by (vm_compute; reflexivity).
  rewrite H in Hload. injection Hload as <- <-. split; reflexivity.
Defined.

(** A token that has not expired, and no credentials at all. *)
Lemma getOAuthToken_answers_from_the_file_witness :
  let w := Scene.with_file "{anthropic:acc0}" Scene.literate in
  OAuth.getOAuthToken Scene.offline "/data" w = (Ret (Some "acc0"), clock_read w)
  /\ OAuth.getOAuthToken Scene.offline "/data" (Scene.home Scene.literate)
     = (Ret None, Scene.home Scene.literate).
Proof.
  intros w. split.
  - destruct (getOAuthToken_answers_from_the_file Scene.offline "/data" w) as [_ H];
      [vm_compute; reflexivity|].
    rewrite (H "{anthropic:acc0}" 384%N Scene.kept); vm_compute; reflexivity.
  - destruct (getOAuthToken_answers_from_the_file Scene.offline "/data"
                (Scene.home Scene.literate)) as [H _]; [vm_compute; reflexivity|].
    apply H. vm_compute. reflexivity.
Defined.

(** A refresh while the endpoint cannot be reached, and one that the
    endpoint grants. *)
Lemma refresh_keeps_or_replaces_credentials_witness :
  let w := Scene.with_file "{anthropic:acc0}" Scene.literate in
  let out := OAuth.refreshToken (Scene.answering Scene.renewed) "/data" w in
  (exists msg,
      OAuth.refreshToken Scene.offline "/data" w
      = (Ret None, set_journal (journal w ++ [ConsoleError msg]) w))
  /\ fst out = Ret (Some "acc1")
  /\ fs (snd out) !! "/data/.mom/oauth.json" = Some (FileEntry "{anthropic:acc1}" 384).
Proof.
  intros w out. split.
  - apply (proj1 (refresh_keeps_or_replaces_credentials Scene.offline "/data" w w
                    "{anthropic:acc0}" 384%N Scene.kept (Throw (Js.newError "fetch failed"))
                    ltac:(vm_compute; reflexivity) ltac:(vm_compute; reflexivity)
                    ltac:(vm_compute; reflexivity) ltac:(vm_compute; reflexivity))).
    exact I.
  - subst out.
    destruct (proj2 (refresh_keeps_or_replaces_credentials (Scene.answering Scene.renewed)
                       "/data" w w "{anthropic:acc0}" 384%N Scene.kept (Ret Scene.renewed)
                       ltac:(vm_compute; reflexivity) ltac:(vm_compute; reflexivity)
                       ltac:(vm_compute; reflexivity) ltac:(vm_compute; reflexivity))
                Scene.renewed
                {| access_token := "acc1"; refresh_token := "ref1"; expires_in := 3600 |}
                eq_refl eq_refl eq_refl eq_refl)
      as (newCredentials & Hrun & _ & Haccess & _).
    rewrite Hrun. cbn [fst snd fs set_fs].
    split; [reflexivity|].
    change (Obs.credentialPath "/data") with "/data/.mom/oauth.json".
    rewrite lookup_insert_eq.
    change (JSON_stringify_credentials (outside w) newCredentials)
      with ("{anthropic:" ++ access newCredentials ++ "}").
    rewrite Haccess. reflexivity.
Defined.

(** A refused refresh and an expired token. *)
Lemma token_lookup_never_throws_witness :
  let w := Scene.with_file "{anthropic:acc0}" Scene.literate in
  let later := set_journal (repeat (LogInfo "tick") 10) w in
  (exists token, fst (OAuth.refreshToken (Scene.answering Scene.denied) "/data" w) = Ret token)
  /\ (exists token,
         fst (OAuth.getOAuthToken (Scene.answering Scene.denied) "/data" later) = Ret token).
Proof.
  intros w later. split.
  - apply (token_lookup_never_throws (Scene.answering Scene.denied) "/data" w).
    vm_compute. reflexivity.
  - apply (token_lookup_never_throws (Scene.answering Scene.denied) "/data" later).
    vm_compute. reflexivity.
Defined.

(** A pasted code with blanks around it, one with a second [#], one
    between two of each of the characters that [trim] removes, and one
    behind a character that it leaves. *)
Lemma pasted_code_is_split_at_hash_witness :
  let p := {| verifier := "v"; challenge := "c"; createdAt := 0 |} in
  OAuth.tokenRequest "  abc#def " p
  = {| tr_code := "abc"; tr_state := Some "def"; tr_code_verifier := "v" |}
  /\ OAuth.tokenRequest "abc#def#ghi" p
     = {| tr_code := "abc"; tr_state := Some "def"; tr_code_verifier := "v" |}
  /\ OAuth.tokenRequest "abc" p
     = {| tr_code := "abc"; tr_state := None; tr_code_verifier := "v" |}
  /\ Forall (fun cp =>
               OAuth.tokenRequest (Sample.utf8 cp ++ "abc#def" ++ Sample.utf8 cp) p
               = {| tr_code := "abc"; tr_state := Some "def"; tr_code_verifier := "v" |})
       Sample.white_space
  /\ Forall (fun cp =>
               OAuth.tokenRequest (Sample.utf8 cp ++ "abc") p
               = {| tr_code := Sample.utf8 cp ++ "abc"; tr_state := None;
                    tr_code_verifier := "v" |})
       Sample.no_white_space.
Proof.
  intros p.
  destruct (pasted_code_is_split_at_hash "  abc#def " "abc" "def" p eq_refl eq_refl)
    as [H1 _].
  destruct (pasted_code_is_split_at_hash "abc#def#ghi" "abc" "def" p eq_refl eq_refl)
    as [H2 _].
  destruct (pasted_code_is_split_at_hash "abc" "abc" "def" p eq_refl eq_refl) as [_ H3].
  split; [apply (H1 ""); [vm_compute; reflexivity|left; reflexivity]|].
  split; [apply (H2 "#ghi"); [vm_compute; reflexivity|right; exists "ghi"; reflexivity]|].
  split; [apply H3; vm_compute; reflexivity|].
  split.
  - unfold Sample.white_space.
    repeat (apply List.Forall_cons;
            [apply (proj1 (pasted_code_is_split_at_hash _ "abc" "def" p eq_refl eq_refl) "");
             [vm_compute; reflexivity|left; reflexivity]|]).
    apply List.Forall_nil.
  - unfold Sample.no_white_space.
    repeat (apply List.Forall_cons;
            [cbv beta;
             lazymatch goal with
             | |- OAuth.tokenRequest ?text p = _ =>
                 apply (proj2 (pasted_code_is_split_at_hash text text "" p eq_refl eq_refl));
                 vm_compute; reflexivity
             end|]).
    apply List.Forall_nil.
Defined.

(** A second [/login] while the first waits. *)
Lemma superseded_login_ends_silently_witness :
  let w := snd (Auth.onPrompt "C1" (Sample.boot Sample.calm)) in
  exists e,
    promises (snd (Auth.cancelExisting "C1" w)) !! 0%nat = Some (Rejected e)
    /\ forall w', Auth.handleLogin_settled "C1" (Throw e) w' = (Ret tt, w').
Proof.
  intros w.
  destruct (superseded_login_ends_silently "C1" w {| waiter := 0; timeout := 1 |})
    as (e & Hp & _ & _ & Hsilent); [vm_compute; reflexivity|vm_compute; reflexivity|].
  exists e. split; [exact Hp|exact Hsilent].
Defined.

(** The timer of a waiting login fires. *)
Lemma timed_out_login_is_reported_witness :
  let w := snd (Auth.onPrompt "C1" (Sample.boot Sample.calm)) in
  let w1 := snd (Auth.onTimeout 1 w) in
  promises w1 !! 0%nat = Some (Rejected (Js.newError "Login timed out after 10 minutes"))
  /\ pendingLogins w1 !! "C1" = None
  /\ Auth.tryCompleteLogin "C1" "abc#def" w1 = (Ret false, w1).
Proof.
  intros w w1.
  destruct (timed_out_login_is_reported 1 {| tm_channel := "C1"; tm_promise := 0 |} w)
    as (Hp & Hl & _ & Htry & _); [vm_compute; reflexivity|vm_compute; reflexivity|].
  split; [exact Hp|]. split; [exact Hl|]. apply (Htry "abc#def").
Defined.

(** A code pasted for a waiting login, with a no-break space behind it,
    and the timer after it. *)
Lemma resolved_login_is_final_witness :
  let w := snd (Auth.onPrompt "C1" (Sample.boot Sample.calm)) in
  let w1 := snd (Auth.tryCompleteLogin "C1" (" abc#def" ++ Sample.nbsp) w) in
  promises w1 !! 0%nat = Some (Resolved "abc#def")
  /\ Auth.onTimeout 1 w1 = (Ret tt, w1).
Proof.
  intros w w1.
  destruct (resolved_login_is_final "C1" (" abc#def" ++ Sample.nbsp) w
              {| waiter := 0; timeout := 1 |})
    as (_ & Hp & Ht & _);
    [vm_compute; reflexivity|vm_compute; reflexivity|vm_compute; reflexivity|].
  split; [exact Hp|exact Ht].
Defined.

(** [/auth] between no-break spaces is the command; [hello] is left to
    the agent, untouched. *)
Lemma unhandled_text_changes_nothing_witness :
  fst (Commands.tryHandleCommand "C1" (Sample.nbsp ++ "/auth" ++ Sample.nbsp)
         (Sample.boot Sample.calm)) <> Ret false
  /\ Commands.tryHandleCommand "C1" "hello" (Sample.boot Sample.calm)
     = (Ret false, Sample.boot Sample.calm).
Proof.
  split.
  - intros H.
    apply (proj1 (proj1 (unhandled_text_changes_nothing
                           "C1" (Sample.nbsp ++ "/auth" ++ Sample.nbsp)
                           (Sample.boot Sample.calm)))) in H.
    destruct H as [H _]. vm_compute in H. discriminate H.
  - destruct (unhandled_text_changes_nothing "C1" "hello" (Sample.boot Sample.calm))
      as [Hiff Hsame].
    assert (Hres : fst (Commands.tryHandleCommand "C1" "hello" (Sample.boot Sample.calm))
                   = Ret false)
      by (apply Hiff; split; vm_compute; reflexivity).
    specialize (Hsame Hres).
    destruct (Commands.tryHandleCommand "C1" "hello" (Sample.boot Sample.calm)) as [r w'].
    cbn [fst snd] in *. congruence.
Defined.

(** A run that answers twice and replies in the thread: one post, and
    everything after it on that message. *)
Lemma primary_message_is_posted_once_witness :
  let event := Sample.say "C1" "hello" in
  let s1 := snd (Ctx.setTyping event false true (Ctx.fresh, Sample.boot Sample.calm)) in
  let s' := snd (Handler.play_all event false
                   [ActRespond "one" true; ActRespondInThread "detail";
                    ActRespond "two" false; ActSetWorking false] s1) in
  messageTs (fst s') = Some "ts1"
  /\ Obs.slack_calls (journal (snd s'))
     = [SlackPostMessage "C1" "_Thinking_ ...";
        SlackUpdateMessage "C1" "ts1" ("_Thinking_" ++ Js.nl ++ "one ...");
        SlackPostInThread "C1" "ts1" "detail";
        SlackUpdateMessage "C1" "ts1" ("_Thinking_" ++ Js.nl ++ "one" ++ Js.nl ++ "two ...");
        SlackUpdateMessage "C1" "ts1" ("_Thinking_" ++ Js.nl ++ "one" ++ Js.nl ++ "two")].
Proof.
  intros event s1 s'.
  destruct (primary_message_is_posted_once event false
              [ActRespond "one" true; ActRespondInThread "detail";
               ActRespond "two" false; ActSetWorking false]
              (fst s1) (snd s1) "ts1") as (Hm & _); try (vm_compute; reflexivity).
  split.
  - subst s'. replace s1 with (fst s1, snd s1) by (destruct s1; reflexivity).
    rewrite Hm. vm_compute. reflexivity.
  - vm_compute. reflexivity.
Defined.

(** The first response of a run. *)
Lemma respond_shows_all_text_witness :
  let event := Sample.say "C1" "hello" in
  let out := Ctx.respond event "one" true (Ctx.fresh, Sample.boot Sample.calm) in
  accumulatedText (fst (snd out)) = "one"
  /\ journal (snd (snd out))
     = [SlackPostMessage "C1" "one ..."; SlackLogBotResponse "C1" "one" "ts1"].
Proof.
  intros event out.
  destruct (respond_shows_all_text event "one" true Ctx.fresh (Sample.boot Sample.calm)
              eq_refl) as (Hacc & _ & Hj & _).
  fold out in Hacc, Hj. split; [exact Hacc|].
  rewrite Hj. vm_compute. reflexivity.
Defined.

(** The run for a scheduled event. *)
Lemma event_runs_are_announced_by_name_witness :
  let event := Sample.say "C1" "[EVENT:daily.json:periodic:0 9 * * *] check" in
  journal (snd (snd (Ctx.setTyping event true true (Ctx.fresh, Sample.boot Sample.calm))))
  = [SlackPostMessage "C1" "_Starting event: daily.json_ ..."]
  /\ journal (snd (snd (Ctx.setTyping event false true (Ctx.fresh, Sample.boot Sample.calm))))
     = [SlackPostMessage "C1" "_Thinking_ ..."].
Proof.
  intros event.
  destruct (event_runs_are_announced_by_name event "daily.json" "periodic:0 9 * * *] check"
              Ctx.fresh (Sample.boot Sample.calm))
    as [H1 H2]; try reflexivity; [discriminate|].
  split; [rewrite H1|rewrite H2]; reflexivity.
Defined.

(** A run in "C1" with a stop request, seen from "C2". *)
Lemma other_channels_untouched_witness :
  let w := snd (Handler.handleEvent (Sample.say "C2" "hello") false
                  (Sample.boot Sample.stopper)) in
  View.record_of "C2"
    (snd (Handler.deliver_all
            [Handler.Message (Sample.say "C1" "hello") false; Handler.Stop "C1"] w))
  = View.record_of "C2" w.
Proof.
  intros w.
  apply (proj2 (proj2 (other_channels_untouched "C2"))). vm_compute. reflexivity.
Defined.

(** Behind a protocol adapter: a run that completes is signalled, a run
    whose agent raises is not. *)
Lemma completion_is_signalled_after_a_result_witness :
  let event := Sample.say "C1" "hello" in
  View.done_signals
    (journal (snd (Handler.handleEvent event false
                     (Scene.behind_adapter (Sample.boot Sample.calm)))))
  = [FetchDone "http://localhost:3000" "C1"]
  /\ View.done_signals
       (journal (snd (Handler.handleEvent event false
                        (Scene.behind_adapter (Sample.boot Sample.crashing)))))
     = [].
Proof.
  intros event. split.
  - rewrite (completion_is_signalled_after_a_result event false
               (Scene.behind_adapter (Sample.boot Sample.calm))
               (snd (Handler.run_until_result event false "/data/C1"
                       (snd (Handler.begin_run event
                               (Obs.entered event
                                  (Scene.behind_adapter (Sample.boot Sample.calm)))))))
               (Ret {| stopReason := "completed" |}));
      vm_compute; reflexivity.
  - rewrite (completion_is_signalled_after_a_result event false
               (Scene.behind_adapter (Sample.boot Sample.crashing))
               (snd (Handler.run_until_result event false "/data/C1"
                       (snd (Handler.begin_run event
                               (Obs.entered event
                                  (Scene.behind_adapter (Sample.boot Sample.crashing)))))))
               (Throw (Js.newError "overloaded")));
      vm_compute; reflexivity.
Defined.

(** A runner that reports an abort after a run in which nobody asked
    for a stop, in a channel whose last run was stopped. *)
Lemma stop_requests_do_not_leak_witness :
  let event := Sample.say "C1" "hello" in
  let stopped := snd (Handler.handleEvent event false (Sample.boot Sample.stopper)) in
  let w := {| outside := Scene.giving_up; cfg := cfg stopped; journal := [];
              channelStates := channelStates stopped; pendingAuths := pendingAuths stopped;
              pendingLogins := pendingLogins stopped; promises := promises stopped;
              timers := timers stopped; next_id := next_id stopped; fs := fs stopped;
              clock_reads := clock_reads stopped |} in
  stopRequested (Obs.state_of "C1" w) = true
  /\ Obs.slack_calls (journal (snd (Handler.handleEvent event false w)))
     = [SlackPostMessage "C1" "_Thinking_ ...";
        SlackUpdateMessage "C1" "ts3" "_Thinking_ ...";
        SlackUpdateMessage "C1" "ts3" "_Thinking_"].
Proof.
  intros event stopped w. split; [vm_compute; reflexivity|].
  destruct (stop_requests_do_not_leak event false w
              (snd (Handler.run_until_result event false "/data/C1"
                      (snd (Handler.begin_run event (Obs.entered event w)))))
              Sample.aborted) as (_ & _ & Hcalls).
  - vm_compute. reflexivity.
  - intros j. reflexivity.
  - vm_compute. reflexivity.
  - rewrite Hcalls. vm_compute. reflexivity.
Defined.

(** The command line of run.sh, and one that asks for a download. *)
Lemma parseArgs_reports_its_arguments_witness :
  Cli.parseArgs Scene.parseSandboxArg Scene.resolve ["--sandbox=docker:pilot-sandbox"; "/srv/data"]
  = Ret {| Cli.pa_workingDir := Some "/srv/data";
           Cli.pa_sandbox := Cli.Docker "pilot-sandbox";
           Cli.pa_downloadChannel := None |}
  /\ exists parsed,
       Cli.parseArgs Scene.parseSandboxArg Scene.resolve ["--download"; "-C123"; "/srv/data"]
       = Ret parsed
       /\ Cli.pa_downloadChannel parsed = Some "-C123"
       /\ Cli.pa_sandbox parsed = Cli.Host.
Proof.
  split; [vm_compute; reflexivity|].
  apply (proj1 (proj2 (proj2 (parseArgs_reports_its_arguments
                                Scene.parseSandboxArg Scene.resolve
                                ["--download"; "-C123"; "/srv/data"])))
           [] "-C123" ["/srv/data"]); reflexivity.
Defined.

(* ---------------------------------------------------------------------- *)
(** ** What the user is told about the login *)

Lemma isLoggedIn_holds workingDir w :
  View.is_dir (fs w) (View.momDir workingDir) = true ->
  fst (OAuth.isLoggedIn workingDir w) = Ret (View.holds_credentials workingDir w)
  /\ Obs.slack_calls (journal (snd (OAuth.isLoggedIn workingDir w)))
     = Obs.slack_calls (journal w)
  /\ outside (snd (OAuth.isLoggedIn workingDir w)) = outside w
  /\ fs (snd (OAuth.isLoggedIn workingDir w)) = fs w.
Proof.
  intros Hdir. unfold OAuth.isLoggedIn, bind, View.holds_credentials.
  rewrite (loadCredentials_cases _ _ Hdir).
  destruct (fs w !! Obs.credentialPath workingDir) as [[content md|md]|].
  - destruct (JSON_parse_anthropic (outside w) content) as [[credentials|]|e]; cbn; auto.
    rewrite slack_calls_app. cbn. rewrite app_nil_r. auto.
  - cbn. rewrite slack_calls_app. cbn. rewrite app_nil_r. auto.
  - cbn. auto.
Qed.

(** X26. [/auth-status] answers from the credential file first and from
    the environment second: "Logged in via OAuth" exactly when the file
    is there and parses into credentials; otherwise "Using API key from
    environment" exactly when one of the two variables is set to a
    non-empty text; otherwise "Not authenticated".  It posts that one
    message and writes no file. *)
Theorem auth_status_answers_from_the_file (event : SlackEvent) (isEvent : bool) (w : World) :
  String.eqb (Js.trim (ev_text event)) "/auth-status"
  || String.eqb (Js.trim (ev_text event)) "/auth" = true ->
  View.is_dir (fs w) (View.momDir (workingDir (cfg w))) = true ->
  let w' := snd (Handler.handleEvent event isEvent w) in
  Obs.slack_calls (journal w')
  = (Obs.slack_calls (journal w)
     ++ [SlackPostMessage (ev_channel event)
           (auth_status (View.holds_credentials (workingDir (cfg w)) w) (hasEnvKey (cfg w)))])%list
  /\ fs w' = fs w.
Proof.
  intros Hcmd Hdir w'. subst w'. rewrite handleEvent_dispatch. cbv zeta.
  assert (Hnot : String.eqb (Js.trim (ev_text event)) "/login"
                 || String.eqb (Js.trim (ev_text event)) "/login anthropic" = false
                 /\ String.eqb (Js.trim (ev_text event)) "/logout"
                    || String.eqb (Js.trim (ev_text event)) "/logout anthropic" = false).
  { apply orb_true_iff in Hcmd as [H|H]; apply String.eqb_eq in H; rewrite H; split; reflexivity. }
  destruct Hnot as [H1 H2]. rewrite H1, H2, Hcmd.
  destruct (getState_frame (ev_channel event) w) as (Ho & _ & Hj & _ & Hfs).
  set (w0 := snd (Handler.getState (ev_channel event) w)) in *.
  assert (Hdir0 : View.is_dir (fs w0) (View.momDir (workingDir (cfg w))) = true)
    by (rewrite Hfs; exact Hdir).
  destruct (isLoggedIn_holds (workingDir (cfg w)) w0 Hdir0) as (Hres & Hcalls & Hout & Hfiles).
  assert (Hsame : View.holds_credentials (workingDir (cfg w)) w0
                  = View.holds_credentials (workingDir (cfg w)) w).
  { unfold View.holds_credentials. rewrite Hfs, Ho. reflexivity. }
  rewrite Hsame in Hres.
  set (status := auth_status (View.holds_credentials (workingDir (cfg w)) w)
                   (hasEnvKey (cfg w))).
  assert (Hon : exists r,
             Handler.onAuthStatus event (cfg w) w0
             = (r, set_journal
                     (journal (snd (OAuth.isLoggedIn (workingDir (cfg w)) w0))
                      ++ [SlackPostMessage (ev_channel event) status])
                     (snd (OAuth.isLoggedIn (workingDir (cfg w)) w0)))).
  { unfold Handler.onAuthStatus. unfold bind at 1.
    destruct (OAuth.isLoggedIn (workingDir (cfg w)) w0) as [[loggedIn|e] w1];
      cbn [fst snd] in Hres |- *; [|discriminate].
    injection Hres as ->. fold status.
    unfold Slack.postMessage, Slack.call, bind, emit, modify, ask, gets. cbn.
    destruct (slack_api (outside w1) _); cbn; eauto. }
  destruct Hon as [r ->]. cbn [snd journal set_journal fs].
  split; [|congruence].
  rewrite slack_calls_app, Hcalls, Hj. reflexivity.
Qed.

Lemma delete_gone (channelId : string) (m : gmap string PendingAuth) :
  delete channelId m !! channelId = None.
Proof. apply lookup_delete_eq. Qed.

(** X27. [completeLogin] never throws, always explains a failure, and
    always uses up the login.  Whatever the pasted text, the token
    endpoint and the file system do, it returns a result; a result that
    is no success carries an error text; afterwards the channel has no
    pending entry, so that a second try needs a new [/login]; and
    without a live entry (none stored, or one older than ten minutes)
    it contacts nobody and writes nothing. *)
Theorem completeLogin_always_answers (channelId authCode workingDir : string) (w : World) :
  let out := OAuth.completeLogin channelId authCode workingDir w in
  (exists result,
      fst out = Ret result
      /\ (if OAuth.success result then OAuth.error result = None
          else is_Some (OAuth.error result)))
  /\ pendingAuths (snd out) !! channelId = None
  /\ (Obs.pending_exists channelId w = false ->
      journal (snd out) = journal w
      /\ fs (snd out) = fs w
      /\ exists reason,
          fst out = Ret (OAuth.failure reason)
          /\ (reason = "No pending login. Use /login to start."
              \/ reason = "Login expired. Use /login to start again.")).
Proof.
  intros out. subst out.
  remember (OAuth.completeLogin channelId authCode workingDir w) as out eqn:Hout.
  unfold OAuth.completeLogin in Hout. unfold bind at 1, gets at 1 in Hout.
  cbn beta iota in Hout. unfold Obs.pending_exists.
  destruct (pendingAuths w !! channelId) as [p|] eqn:Hp.
  - unfold bind at 1 in Hout. rewrite Date_now_run in Hout.
    destruct (OAuth.expired (Obs.now w) p).
    + subst out. cbn. split; [eexists; split; [reflexivity|cbn; eauto]|].
      split; [apply delete_gone|]. intros _. eauto 6.
    + cbn [negb]. unfold try_catch in Hout. unfold bind at 1 in Hout.
      destruct (OAuth.fetchToken (OAuth.tokenRequest authCode p) (clock_read w))
        as [[response|e] w1].
      * unfold OAuth.useTokenResponse in Hout.
        destruct (ok response); cbn [negb] in Hout.
        -- unfold bind at 1 in Hout.
           destruct (body_json response) as [tokenData|e]; cbn [settle ret throw] in Hout.
           ++ unfold bind at 1 in Hout. rewrite Date_now_run in Hout.
              unfold bind at 1 in Hout.
              destruct (OAuth.saveCredentials _ _ (clock_read w1)) as [[[]|e] w2].
              ** subst out. cbn. split; [eexists; split; [reflexivity|cbn; eauto]|].
                 split; [apply delete_gone|discriminate].
              ** subst out. cbn. split; [eexists; split; [reflexivity|cbn; eauto]|].
                 split; [apply delete_gone|discriminate].
           ++ subst out. cbn. split; [eexists; split; [reflexivity|cbn; eauto]|].
              split; [apply delete_gone|discriminate].
        -- unfold bind at 1 in Hout.
           destruct (body_text response) as [error|e]; cbn [settle ret throw] in Hout.
           ++ subst out. cbn. split; [eexists; split; [reflexivity|cbn; eauto]|].
              split; [apply delete_gone|discriminate].
           ++ subst out. cbn. split; [eexists; split; [reflexivity|cbn; eauto]|].
              split; [apply delete_gone|discriminate].
      * subst out. cbn. split; [eexists; split; [reflexivity|cbn; eauto]|].
        split; [apply delete_gone|discriminate].
  - subst out. cbn. split; [eexists; split; [reflexivity|cbn; eauto]|].
    split; [exact Hp|]. intros _. eauto 6.
Qed.

(* ---------------------------------------------------------------------- *)
(** ** The end of the adapter's part of a run *)

Lemma bind_returned {S A B} (m : ST S A) (k : A -> ST S B) s b s' :
  bind m k s = (Ret b, s') ->
  exists a s1, m s = (Ret a, s1) /\ k a s1 = (Ret b, s').
Proof.
  unfold bind. destruct (m s) as [[a|e] s1]; [eauto|discriminate].
Qed.

Lemma setWorking_returned event working s s' :
  Ctx.setWorking event working s = (Ret tt, s') ->
  isWorking (fst s') = working
  /\ updatePromise (fst s') = Ret tt
  /\ forall ts,
       Js.truthy (messageTs (fst s')) = Some ts ->
       last (journal (snd s'))
       = Some (SlackUpdateMessage (ev_channel event) ts (Ctx.displayText (fst s'))).
Proof.
  destruct s as [c w]. unfold Ctx.setWorking.
  destruct (updatePromise c) as [[]|e] eqn:Hchain;
    [rewrite (enqueue_run _ _ _ Hchain)|rewrite (enqueue_skipped _ _ _ _ Hchain); discriminate].
  unfold bind at 1. unfold Ctx.modc at 1, modify at 1. cbn beta iota. cbn [fst snd].
  unfold bind at 1. unfold Ctx.getc at 1, gets at 1. cbn beta iota.
  cbn [fst Ctx.set_isWorking messageTs].
  destruct (Js.truthy (messageTs c)) as [ts|] eqn:Hts.
  - unfold Ctx.liftW, Slack.updateMessage, Slack.call, bind, emit, modify, ask, gets. cbn.
    destruct (slack_api (outside w) _) as [r|e]; cbn; [|discriminate].
    intros [= <-]. cbn. rewrite Hts. repeat split; [exact Hchain|].
    intros ts' [= <-]. apply last_snoc.
  - intros [= <-]. cbn. rewrite Hts. repeat split; [exact Hchain|]. discriminate.
Qed.

(** X28. A run does not come back from the adapter with the working
    indicator still shown.  When [run_agent] returns a result, the
    adapter is no longer working, its chain is fulfilled, and if there
    is a primary message, the last request made is the edit that leaves
    it showing the accumulated text without the indicator. *)
Theorem finished_run_shows_no_indicator
  (event : SlackEvent) (isEvent : bool) (s s' : SlackContext * World) (result : RunResult) :
  Handler.run_agent event isEvent s = (Ret result, s') ->
  isWorking (fst s') = false
  /\ updatePromise (fst s') = Ret tt
  /\ forall ts,
       Js.truthy (messageTs (fst s')) = Some ts ->
       last (journal (snd s'))
       = Some (SlackUpdateMessage (ev_channel event) ts (accumulatedText (fst s'))).
Proof.
  intros Hrun. unfold Handler.run_agent in Hrun.
  apply bind_returned in Hrun as (a1 & s1 & _ & Hrun).
  apply bind_returned in Hrun as (a2 & s2 & _ & Hrun).
  apply bind_returned in Hrun as (result' & s3 & _ & Hrun).
  apply bind_returned in Hrun as ([] & s4 & Hlast & Hret).
  injection Hret as <- <-.
  destruct (setWorking_returned _ _ _ _ Hlast) as (Hw & Hchain & Hshown).
  split; [exact Hw|]. split; [exact Hchain|].
  intros ts Hts. rewrite (Hshown ts Hts). unfold Ctx.displayText. rewrite Hw. reflexivity.
Qed.

(** [/auth], with blanks around it, in a working directory that holds
    credentials. *)
Lemma auth_status_answers_from_the_file_witness :
  let w := Scene.with_file "{anthropic:acc0}" Scene.literate in
  Obs.slack_calls
    (journal (snd (Handler.handleEvent (Sample.say "C1" " /auth ") false w)))
  = [SlackPostMessage "C1" "✓ Logged in via OAuth"].
Proof.
  intros w.
  destruct (auth_status_answers_from_the_file (Sample.say "C1" " /auth ") false w)
    as [H _]; [vm_compute; reflexivity|vm_compute; reflexivity|].
  rewrite H. vm_compute. reflexivity.
Defined.

(** A code pasted to a token endpoint that answers 400, and one pasted
    where no login was started. *)
Lemma completeLogin_always_answers_witness :
  let out := OAuth.completeLogin "C1" "abc#def" "/data" (Sample.logging_in Sample.refusing) in
  let idle := OAuth.completeLogin "C1" "abc#def" "/data" (Sample.boot Sample.calm) in
  pendingAuths (snd out) !! "C1" = None
  /\ journal (snd idle) = [].
Proof.
  intros out idle.
  destruct (completeLogin_always_answers "C1" "abc#def" "/data"
              (Sample.logging_in Sample.refusing)) as (_ & Hgone & _).
  destruct (completeLogin_always_answers "C1" "abc#def" "/data" (Sample.boot Sample.calm))
    as (_ & _ & Hquiet).
  split; [exact Hgone|].
  destruct Hquiet as (Hj & _); [vm_compute; reflexivity|exact Hj].
Defined.

(** A run that answers twice. *)
Lemma finished_run_shows_no_indicator_witness :
  let event := Sample.say "C1" "hello" in
  let out := Handler.run_agent event false (Ctx.fresh, Sample.boot Scene.chatty) in
  last (journal (snd (snd out)))
  = Some (SlackUpdateMessage "C1" "ts1"
            ("_Thinking_" ++ Js.nl ++ "one" ++ Js.nl ++ "two")).
Proof.
  intros event out.
  destruct (finished_run_shows_no_indicator event false (Ctx.fresh, Sample.boot Scene.chatty)
              (snd out) {| stopReason := "stop" |}) as (_ & _ & H).
  - vm_compute. reflexivity.
  - rewrite (H "ts1"); vm_compute; reflexivity.
Defined.

(* ---------------------------------------------------------------------- *)
(** ** After [deleteMessage] *)

Lemma deleteMessage_returned event c w s1 :
  updatePromise c = Ret tt ->
  Ctx.deleteMessage event (c, w) = (Ret tt, s1) ->
  accumulatedText (fst s1) = accumulatedText c
  /\ isWorking (fst s1) = isWorking c
  /\ updatePromise (fst s1) = Ret tt
  /\ Js.truthy (messageTs (fst s1)) = None
  /\ threadMessageTs (fst s1) = [].
Proof.
  intros Hchain. unfold Ctx.deleteMessage. rewrite (enqueue_run _ _ _ Hchain).
  unfold bind at 1. unfold Ctx.getc at 1, gets at 1. cbn beta iota. cbn [fst].
  destruct (delete_each_runs (ev_channel event) (rev (threadMessageTs c)) c w)
    as (w1 & Hrun & _ & _).
  unfold bind at 1. rewrite Hrun.
  unfold bind at 1. unfold Ctx.modc at 1, modify at 1. cbn beta iota. cbn [fst snd].
  unfold bind at 1. unfold Ctx.getc at 1, gets at 1. cbn beta iota.
  cbn [fst Ctx.set_threadMessageTs messageTs].
  destruct (Js.truthy (messageTs c)) as [ts|] eqn:Hts.
  - unfold Ctx.liftW, Slack.deleteMessage, Slack.call, bind, emit, modify, ask, gets, Ctx.modc,
      modify. cbn.
    destruct (slack_api (outside w1) _) as [r|e]; cbn; [|discriminate].
    intros [= <-]. cbn. auto.
  - intros [= <-]. cbn. auto.
Qed.

(** With no primary message, [respond] posts one, and shows in it
    whatever is accumulated. *)
Lemma respond_posts_anew event text shouldLog c w :
  updatePromise c = Ret tt ->
  Js.truthy (messageTs c) = None ->
  let all := if String.eqb (accumulatedText c) "" then text
             else accumulatedText c ++ Js.nl ++ text in
  let shown := if isWorking c then all ++ Ctx.workingIndicator else all in
  exists rest,
    journal (snd (snd (Ctx.respond event text shouldLog (c, w))))
    = (journal w
       ++ match Js.truthy (ev_thread_ts event) with
          | Some thread_ts => SlackPostInThread (ev_channel event) thread_ts shown
          | None => SlackPostMessage (ev_channel event) shown
          end :: rest)%list.
Proof.
  intros Hchain Hts all shown.
  remember (Ctx.respond event text shouldLog (c, w)) as out eqn:Hout.
  unfold Ctx.respond in Hout. rewrite (enqueue_run _ _ _ Hchain) in Hout.
  unfold bind at 1 in Hout. unfold Ctx.getc at 1, gets at 1 in Hout.
  cbn beta iota in Hout. cbn [fst] in Hout.
  unfold bind at 1 in Hout. unfold Ctx.modc at 1, modify at 1 in Hout.
  cbn beta iota in Hout. cbn [fst snd] in Hout.
  unfold bind at 1 in Hout. unfold Ctx.getc at 1, gets at 1 in Hout.
  cbn beta iota in Hout. cbn [fst] in Hout.
  unfold bind at 1 in Hout. fold all in Hout.
  unfold Ctx.show_primary in Hout. unfold bind at 1 in Hout.
  unfold Ctx.getc at 1, gets at 1 in Hout. cbn beta iota in Hout.
  cbn [fst Ctx.set_accumulatedText messageTs] in Hout. rewrite Hts in Hout.
  unfold Ctx.displayText in Hout.
  cbn [Ctx.set_accumulatedText isWorking accumulatedText] in Hout. fold shown in Hout.
  destruct (Js.truthy (ev_thread_ts event)) as [thread_ts|].
  - unfold Ctx.liftW, Ctx.modc, Ctx.getc, Slack.postInThread, Slack.call, Slack.logBotResponse,
      bind, emit, modify, ask, gets in Hout.
    cbn [fst snd journal set_journal outside] in Hout.
    destruct (slack_api (outside w) _) as [r|e]; cbn in Hout.
    + destruct shouldLog; [destruct (String.eqb r "")|]; cbn in Hout; subst out; cbn;
        eexists; rewrite <- ?app_assoc; reflexivity.
    + subst out. cbn. eexists. reflexivity.
  - unfold Ctx.liftW, Ctx.modc, Ctx.getc, Slack.postMessage, Slack.call, Slack.logBotResponse,
      bind, emit, modify, ask, gets in Hout.
    cbn [fst snd journal set_journal outside] in Hout.
    destruct (slack_api (outside w) _) as [r|e]; cbn in Hout.
    + destruct shouldLog; [destruct (String.eqb r "")|]; cbn in Hout; subst out; cbn;
        eexists; rewrite <- ?app_assoc; reflexivity.
    + subst out. cbn. eexists. reflexivity.
Qed.

(** X29. [deleteMessage] forgets the handles, not the text.  After a
    deletion that went through, the adapter has no primary message and
    no thread handles, but what it had accumulated is still there: the
    next [respond] posts a new message, and that message shows the
    deleted text with the new text under it. *)
Theorem deleted_text_comes_back
  (event : SlackEvent) (text : string) (shouldLog : bool)
  (c : SlackContext) (w : World) (s1 : SlackContext * World) :
  updatePromise c = Ret tt ->
  Ctx.deleteMessage event (c, w) = (Ret tt, s1) ->
  let out := Ctx.respond event text shouldLog s1 in
  let all := if String.eqb (accumulatedText c) "" then text
             else accumulatedText c ++ Js.nl ++ text in
  let shown := if isWorking c then all ++ Ctx.workingIndicator else all in
  Js.truthy (messageTs (fst s1)) = None
  /\ threadMessageTs (fst s1) = []
  /\ exists rest,
       journal (snd (snd out))
       = (journal (snd s1)
          ++ match Js.truthy (ev_thread_ts event) with
             | Some thread_ts => SlackPostInThread (ev_channel event) thread_ts shown
             | None => SlackPostMessage (ev_channel event) shown
             end :: rest)%list.
Proof.
  intros Hchain Hdel out all shown.
  destruct (deleteMessage_returned _ _ _ _ Hchain Hdel) as (Hacc & Hw & Hc1 & Hts & Hthreads).
  split; [exact Hts|]. split; [exact Hthreads|].
  destruct s1 as [c1 w1]. cbn [fst snd] in *.
  destruct (respond_posts_anew event text shouldLog c1 w1 Hc1 Hts) as [rest Hj].
  cbv zeta in Hj. rewrite Hacc, Hw in Hj. exists rest. exact Hj.
Qed.

(* ---------------------------------------------------------------------- *)
(** ** A stop request during a run *)

Lemma aborts_snoc j e :
  View.is_abort e = false -> View.aborts (j ++ [e]) = View.aborts j.
Proof.
  intros H. unfold View.aborts. rewrite List.filter_app. cbn. rewrite H. apply app_nil_r.
Qed.

Ltac abort_leaf :=
  first [ apply aborts_snoc; reflexivity | cbn; reflexivity ].

Lemma play_aborts_nothing event isEvent a :
  View.is_stop a = false ->
  keeps (on_world View.aborted_so_far) (Handler.play event isEvent a).
Proof.
  intros H. destruct a; try discriminate H; cbn [Handler.play]; keeps_go abort_leaf.
Qed.

Lemma play_stop_aborts event isEvent c w :
  Obs.is_running (ev_channel event) w = true ->
  let s' := snd (Handler.play event isEvent ActStop (c, w)) in
  View.aborts (journal (snd s'))
  = (View.aborts (journal w) ++ [RunnerAbort (ev_channel event)])%list
  /\ Obs.is_running (ev_channel event) (snd s') = true
  /\ stopRequested (Obs.state_of (ev_channel event) (snd s')) = true.
Proof.
  intros Hrunning. cbn [Handler.play]. unfold Ctx.liftW, attempt. cbn [fst snd].
  destruct (handleStop_running _ _ Hrunning) as (Hj & Hstop & _).
  pose proof (handleStop_flags (ev_channel event) (ev_channel event) w) as Hflag.
  destruct (Handler.handleStop (ev_channel event) w) as [r w1]. cbn [fst snd] in *.
  split; [|split; [congruence|exact Hstop]].
  rewrite Hj. unfold View.aborts. rewrite List.filter_app. reflexivity.
Qed.

Lemma play_all_aborts event isEvent l :
  forall c w,
    Obs.is_running (ev_channel event) w = true ->
    let s' := snd (Handler.play_all event isEvent l (c, w)) in
    View.aborts (journal (snd s'))
    = (View.aborts (journal w) ++ repeat (RunnerAbort (ev_channel event)) (View.stops l))%list
    /\ Obs.is_running (ev_channel event) (snd s') = true
    /\ (stopRequested (Obs.state_of (ev_channel event) w) = true \/ (0 < View.stops l)%nat ->
        stopRequested (Obs.state_of (ev_channel event) (snd s')) = true).
Proof.
  induction l as [|a rest IH]; intros c w Hrunning; cbn [Handler.play_all].
  - cbn. rewrite app_nil_r. repeat split; auto. intros [H|H]; [exact H|]. inversion H.
  - cbv zeta. unfold bind.
    assert (Hret : exists s1, Handler.play event isEvent a (c, w) = (Ret tt, s1)).
    { destruct a; cbn; unfold attempt, Ctx.liftW; cbn; eauto. }
    destruct Hret as [[c1 w1] Hplay]. rewrite Hplay.
    destruct (View.is_stop a) eqn:Hstop.
    + destruct a; try discriminate Hstop.
      destruct (play_stop_aborts event isEvent c w Hrunning) as (Hj & Hr & Hs).
      rewrite Hplay in Hj, Hr, Hs. cbn [fst snd] in Hj, Hr, Hs.
      destruct (IH c1 w1 Hr) as (Hj' & Hr' & Hs').
      cbv zeta in Hj', Hr', Hs'.
      split; [|split; [exact Hr'|intros _; apply Hs'; left; exact Hs]].
      rewrite Hj', Hj. unfold View.stops. cbn [List.filter View.is_stop length repeat].
      rewrite <- app_assoc. reflexivity.
    + pose proof (play_aborts_nothing event isEvent a Hstop (c, w)) as Hj.
      pose proof (play_undisturbed event isEvent a Hstop (c, w)) as Hstates.
      rewrite Hplay in Hj, Hstates. unfold on_world, View.aborted_so_far in Hj, Hstates.
      cbn [fst snd] in Hj, Hstates.
      assert (Hr : Obs.is_running (ev_channel event) w1 = true).
      { unfold Obs.is_running in *. rewrite Hstates. exact Hrunning. }
      destruct (IH c1 w1 Hr) as (Hj' & Hr' & Hs').
      cbv zeta in Hj', Hr', Hs'.
      split; [|split; [exact Hr'|]].
      * rewrite Hj', Hj. unfold View.stops. cbn [List.filter]. rewrite Hstop. reflexivity.
      * intros H. apply Hs'. unfold View.stops in *. cbn [List.filter] in H.
        rewrite Hstop in H. rewrite (state_of_frame _ _ _ Hstates). exact H.
Qed.

(** X30. A stop request aborts a run, and only a run.  While a channel
    is running, every stop request that arrives while [runner.run] is
    awaited aborts the runner: none is answered "_Nothing running_", the
    flag [running] stays set, and after the first of them
    [stopRequested] is set when the runner comes back.  For a channel in
    which nothing runs, also one never heard of, a stop request aborts
    nothing: the channel is told "_Nothing running_", no state is
    created or changed, and the request fails only if that post does. *)
Theorem stop_request_aborts_only_a_run :
  (forall event isEvent c w,
     Obs.is_running (ev_channel event) w = true ->
     let script := agent (outside w) (journal w ++ [RunnerRun (ev_channel event)]) in
     let s' := snd (Handler.runner_run event isEvent (c, w)) in
     View.aborts (journal (snd s'))
     = (View.aborts (journal w)
        ++ repeat (RunnerAbort (ev_channel event)) (View.stops (actions script)))%list
     /\ Obs.is_running (ev_channel event) (snd s') = true
     /\ ((0 < View.stops (actions script))%nat ->
         stopRequested (Obs.state_of (ev_channel event) (snd s')) = true))
  /\ (forall channelId w,
        Obs.is_running channelId w = false ->
        let out := Handler.handleStop channelId w in
        let said := (journal w ++ [SlackPostMessage channelId "_Nothing running_"])%list in
        journal (snd out) = said
        /\ channelStates (snd out) = channelStates w
        /\ fst out = match slack_api (outside w) said with
                     | Ret _ => Ret tt
                     | Throw e => Throw e
                     end).
Proof.
  split.
  - intros event isEvent c w Hrunning script s'.
    assert (Hs' : s' = snd (Handler.play_all event isEvent (actions script)
                              (c, set_journal (journal w ++ [RunnerRun (ev_channel event)]) w))).
    { subst s'. unfold Handler.runner_run.
      unfold bind at 1. unfold Ctx.liftW at 1, emit at 1, modify at 1. cbn beta iota.
      cbn [fst snd].
      unfold bind at 1. unfold Ctx.liftW at 1, ask at 1, gets at 1. cbn beta iota.
      cbn [fst snd outside journal set_journal]. fold script.
      unfold bind.
      destruct (Handler.play_all event isEvent (actions script) _) as [[[]|e] s2];
        [destruct (outcome script)|]; reflexivity. }
    rewrite Hs'.
    destruct (play_all_aborts event isEvent (actions script) c
                (set_journal (journal w ++ [RunnerRun (ev_channel event)]) w) Hrunning)
      as (Hj & Hr & Hs).
    cbv zeta in Hj, Hr, Hs. cbn [journal set_journal] in Hj.
    rewrite aborts_snoc in Hj by reflexivity.
    split; [exact Hj|]. split; [exact Hr|]. intros Hpos. apply Hs. right. exact Hpos.
  - intros channelId w Hidle out said. subst out said.
    unfold Obs.is_running in Hidle.
    unfold Handler.handleStop, Slack.postMessage, Slack.call, bind, gets, emit, modify, ask,
      gets.
    cbn.
    destruct (channelStates w !! channelId) as [state|]; [rewrite Hidle|];
      cbn; destruct (slack_api (outside w) _); cbn; auto.
Qed.

(** A message deleted and answered again. *)
Lemma deleted_text_comes_back_witness :
  let event := Sample.say "C1" "hello" in
  let s0 := snd (Ctx.respond event "draft" false (Ctx.fresh, Sample.boot Sample.calm)) in
  let s1 := snd (Ctx.deleteMessage event s0) in
  exists rest,
    journal (snd (snd (Ctx.respond event "final" false s1)))
    = (journal (snd s1) ++ SlackPostMessage "C1" ("draft" ++ Js.nl ++ "final ...") :: rest)%list.
Proof.
  intros event s0 s1.
  destruct (deleted_text_comes_back event "final" false (fst s0) (snd s0) s1)
    as (_ & _ & rest & Hj); [vm_compute; reflexivity|vm_compute; reflexivity|].
  exists rest. exact Hj.
Defined.

(** A stop request during the run of "hello", and one before it. *)
Lemma stop_request_aborts_only_a_run_witness :
  let event := Sample.say "C1" "hello" in
  let w := snd (Handler.begin_run event
                  (Obs.entered event (Sample.boot Sample.stopper))) in
  View.aborts (journal (snd (snd (Handler.runner_run event false (Ctx.fresh, w)))))
  = [RunnerAbort "C1"]
  /\ journal (snd (Handler.handleStop "C1" (Sample.boot Sample.stopper)))
     = [SlackPostMessage "C1" "_Nothing running_"].
Proof.
  intros event w. split.
  - destruct (proj1 stop_request_aborts_only_a_run event false Ctx.fresh w) as (H & _ & _);
      [vm_compute; reflexivity|].
    rewrite H. vm_compute. reflexivity.
  - destruct (proj2 stop_request_aborts_only_a_run "C1" (Sample.boot Sample.stopper))
      as (H & _ & _); [vm_compute; reflexivity|].
    exact H.
Defined.
